(** * L1-TLB ring cooperation and GMMU pipeline: a shallow embedding

    The development follows two Go packages of the simulator:
    - [akita/mem/vm/gmmu] (comp.go, builder.go): the GMMU pipeline;
    - [akita/mem/vm/tlb] (ring_noc.go): the ring of sixteen L1-TLBs and the
      probe protocol.

    Go [int] and [uint64] values are integers of [Z]; slices are lists; Go
    maps are [gmap]s; a pointer that may be nil is an [option]; a Go panic
    (explicit, or a run-time fault such as a nil dereference) is the
    [Panic] outcome of the [result] monad. *)

From Stdlib Require Import ZArith String List Lia Bool.
From stdpp Require Import base option list gmap strings.
Import ListNotations.

Open Scope Z_scope.

(** ** Outcomes of handlers *)

Inductive result (A : Type) : Type :=
| Ok (a : A)
| Panic (msg : string).
Arguments Ok {A} a.
Arguments Panic {A} msg.

#[global] Instance result_ret : MRet result := fun _ a => Ok a.
#[global] Instance result_bind : MBind result := fun _ _ f r =>
  match r with
  | Ok a => f a
  | Panic msg => Panic msg
  end.

Definition nil_dereference : string :=
  "runtime error: invalid memory address or nil pointer dereference".
Definition index_out_of_range : string :=
  "runtime error: index out of range".

(** ** Messages (packages [sim] and [vm], and the probe messages of [tlb]) *)

(** [sim.VTimeInSec]: time stamps are only copied into messages, never
    computed with, so they are carried as integers (clock edges). *)
Definition VTimeInSec := Z.

(** A message endpoint ([sim.Port] values, and the L1-TLBs that the ring code
    stores in [Src]/[Dst]).  Back-references are integer handles. *)
Inductive Endpoint : Type :=
| NoEndpoint
| PortNamed (name : string)
| TLBNode (se : Z) (id : Z).

#[global] Instance Endpoint_eq_dec : EqDecision Endpoint.
Proof. solve_decision. Defined.

(** [sim.MsgMeta].  Message ids come from the process-wide monotonic
    generator; they are modelled by the counter value they were drawn at. *)
Record MsgMeta : Type := mkMeta {
  ID : N;
  Src : Endpoint;
  Dst : Endpoint;
  SendTime : VTimeInSec;
  RecvTime : VTimeInSec;
  TrafficClass : Z;
  TrafficBytes : Z
}.

(** [vm.Page] restricted to the fields of the data model. *)
Record Page : Type := mkPage {
  Page_PID : Z;
  Page_VAddr : Z;
  Page_PAddr : Z;
  Page_DeviceID : Z;
  Page_Valid : bool
}.

(** The Go zero value of [vm.Page]. *)
Definition zeroPage : Page := mkPage 0 0 0 0 false.

(** [vm.TranslationReq]. *)
Record TranslationReq : Type := mkTranslationReq {
  Req_Meta : MsgMeta;
  Req_PID : Z;
  Req_VAddr : Z;
  Req_DeviceID : Z
}.

(** [vm.TranslationRsp]. *)
Record TranslationRsp : Type := mkTranslationRsp {
  Rsp_Meta : MsgMeta;
  RspTo : N;
  Rsp_Page : Page
}.

(** [tlb.ProbeRequest].  [ReceiveProbeRequest] reads [req.PID]; the struct
    declares no such field and no code sets it, so it is carried here as a
    field that [InitiateProbing] leaves at its zero value. *)
Record ProbeRequest : Type := mkProbeRequest {
  PReq_Meta : MsgMeta;
  PReq_PID : Z;
  VirtualAddr : Z;
  TTL : Z;
  Direction : string;
  SourceTLB : Z;
  PReq_SEID : Z
}.

(** [tlb.ProbeResponse]; [PRsp_Page] is the nullable [*vm.Page]. *)
Record ProbeResponse : Type := mkProbeResponse {
  PRsp_Meta : MsgMeta;
  PRsp_VirtualAddr : Z;
  PRsp_Page : option Page;
  PRsp_SourceTLB : Z;
  PRsp_SEID : Z
}.

(** [sim.Msg] is an interface; the four message types of the design are the
    first four variants, and [MOther] stands for a value of any other Go type
    implementing it, with the name [reflect.TypeOf] prints for it. *)
Inductive Msg : Type :=
| MTranslationReq (r : TranslationReq)
| MTranslationRsp (r : TranslationRsp)
| MProbeRequest (r : ProbeRequest)
| MProbeResponse (r : ProbeResponse)
| MOther (tyname : string) (meta : MsgMeta).

(** What [reflect.TypeOf(msg)] formats to under [%s]. *)
Definition typeOf (m : Msg) : string :=
  match m with
  | MTranslationReq _ => "*vm.TranslationReq"
  | MTranslationRsp _ => "*vm.TranslationRsp"
  | MProbeRequest _ => "*tlb.ProbeRequest"
  | MProbeResponse _ => "*tlb.ProbeResponse"
  | MOther tyname _ => tyname
  end.

(** ** The process-wide id generator and the message builders *)

(** [sim.GetIDGenerator().Generate()]: returns the next id and advances. *)
Definition Generate (idgen : N) : N * N := (idgen, N.succ idgen).

(** [vm.TranslationReqBuilder{}. ... .Build()]. *)
Definition buildTranslationReq (idgen : N) (sendTime : VTimeInSec)
    (src dst : Endpoint) (pid vAddr deviceID : Z) : TranslationReq * N :=
  let '(id, idgen') := Generate idgen in
  (mkTranslationReq (mkMeta id src dst sendTime 0 0 0) pid vAddr deviceID,
   idgen').

(** [vm.TranslationRspBuilder{}. ... .Build()]. *)
Definition buildTranslationRsp (idgen : N) (sendTime : VTimeInSec)
    (src dst : Endpoint) (rspTo : N) (page : Page) : TranslationRsp * N :=
  let '(id, idgen') := Generate idgen in
  (mkTranslationRsp (mkMeta id src dst sendTime 0 0 0) rspTo page, idgen').

(** ** Ports and buffered senders (package [sim]) *)

(** Modelled from the spec: the message ports of the external engine, which
    are buffered, of finite capacity, and offer a non-blocking [Send]
    returning success or busy and a non-blocking [Retrieve] returning the
    next message or nothing.  [incoming] is what the port has received and
    not yet handed over, [outgoing] what was sent through it, [outCap] how
    many sent messages it accepts before reporting busy. *)
Record Port : Type := mkPort {
  portName : string;
  incoming : list Msg;
  outgoing : list Msg;
  outCap : nat
}.

Definition endpointOf (p : Port) : Endpoint := PortNamed (portName p).

(** [port.Retrieve(now)]: the next message, or [None] for Go's nil. *)
Definition Port_Retrieve (p : Port) : option Msg * Port :=
  match incoming p with
  | [] => (None, p)
  | m :: rest => (Some m, mkPort (portName p) rest (outgoing p) (outCap p))
  end.

(** [port.Send(msg)]: [None] is the non-nil error (busy). *)
Definition Port_Send (p : Port) (m : Msg) : option Port :=
  if (length (outgoing p) <? outCap p)%nat
  then Some (mkPort (portName p) (incoming p) (outgoing p ++ [m]) (outCap p))
  else None.

(** Modelled from the spec: the buffered sender behind the GMMU's top port
    (capacity 4096).  [CanSend n] is the back-pressure test; [Send] queues a
    message (every call in the pipeline is guarded by [CanSend 1]). *)
Record BufferedSender : Type := mkSender {
  sbuf : list Msg;
  scap : nat
}.

Definition CanSend (s : BufferedSender) (n : nat) : bool :=
  (length (sbuf s) + n <=? scap s)%nat.

Definition Sender_Send (s : BufferedSender) (m : Msg) : BufferedSender :=
  mkSender (sbuf s ++ [m]) (scap s).

(** Modelled from the spec: the top sender's drain, which pushes queued
    responses onto the port as its flow control permits. *)
Fixpoint drain (buf : list Msg) (p : Port) : list Msg * Port * bool :=
  match buf with
  | [] => ([], p, false)
  | m :: rest =>
      match Port_Send p m with
      | Some p' => let '(buf', p'', _) := drain rest p' in (buf', p'', true)
      | None => (buf, p, false)
      end
  end.

Definition Sender_Tick (s : BufferedSender) (p : Port)
    : BufferedSender * Port * bool :=
  let '(buf', p', progress) := drain (sbuf s) p in
  (mkSender buf' (scap s), p', progress).

(** * Package [gmmu]: comp.go and builder.go *)

Module gmmu.

(** ** Collaborators of the pipeline *)

(** Modelled from the spec: [vm.PageTable], the page table of the [vm]
    package, of which the pipeline uses [Find] (page and found flag; the
    zero page when absent is the implementation's business) and [Update].
    A call of [Update] can panic instead of returning (the table of the [vm]
    package does so, with "page does not exist", for a page it does not
    hold), so it gives a [result]. *)
Class PageTableOps (PT : Type) : Type := {
  NewPageTable : Z -> PT;
  PT_Find : PT -> Z -> Z -> Page * bool;
  PT_Update : PT -> Page -> result PT
}.

(** [cuckoo.Filter]: approximate membership over byte-string keys.  [Insert]
    reports failure by [false] and may have moved entries even then. *)
Class FilterOps (F : Type) : Type := {
  NewFilter : Z -> F;
  Filter_Lookup : F -> list Byte.byte -> bool;
  Filter_Insert : F -> list Byte.byte -> F * bool;
  Filter_Reset : F -> F
}.

(** ** The filter key: [encodeVAddrPID] *)

Definition byteOfZ (z : Z) : Byte.byte :=
  default Byte.x00 (Byte.of_N (Z.to_N (z mod 256))).

(** [binary.LittleEndian.PutUint64]/[PutUint32]: [n] bytes, least first. *)
Fixpoint putLittleEndian (n : nat) (v : Z) : list Byte.byte :=
  match n with
  | O => []
  | S n' => byteOfZ v :: putLittleEndian n' (Z.shiftr v 8)
  end.

Definition encodeVAddrPID (vAddr pid : Z) : list Byte.byte :=
  putLittleEndian 8 (vAddr mod 2 ^ 64) ++ putLittleEndian 4 (pid mod 2 ^ 32).

(** ** State *)

(** [transaction]; [req] is a pointer and is nil in the Go zero value. *)
Record transaction : Type := mkTransaction {
  req : option TranslationReq;
  page : Page;
  cycleLeft : Z
}.

Definition zeroTransaction : transaction := mkTransaction None zeroPage 0.

Section Pipeline.

Context {PT F : Type} `{PageTableOps PT} `{FilterOps F}.

(** [Comp].  The mutex only serialises the filter calls and has no
    sequential content; [bottomSender] is built but never used by the
    pipeline; [idGenerator] is the process-wide id generator, threaded with
    the component because the builders draw from it. *)
Record Comp : Type := mkComp {
  deviceID : Z;
  topPort : Port;
  bottomPort : Port;
  LowModule : Endpoint;
  topSender : BufferedSender;
  pageTable : PT;
  latency : Z;
  maxRequestsInFlight : Z;
  walkingTranslations : list transaction;
  remoteMemReqs : gmap Z transaction;
  toRemoveFromPTW : list nat;
  cuckooFilter : F;
  idGenerator : N
}.

Definition with_topPort (g : Comp) (p : Port) : Comp :=
  mkComp (deviceID g) p (bottomPort g) (LowModule g) (topSender g)
    (pageTable g) (latency g) (maxRequestsInFlight g)
    (walkingTranslations g) (remoteMemReqs g) (toRemoveFromPTW g)
    (cuckooFilter g) (idGenerator g).

Definition with_bottomPort (g : Comp) (p : Port) : Comp :=
  mkComp (deviceID g) (topPort g) p (LowModule g) (topSender g)
    (pageTable g) (latency g) (maxRequestsInFlight g)
    (walkingTranslations g) (remoteMemReqs g) (toRemoveFromPTW g)
    (cuckooFilter g) (idGenerator g).

Definition with_topSender (g : Comp) (s : BufferedSender) : Comp :=
  mkComp (deviceID g) (topPort g) (bottomPort g) (LowModule g) s
    (pageTable g) (latency g) (maxRequestsInFlight g)
    (walkingTranslations g) (remoteMemReqs g) (toRemoveFromPTW g)
    (cuckooFilter g) (idGenerator g).

Definition with_pageTable (g : Comp) (pt : PT) : Comp :=
  mkComp (deviceID g) (topPort g) (bottomPort g) (LowModule g) (topSender g)
    pt (latency g) (maxRequestsInFlight g)
    (walkingTranslations g) (remoteMemReqs g) (toRemoveFromPTW g)
    (cuckooFilter g) (idGenerator g).

Definition with_walkingTranslations (g : Comp) (w : list transaction) : Comp :=
  mkComp (deviceID g) (topPort g) (bottomPort g) (LowModule g) (topSender g)
    (pageTable g) (latency g) (maxRequestsInFlight g)
    w (remoteMemReqs g) (toRemoveFromPTW g)
    (cuckooFilter g) (idGenerator g).

Definition with_remoteMemReqs (g : Comp) (m : gmap Z transaction) : Comp :=
  mkComp (deviceID g) (topPort g) (bottomPort g) (LowModule g) (topSender g)
    (pageTable g) (latency g) (maxRequestsInFlight g)
    (walkingTranslations g) m (toRemoveFromPTW g)
    (cuckooFilter g) (idGenerator g).

Definition with_toRemoveFromPTW (g : Comp) (l : list nat) : Comp :=
  mkComp (deviceID g) (topPort g) (bottomPort g) (LowModule g) (topSender g)
    (pageTable g) (latency g) (maxRequestsInFlight g)
    (walkingTranslations g) (remoteMemReqs g) l
    (cuckooFilter g) (idGenerator g).

Definition with_cuckooFilter (g : Comp) (f : F) : Comp :=
  mkComp (deviceID g) (topPort g) (bottomPort g) (LowModule g) (topSender g)
    (pageTable g) (latency g) (maxRequestsInFlight g)
    (walkingTranslations g) (remoteMemReqs g) (toRemoveFromPTW g)
    f (idGenerator g).

Definition with_idGenerator (g : Comp) (n : N) : Comp :=
  mkComp (deviceID g) (topPort g) (bottomPort g) (LowModule g) (topSender g)
    (pageTable g) (latency g) (maxRequestsInFlight g)
    (walkingTranslations g) (remoteMemReqs g) (toRemoveFromPTW g)
    (cuckooFilter g) n.

(** The response every path of the pipeline builds and queues on the top
    sender: [TranslationRspBuilder] with [Src = topPort], then
    [topSender.Send]. *)
Definition sendRspToTop (now : VTimeInSec) (g : Comp) (dst : Endpoint)
    (rspTo : N) (pg : Page) : Comp :=
  let '(rsp, idgen') :=
    buildTranslationRsp (idGenerator g) now (endpointOf (topPort g))
      dst rspTo pg in
  with_idGenerator
    (with_topSender g (Sender_Send (topSender g) (MTranslationRsp rsp)))
    idgen'.

(** ** [startWalking] *)

Definition startWalking (g : Comp) (r : TranslationReq) : Comp :=
  let translationInPipeline := mkTransaction (Some r) zeroPage (latency g) in
  with_walkingTranslations g
    (walkingTranslations g ++ [translationInPipeline]).

(** ** [parseFromTop] *)

Definition parseFromTop (now : VTimeInSec) (g : Comp) : result (Comp * bool) :=
  if maxRequestsInFlight g <=? Z.of_nat (length (walkingTranslations g))
  then Ok (g, false)
  else
    match Port_Retrieve (topPort g) with
    | (None, _) => Ok (g, false)
    | (Some m, port') =>
        let g := with_topPort g port' in
        match m with
        | MTranslationReq r =>
            let walk := Ok (startWalking g r, true) in
            if Filter_Lookup (cuckooFilter g)
                 (encodeVAddrPID (Req_VAddr r) (Req_PID r))
            then
              let '(pg, found) :=
                PT_Find (pageTable g) (Req_PID r) (Req_VAddr r) in
              if found && (Page_DeviceID pg =? deviceID g)
              then
                if CanSend (topSender g) 1
                then Ok (sendRspToTop now g (Src (Req_Meta r))
                           (ID (Req_Meta r)) pg, true)
                else walk
              else walk
            else walk
        | _ =>
            Panic ("gmmu cannot handle request of type " +:+ typeOf m)
        end
    end.

(** ** The page walk *)

(** [doPageWalkHit]. *)
Definition doPageWalkHit (now : VTimeInSec) (walkingIndex : nat) (g : Comp)
    : result (Comp * bool) :=
  if negb (CanSend (topSender g) 1) then Ok (g, false)
  else
    match walkingTranslations g !! walkingIndex with
    | None => Panic index_out_of_range
    | Some walking =>
        match req walking with
        | None => Panic nil_dereference
        | Some r =>
            let g := sendRspToTop now g (Src (Req_Meta r)) (ID (Req_Meta r))
                       (page walking) in
            Ok (with_toRemoveFromPTW g (toRemoveFromPTW g ++ [walkingIndex]),
                true)
        end
    end.

(** [finalizePageWalk]: the looked-up page is stored in the transaction
    before the send is attempted. *)
Definition finalizePageWalk (now : VTimeInSec) (walkingIndex : nat) (g : Comp)
    : result (Comp * bool) :=
  match walkingTranslations g !! walkingIndex with
  | None => Panic index_out_of_range
  | Some walking =>
      match req walking with
      | None => Panic nil_dereference
      | Some r =>
          let '(pg, _) := PT_Find (pageTable g) (Req_PID r) (Req_VAddr r) in
          let g := with_walkingTranslations g
                     (<[walkingIndex :=
                          mkTransaction (req walking) pg (cycleLeft walking)]>
                        (walkingTranslations g)) in
          doPageWalkHit now walkingIndex g
      end
  end.

(** [processRemoteMemReq]: the transaction is recorded under its virtual
    address before the send, and stays recorded when the port is busy. *)
Definition processRemoteMemReq (now : VTimeInSec) (walkingIndex : nat)
    (g : Comp) : result (Comp * bool) :=
  match walkingTranslations g !! walkingIndex with
  | None => Panic index_out_of_range
  | Some t =>
      match req t with
      | None => Panic nil_dereference
      | Some walking =>
          let g := with_remoteMemReqs g
                     (<[Req_VAddr walking := t]> (remoteMemReqs g)) in
          let '(r, idgen') :=
            buildTranslationReq (idGenerator g) now
              (endpointOf (bottomPort g)) (LowModule g)
              (Req_PID walking) (Req_VAddr walking) (Req_DeviceID walking) in
          let g := with_idGenerator g idgen' in
          match Port_Send (bottomPort g) (MTranslationReq r) with
          | None => Ok (g, false)
          | Some port' =>
              let g := with_bottomPort g port' in
              Ok (with_toRemoveFromPTW g (toRemoveFromPTW g ++ [walkingIndex]),
                  true)
          end
      end
  end.

(** One iteration of the first loop of [walkPageTable]. *)
Definition walkOne (now : VTimeInSec) (i : nat) (g : Comp)
    (madeProgress : bool) : result (Comp * bool) :=
  match walkingTranslations g !! i with
  | None => Panic index_out_of_range
  | Some t =>
      if 0 <? cycleLeft t
      then
        Ok (with_walkingTranslations g
              (<[i := mkTransaction (req t) (page t) (cycleLeft t - 1)]>
                 (walkingTranslations g)),
            true)
      else
        match req t with
        | None => Panic nil_dereference
        | Some r =>
            let '(pg, _) := PT_Find (pageTable g) (Req_PID r) (Req_VAddr r) in
            if Page_DeviceID pg =? deviceID g
            then
              '(g', b) ← finalizePageWalk now i g;
              Ok (g', b || madeProgress)
            else
              '(g', b) ← processRemoteMemReq now i g;
              Ok (g', b || madeProgress)
        end
  end.

Fixpoint walkLoop (now : VTimeInSec) (idxs : list nat) (g : Comp)
    (madeProgress : bool) : result (Comp * bool) :=
  match idxs with
  | [] => Ok (g, madeProgress)
  | i :: rest =>
      '(g', madeProgress') ← walkOne now i g madeProgress;
      walkLoop now rest g' madeProgress'
  end.

(** [toRemove]. *)
Fixpoint toRemove (toRemoveList : list nat) (index : nat) : bool :=
  match toRemoveList with
  | [] => false
  | remove :: rest =>
      if (remove =? index)%nat then true else toRemove rest index
  end.

(** The compaction loop of [walkPageTable], from index [i] on. *)
Fixpoint compact (toRemoveList : list nat) (i : nat) (l : list transaction)
    : list transaction :=
  match l with
  | [] => []
  | t :: rest =>
      if toRemove toRemoveList i
      then compact toRemoveList (S i) rest
      else t :: compact toRemoveList (S i) rest
  end.

(** [walkPageTable]. *)
Definition walkPageTable (now : VTimeInSec) (g : Comp) : result (Comp * bool) :=
  '(g', madeProgress) ←
    walkLoop now (seq 0 (length (walkingTranslations g))) g false;
  let tmp := compact (toRemoveFromPTW g') 0 (walkingTranslations g') in
  Ok (with_toRemoveFromPTW (with_walkingTranslations g' tmp) [], madeProgress).

(** ** The bottom side *)

(** [handleTranslationRsp]: the page table is updated first (a panic of
    [Update] ends the handler there), then the filter, and only then is the
    looked-up transaction's request dereferenced. *)
Definition handleTranslationRsp (now : VTimeInSec) (g : Comp)
    (response : TranslationRsp) : result (Comp * bool) :=
  let vAddr := Page_VAddr (Rsp_Page response) in
  let reqTransaction := default zeroTransaction (remoteMemReqs g !! vAddr) in
  pt ← PT_Update (pageTable g) (Rsp_Page response);
  let g := with_pageTable g pt in
  let key := encodeVAddrPID vAddr (Page_PID (Rsp_Page response)) in
  let '(f1, inserted) := Filter_Insert (cuckooFilter g) key in
  let g :=
    if inserted then with_cuckooFilter g f1
    else with_cuckooFilter g (fst (Filter_Insert (Filter_Reset f1) key)) in
  match req reqTransaction with
  | None => Panic nil_dereference
  | Some r =>
      let g := sendRspToTop now g (Src (Req_Meta r))
                 (ID (Rsp_Meta response)) (Rsp_Page response) in
      Ok (with_remoteMemReqs g (delete vAddr (remoteMemReqs g)), true)
  end.

(** [fetchFromBottom]. *)
Definition fetchFromBottom (now : VTimeInSec) (g : Comp)
    : result (Comp * bool) :=
  if negb (CanSend (topSender g) 1) then Ok (g, false)
  else
    match Port_Retrieve (bottomPort g) with
    | (None, _) => Ok (g, false)
    | (Some m, port') =>
        let g := with_bottomPort g port' in
        match m with
        | MTranslationRsp response => handleTranslationRsp now g response
        | _ => Panic ("gmmu canot handle request of type " +:+ typeOf m)
        end
    end.

(** ** [Tick] *)

Definition Tick (now : VTimeInSec) (g : Comp) : result (Comp * bool) :=
  let madeProgress := false in
  let '(s', p', b) := Sender_Tick (topSender g) (topPort g) in
  let g := with_topPort (with_topSender g s') p' in
  let madeProgress := b || madeProgress in
  '(g, b) ← parseFromTop now g;
  let madeProgress := b || madeProgress in
  '(g, b) ← walkPageTable now g;
  let madeProgress := b || madeProgress in
  '(g, b) ← fetchFromBottom now g;
  let madeProgress := b || madeProgress in
  Ok (g, madeProgress).

(** ** builder.go *)

Record Builder : Type := mkBuilder {
  log2PageSize : Z;
  b_pageTable : option PT;
  maxNumReqInFlight : Z;
  pageWalkingLatency : Z;
  b_deviceID : Z;
  lowModule : Endpoint;
  cuckooFilterCapacity : Z
}.

(** [MakeBuilder]. *)
Definition MakeBuilder : Builder :=
  mkBuilder 12 None 16 0 0 NoEndpoint 0.

Definition WithMaxNumReqInFlight (b : Builder) (n : Z) : Builder :=
  mkBuilder (log2PageSize b) (b_pageTable b) n (pageWalkingLatency b)
    (b_deviceID b) (lowModule b) (cuckooFilterCapacity b).

Definition WithLog2PageSize (b : Builder) (n : Z) : Builder :=
  mkBuilder n (b_pageTable b) (maxNumReqInFlight b) (pageWalkingLatency b)
    (b_deviceID b) (lowModule b) (cuckooFilterCapacity b).

Definition WithPageTable (b : Builder) (pt : option PT) : Builder :=
  mkBuilder (log2PageSize b) pt (maxNumReqInFlight b) (pageWalkingLatency b)
    (b_deviceID b) (lowModule b) (cuckooFilterCapacity b).

Definition WithPageWalkingLatency (b : Builder) (n : Z) : Builder :=
  mkBuilder (log2PageSize b) (b_pageTable b) (maxNumReqInFlight b) n
    (b_deviceID b) (lowModule b) (cuckooFilterCapacity b).

Definition WithDeviceID (b : Builder) (id : Z) : Builder :=
  mkBuilder (log2PageSize b) (b_pageTable b) (maxNumReqInFlight b)
    (pageWalkingLatency b) id (lowModule b) (cuckooFilterCapacity b).

Definition WithLowModule (b : Builder) (p : Endpoint) : Builder :=
  mkBuilder (log2PageSize b) (b_pageTable b) (maxNumReqInFlight b)
    (pageWalkingLatency b) (b_deviceID b) p (cuckooFilterCapacity b).

Definition WithCuckooFilterCapacity (b : Builder) (capacity : Z) : Builder :=
  mkBuilder (log2PageSize b) (b_pageTable b) (maxNumReqInFlight b)
    (pageWalkingLatency b) (b_deviceID b) (lowModule b) capacity.

(** [Build], with [configureInternalStates], [createPageTable] and
    [createPorts]; [idgen] is the value of the process-wide id generator
    when the component is built. *)
Definition Build (name : string) (idgen : N) (b : Builder) : Comp :=
  let maxNum := if maxNumReqInFlight b =? 0 then 16 else maxNumReqInFlight b in
  let lat := if pageWalkingLatency b =? 0 then 10 else pageWalkingLatency b in
  let cap :=
    if cuckooFilterCapacity b =? 0 then 1000000 else cuckooFilterCapacity b in
  mkComp (b_deviceID b)
    (mkPort (name +:+ ".ToTop") [] [] 4096)
    (mkPort (name +:+ ".BottomPort") [] [] 4096)
    (lowModule b)
    (mkSender [] 4096)
    (match b_pageTable b with
     | Some pt => pt
     | None => NewPageTable (log2PageSize b)
     end)
    lat maxNum [] ∅ [] (NewFilter cap) idgen.

End Pipeline.

Arguments Comp PT F : clear implicits.
Arguments Builder PT : clear implicits.

End gmmu.

(** * Package [tlb]: ring_noc.go *)

Module tlb.

(** ** The L1-TLB cache the ring code builds on *)

(** Modelled from the spec: a [Set] of the set-associative cache, whose
    implementation is not part of ring_noc.go.  Each way holds at most one
    page, identified by (PID, VAddr); [Evict] hands out the least recently
    visited way and fails only when there is none; [Visit] makes a way the
    most recent one. *)
Record CacheSet : Type := mkSet {
  ways : list (option Page);
  visitList : list nat
}.

Fixpoint lookupFrom (wayID : nat) (ws : list (option Page)) (pid vAddr : Z)
    : nat * Page * bool :=
  match ws with
  | [] => (O, zeroPage, false)
  | Some p :: rest =>
      if (Page_PID p =? pid) && (Page_VAddr p =? vAddr)
      then (wayID, p, true)
      else lookupFrom (S wayID) rest pid vAddr
  | None :: rest => lookupFrom (S wayID) rest pid vAddr
  end.

Definition Set_Lookup (s : CacheSet) (pid vAddr : Z) : nat * Page * bool :=
  lookupFrom 0 (ways s) pid vAddr.

Definition Set_Update (s : CacheSet) (wayID : nat) (p : Page) : CacheSet :=
  mkSet (<[wayID := Some p]> (ways s)) (visitList s).

Definition Set_Visit (s : CacheSet) (wayID : nat) : CacheSet :=
  mkSet (ways s)
    (List.filter (fun w => negb (w =? wayID)%nat) (visitList s) ++ [wayID]).

Definition Set_Evict (s : CacheSet) : nat * bool * CacheSet :=
  match visitList s with
  | [] => (O, false, s)
  | wayID :: rest => (wayID, true, mkSet (ways s) rest)
  end.

(** Modelled from the spec: the MSHR, a mapping (PID, VAddr) to an entry
    with the ordered list of waiting client requests and the optional
    outstanding request to the layer below.  Entries are shared objects:
    writing [reqToBottom] updates the entry stored in the map. *)
Record mshrEntry : Type := mkEntry {
  Requests : list TranslationReq;
  reqToBottom : option TranslationReq
}.

Definition MSHR_Query (m : gmap (Z * Z) mshrEntry) (pid vAddr : Z)
    : option mshrEntry := m !! (pid, vAddr).

Definition MSHR_GetEntry (m : gmap (Z * Z) mshrEntry) (pid vAddr : Z)
    : option mshrEntry := m !! (pid, vAddr).

Definition MSHR_Remove (m : gmap (Z * Z) mshrEntry) (pid vAddr : Z)
    : gmap (Z * Z) mshrEntry := delete (pid, vAddr) m.

(** Modelled from the spec: the part of the embedded [*TLB] that the ring
    code reaches: its two ports, the low module, the sets, the MSHR, and the
    geometry [vAddrToSetID] derives the set index from. *)
Record TLB : Type := mkTLB {
  topPort : Port;
  bottomPort : Port;
  LowModule : Endpoint;
  Sets : list CacheSet;
  mshr : gmap (Z * Z) mshrEntry;
  pageSize : Z;
  numSets : Z
}.

(** ** ring_noc.go: state *)

(** [L1TLB]; the [Ring] back-pointer is the ring state the methods are
    applied to, and an [*L1TLB] is the index of its slot in [TLBs]. *)
Record L1TLB : Type := mkL1TLB {
  base : TLB;
  L1_ID : Z;
  PrefetchBuffer : list Page;
  ProbeQueue : list ProbeRequest
}.

(** Modelled from the spec: the ring connection is a one-cycle switched
    transport; [conn] holds the messages handed to it by [conn.Send]. *)
Record RingNoC : Type := mkRing {
  TLBs : list L1TLB;
  NumTLBs : Z;
  SEID : Z;
  currentTime : VTimeInSec;
  conn : list Msg;
  idGenerator : N
}.

Definition with_TLBs (ring : RingNoC) (l : list L1TLB) : RingNoC :=
  mkRing l (NumTLBs ring) (SEID ring) (currentTime ring) (conn ring)
    (idGenerator ring).

Definition with_conn (ring : RingNoC) (c : list Msg) : RingNoC :=
  mkRing (TLBs ring) (NumTLBs ring) (SEID ring) (currentTime ring) c
    (idGenerator ring).

Definition with_idGenerator (ring : RingNoC) (n : N) : RingNoC :=
  mkRing (TLBs ring) (NumTLBs ring) (SEID ring) (currentTime ring)
    (conn ring) n.

Definition conn_Send (ring : RingNoC) (m : Msg) : RingNoC :=
  with_conn ring (conn ring ++ [m]).

Definition with_base (t : L1TLB) (b : TLB) : L1TLB :=
  mkL1TLB b (L1_ID t) (PrefetchBuffer t) (ProbeQueue t).

Definition with_ProbeQueue (t : L1TLB) (q : list ProbeRequest) : L1TLB :=
  mkL1TLB (base t) (L1_ID t) (PrefetchBuffer t) q.

Definition with_bottomPort (b : TLB) (p : Port) : TLB :=
  mkTLB (topPort b) p (LowModule b) (Sets b) (mshr b) (pageSize b) (numSets b).

Definition with_topPort (b : TLB) (p : Port) : TLB :=
  mkTLB p (bottomPort b) (LowModule b) (Sets b) (mshr b) (pageSize b)
    (numSets b).

Definition with_mshr (b : TLB) (m : gmap (Z * Z) mshrEntry) : TLB :=
  mkTLB (topPort b) (bottomPort b) (LowModule b) (Sets b) m (pageSize b)
    (numSets b).

Definition with_Sets (b : TLB) (s : list CacheSet) : TLB :=
  mkTLB (topPort b) (bottomPort b) (LowModule b) s (mshr b) (pageSize b)
    (numSets b).

(** Go slice indexing [l[i]] with an [int] index: out of range panics. *)
Definition index {A : Type} (l : list A) (i : Z) : result (nat * A) :=
  if i <? 0 then Panic index_out_of_range
  else match l !! Z.to_nat i with
       | Some a => Ok (Z.to_nat i, a)
       | None => Panic index_out_of_range
       end.

(** Go's [%] on [int]: truncated remainder, panicking on a zero divisor. *)
Definition goRem (a b : Z) : result Z :=
  if b =? 0 then Panic "runtime error: integer divide by zero"
  else Ok (Z.rem a b).

(** Modelled from the spec: [vAddrToSetID], the set index derived from the
    virtual address (page number modulo the number of sets). *)
Definition vAddrToSetID (b : TLB) (vAddr : Z) : result Z :=
  if pageSize b =? 0 then Panic "runtime error: integer divide by zero"
  else goRem (vAddr / pageSize b) (numSets b).

(** [NewRingNoC]: sixteen L1-TLBs, each wrapping what the builder builds,
    with a 24-entry prefetch buffer of zero pages and an empty probe queue
    (of initial capacity 16). *)
Definition NewRingNoC (seID : Z) (now : VTimeInSec) (idgen : N)
    (build : nat -> TLB) : RingNoC :=
  mkRing
    (map (fun i => mkL1TLB (build i) (Z.of_nat i) (replicate 24 zeroPage) [])
       (seq 0 16))
    16 seID now [] idgen.

(** ** [GetNextTLB] *)

(** The returned pointer is the slot index; [None] is Go's nil. *)
Definition GetNextTLB (ring : RingNoC) (currentTLBID : Z) (direction : string)
    : result (option nat) :=
  if String.eqb direction "clockwise" then
    nextID ← goRem (currentTLBID + 1) (NumTLBs ring);
    '(slot, _) ← index (TLBs ring) nextID;
    Ok (Some slot)
  else if String.eqb direction "counterclockwise" then
    nextID ← goRem (currentTLBID - 1 + NumTLBs ring) (NumTLBs ring);
    '(slot, _) ← index (TLBs ring) nextID;
    Ok (Some slot)
  else Ok None.

(** ** [NotifyMiss] *)

(** The loop over [mshrEntry.Requests]: one request to the low module per
    waiting request; each accepted send overwrites [reqToBottom]. *)
Fixpoint notifyLoop (now : VTimeInSec) (low : Endpoint) (virtualAddr : Z)
    (reqs : list TranslationReq) (port : Port)
    (toBottom : option TranslationReq) (idgen : N)
    : Port * option TranslationReq * N :=
  match reqs with
  | [] => (port, toBottom, idgen)
  | r :: rest =>
      let '(fetchReq, idgen') :=
        buildTranslationReq idgen now (endpointOf port) low
          (Req_PID r) virtualAddr (Req_DeviceID r) in
      match Port_Send port (MTranslationReq fetchReq) with
      | Some port' =>
          notifyLoop now low virtualAddr rest port' (Some fetchReq) idgen'
      | None => notifyLoop now low virtualAddr rest port toBottom idgen'
      end
  end.

(** [NotifyMiss] on one L1-TLB; the MSHR is queried with PID 0. *)
Definition NotifyMiss_at (now : VTimeInSec) (idgen : N) (t : L1TLB)
    (virtualAddr : Z) : L1TLB * N :=
  match MSHR_Query (mshr (base t)) 0 virtualAddr with
  | None => (t, idgen)
  | Some entry =>
      let '(port', toBottom', idgen') :=
        notifyLoop now (LowModule (base t)) virtualAddr (Requests entry)
          (bottomPort (base t)) (reqToBottom entry) idgen in
      let entry' := mkEntry (Requests entry) toBottom' in
      (with_base t
         (with_mshr (with_bottomPort (base t) port')
            (<[(0, virtualAddr) := entry']> (mshr (base t)))),
       idgen')
  end.

(** [tlb.NotifyMiss(virtualAddr)] for the L1-TLB in slot [self]. *)
Definition NotifyMiss (ring : RingNoC) (self : nat) (virtualAddr : Z)
    : result RingNoC :=
  match TLBs ring !! self with
  | None => Panic nil_dereference
  | Some t =>
      let '(t', idgen') :=
        NotifyMiss_at (currentTime ring) (idGenerator ring) t virtualAddr in
      Ok (with_idGenerator (with_TLBs ring (<[self := t']> (TLBs ring)))
            idgen')
  end.

(** ** [InitiateProbing] *)

Definition InitiateProbing (ring : RingNoC) (self : nat) (virtualAddr : Z)
    : result RingNoC :=
  match TLBs ring !! self with
  | None => Panic nil_dereference
  | Some t =>
      let me := TLBNode (SEID ring) (Z.of_nat self) in
      let '(id1, idgen1) := Generate (idGenerator ring) in
      let clockwiseReq :=
        mkProbeRequest
          (mkMeta id1 me NoEndpoint (currentTime ring) 0 0 64)
          0 virtualAddr 15 "clockwise" (L1_ID t) (SEID ring) in
      let '(id2, idgen2) := Generate idgen1 in
      let counterclockwiseReq :=
        mkProbeRequest
          (mkMeta id2 me NoEndpoint (currentTime ring) 0 0 64)
          0 virtualAddr 4 "counterclockwise" (L1_ID t) (SEID ring) in
      let t' := with_ProbeQueue t
                  (ProbeQueue t ++ [clockwiseReq; counterclockwiseReq]) in
      Ok (with_idGenerator (with_TLBs ring (<[self := t']> (TLBs ring)))
            idgen2)
  end.

(** ** [SendProbeRequest] *)

Definition SendProbeRequest (ring : RingNoC) (self : nat) (r : ProbeRequest)
    : result RingNoC :=
  match TLBs ring !! self with
  | None => Panic nil_dereference
  | Some t =>
      nextTLB ← GetNextTLB ring (L1_ID t) (Direction r);
      let notify :=
        '(source, _) ← index (TLBs ring) (SourceTLB r);
        NotifyMiss ring source (VirtualAddr r) in
      match nextTLB with
      | Some next =>
          if 0 <? TTL r then
            let m := PReq_Meta r in
            let r' :=
              mkProbeRequest
                (mkMeta (ID m) (TLBNode (SEID ring) (Z.of_nat self))
                   (TLBNode (SEID ring) (Z.of_nat next))
                   (currentTime ring) (RecvTime m) (TrafficClass m) 64)
                (PReq_PID r) (VirtualAddr r) (TTL r - 1) (Direction r)
                (SourceTLB r) (PReq_SEID r) in
            Ok (conn_Send ring (MProbeRequest r'))
          else notify
      | None => notify
      end
  end.

(** ** [ReceiveProbeRequest] *)

(** The [ProbeResponse] both hit branches build and hand to the connection;
    [Dst] is [tlb.Ring.TLBs[req.SourceTLB]]. *)
Definition sendProbeResponse (ring : RingNoC) (self : nat) (r : ProbeRequest)
    (now : VTimeInSec) (pg : Page) : result RingNoC :=
  let '(id, idgen') := Generate (idGenerator ring) in
  '(source, _) ← index (TLBs ring) (SourceTLB r);
  let rsp :=
    mkProbeResponse
      (mkMeta id (TLBNode (SEID ring) (Z.of_nat self))
         (TLBNode (SEID ring) (Z.of_nat source)) now 0 0 128)
      (VirtualAddr r) (Some pg) (SourceTLB r) (PReq_SEID r) in
  Ok (conn_Send (with_idGenerator ring idgen') (MProbeResponse rsp)).

(** The linear scan of the prefetch buffer. *)
Fixpoint scanPrefetch (buf : list Page) (pid vAddr : Z) : option Page :=
  match buf with
  | [] => None
  | p :: rest =>
      if (Page_PID p =? pid) && (Page_VAddr p =? vAddr) && Page_Valid p
      then Some p
      else scanPrefetch rest pid vAddr
  end.

Definition ReceiveProbeRequest (ring : RingNoC) (self : nat)
    (r : ProbeRequest) (now : VTimeInSec) : result RingNoC :=
  match TLBs ring !! self with
  | None => Panic nil_dereference
  | Some t =>
      setID ← vAddrToSetID (base t) (VirtualAddr r);
      '(_, set) ← index (Sets (base t)) setID;
      let '(_, pg, found) := Set_Lookup set (PReq_PID r) (VirtualAddr r) in
      if found && Page_Valid pg
      then sendProbeResponse ring self r now pg
      else
        match scanPrefetch (PrefetchBuffer t) (PReq_PID r) (VirtualAddr r) with
        | Some p => sendProbeResponse ring self r now p
        | None =>
            let t' := with_ProbeQueue t (ProbeQueue t ++ [r]) in
            Ok (with_TLBs ring (<[self := t']> (TLBs ring)))
        end
  end.

(** ** [ReceiveProbeResponse] *)

(** The loop over the MSHR entry's requests: one [TranslationRsp] per
    waiting request, answering that request's id; a refused send is not
    retried. *)
Fixpoint respondLoop (now : VTimeInSec) (pg : Page)
    (reqs : list TranslationReq) (port : Port) (idgen : N) : Port * N :=
  match reqs with
  | [] => (port, idgen)
  | r :: rest =>
      let '(translationRsp, idgen') :=
        buildTranslationRsp idgen now (endpointOf port) (Src (Req_Meta r))
          (ID (Req_Meta r)) pg in
      match Port_Send port (MTranslationRsp translationRsp) with
      | Some port' => respondLoop now pg rest port' idgen'
      | None => respondLoop now pg rest port idgen'
      end
  end.

Definition ReceiveProbeResponse (ring : RingNoC) (self : nat)
    (rsp : ProbeResponse) (now : VTimeInSec) : result RingNoC :=
  match TLBs ring !! self with
  | None => Panic nil_dereference
  | Some t =>
      let hit := match PRsp_Page rsp with
                 | Some pg => if Page_Valid pg then Some pg else None
                 | None => None
                 end in
      match hit with
      | Some pg =>
          setID ← vAddrToSetID (base t) (PRsp_VirtualAddr rsp);
          '(slot, set) ← index (Sets (base t)) setID;
          let '(wayID, ok, set) := Set_Evict set in
          if negb ok then Panic "failed to evict"
          else
            let set := Set_Visit (Set_Update set wayID pg) wayID in
            let b := with_Sets (base t) (<[slot := set]> (Sets (base t))) in
            let '(b, idgen') :=
              match MSHR_GetEntry (mshr b) (Page_PID pg)
                      (PRsp_VirtualAddr rsp) with
              | Some mshrEntry =>
                  let '(port', idgen') :=
                    respondLoop now pg (Requests mshrEntry) (topPort b)
                      (idGenerator ring) in
                  (with_mshr (with_topPort b port')
                     (MSHR_Remove (mshr b) (Page_PID pg)
                        (PRsp_VirtualAddr rsp)),
                   idgen')
              | None => (b, idGenerator ring)
              end in
            Ok (with_idGenerator
                  (with_TLBs ring (<[self := with_base t b]> (TLBs ring)))
                  idgen')
      | None => NotifyMiss ring self (PRsp_VirtualAddr rsp)
      end
  end.

(** ** [DeliverMessage] *)

Definition DeliverMessage (ring : RingNoC) (msg : Msg) (now : VTimeInSec)
    : result (RingNoC * bool) :=
  match msg with
  | MProbeRequest r =>
      let m := PReq_Meta r in
      let r := mkProbeRequest
                 (mkMeta (ID m) (Src m) (Dst m) (SendTime m) now
                    (TrafficClass m) (TrafficBytes m))
                 (PReq_PID r) (VirtualAddr r) (TTL r) (Direction r)
                 (SourceTLB r) (PReq_SEID r) in
      '(slot, _) ← index (TLBs ring) (SourceTLB r);
      ring' ← ReceiveProbeRequest ring slot r now;
      Ok (ring', true)
  | MProbeResponse rsp =>
      let m := PRsp_Meta rsp in
      let rsp := mkProbeResponse
                   (mkMeta (ID m) (Src m) (Dst m) (SendTime m) now
                      (TrafficClass m) (TrafficBytes m))
                   (PRsp_VirtualAddr rsp) (PRsp_Page rsp)
                   (PRsp_SourceTLB rsp) (PRsp_SEID rsp) in
      '(slot, _) ← index (TLBs ring) (PRsp_SourceTLB rsp);
      ring' ← ReceiveProbeResponse ring slot rsp now;
      Ok (ring', true)
  | _ => Ok (ring, false)
  end.

(** ** [Cycle] *)

Section Cycle.

(** [ring.conn.Cycle(now)]: the step of the ring connection, which belongs to
    the NoC transport and is a parameter here. *)
Variable connCycle : RingNoC -> VTimeInSec -> result RingNoC.

(** The loop of [Cycle] over the slots [idxs]: a TLB with a non-empty probe
    queue gives up the head of its queue, which is sent on. *)
Fixpoint drainProbes (idxs : list nat) (ring : RingNoC) (madeProgress : bool)
    : result (RingNoC * bool) :=
  match idxs with
  | [] => Ok (ring, madeProgress)
  | i :: rest =>
      match TLBs ring !! i with
      | None => Panic nil_dereference
      | Some t =>
          match ProbeQueue t with
          | [] => drainProbes rest ring madeProgress
          | r :: queue =>
              let ring :=
                with_TLBs ring
                  (<[i := with_ProbeQueue t queue]> (TLBs ring)) in
              ring ← SendProbeRequest ring i r;
              drainProbes rest ring true
          end
      end
  end.

Definition Cycle (ring : RingNoC) (now : VTimeInSec)
    : result (RingNoC * bool) :=
  '(ring, madeProgress) ←
    drainProbes (seq 0 (length (TLBs ring))) ring false;
  ring ← connCycle ring now;
  Ok (ring, madeProgress).

End Cycle.

End tlb.

(** * Concrete collaborators and sample states

    The pipeline is stated over any page table and any filter; the instances
    below are the ones the theorems are run on. *)

Module Sample.

(** Modelled from the spec: a page table keyed by (PID, VAddr), behaving as
    the table of the [vm] package does: [Find] gives the zero page and false
    for a page it does not hold, and [Update] replaces a page it holds and
    panics for one it does not. *)
#[global] Instance mapPageTable : gmmu.PageTableOps (gmap (Z * Z) Page) := {|
  gmmu.NewPageTable := fun _ => ∅;
  gmmu.PT_Find := fun pt pid vAddr =>
    match pt !! (pid, vAddr) with
    | Some p => (p, true)
    | None => (zeroPage, false)
    end;
  gmmu.PT_Update := fun pt p =>
    match pt !! (Page_PID p, Page_VAddr p) with
    | Some _ => Ok (<[(Page_PID p, Page_VAddr p) := p]> pt)
    | None => Panic "page does not exist"
    end
|}.

(** The page table holding just the page [p]. *)
Definition tableOf (p : Page) : gmap (Z * Z) Page :=
  <[(Page_PID p, Page_VAddr p) := p]> ∅.

Fixpoint key_eqb (a b : list Byte.byte) : bool :=
  match a, b with
  | [], [] => true
  | x :: a', y :: b' => Byte.eqb x y && key_eqb a' b'
  | _, _ => false
  end.

(** An exact filter that rejects inserts once [room] keys are stored. *)
Record boundedFilter : Type := mkFilter {
  members : list (list Byte.byte);
  room : nat
}.

#[global] Instance boundedFilterOps : gmmu.FilterOps boundedFilter := {|
  gmmu.NewFilter := fun capacity => mkFilter [] (Z.to_nat capacity);
  gmmu.Filter_Lookup := fun f k => existsb (key_eqb k) (members f);
  gmmu.Filter_Insert := fun f k =>
    if (length (members f) <? room f)%nat
    then (mkFilter (k :: members f) (room f), true)
    else (f, false);
  gmmu.Filter_Reset := fun f => mkFilter [] (room f)
|}.

Definition client : Endpoint := PortNamed "L1VTLB.BottomPort".

(** A client request for (PID 0, VAddr 0x1000) with message id 7. *)
Definition req7 : TranslationReq :=
  mkTranslationReq (mkMeta 7 client (PortNamed "GMMU.ToTop") 0 0 0 0)
    0 4096 1.

Definition localPage : Page := mkPage 0 4096 8192 1 true.
Definition remotePage : Page := mkPage 0 4096 8192 2 true.

(** A GMMU of device 1 built with the defaults, to be filled in below. *)
Definition gmmu0 : gmmu.Comp (gmap (Z * Z) Page) boundedFilter :=
  gmmu.Build "GMMU" 100
    (gmmu.mkBuilder 12 None 16 10 1 (PortNamed "Low") 64).

(** The same GMMU holding the local page in its page table and filter, with
    [req7] waiting on the top port. *)
Definition gmmuFast : gmmu.Comp (gmap (Z * Z) Page) boundedFilter :=
  gmmu.with_topPort
    (gmmu.with_cuckooFilter
       (gmmu.with_pageTable gmmu0 (tableOf localPage))
       (fst (gmmu.Filter_Insert (gmmu.cuckooFilter gmmu0)
               (gmmu.encodeVAddrPID 4096 0))))
    (mkPort "GMMU.ToTop" [MTranslationReq req7] [] 4096).

(** The freshly built GMMU after [req7] has arrived on its top port, and
    one tick later (the filter is empty, so a walk is started). *)
Definition gmmuArrived : gmmu.Comp (gmap (Z * Z) Page) boundedFilter :=
  gmmu.with_topPort gmmu0 (mkPort "GMMU.ToTop" [MTranslationReq req7] [] 4096).

Definition gmmuAfterTick : gmmu.Comp (gmap (Z * Z) Page) boundedFilter :=
  match gmmu.Tick 1 gmmuArrived with
  | Ok (g, _) => g
  | Panic _ => gmmuArrived
  end.



(** A builder given a negative budget, and the GMMU it builds. *)
Definition negativeBuilder : gmmu.Builder (gmap (Z * Z) Page) :=
  gmmu.WithMaxNumReqInFlight gmmu.MakeBuilder (-3).

Definition gmmuNegative : gmmu.Comp (gmap (Z * Z) Page) boundedFilter :=
  gmmu.Build "GMMU" 100 negativeBuilder.

(** A top sender with no free slot. *)
Definition fullSender : BufferedSender :=
  mkSender [MOther "*sim.GeneralRsp" (mkMeta 1 NoEndpoint client 0 0 0 0)] 1.

(** A GMMU whose only walking transaction, for [req7], has finished its
    latency; the page is local and the top sender is full. *)
Definition gmmuWalked : gmmu.Comp (gmap (Z * Z) Page) boundedFilter :=
  gmmu.with_topSender
    (gmmu.with_walkingTranslations
       (gmmu.with_pageTable gmmu0 (tableOf localPage))
       [gmmu.mkTransaction (Some req7) zeroPage 0])
    fullSender.

(** A GMMU that has escalated [req7] to the low module. *)
Definition gmmuRemote : gmmu.Comp (gmap (Z * Z) Page) boundedFilter :=
  gmmu.with_remoteMemReqs
    (gmmu.with_pageTable gmmu0 (tableOf remotePage))
    {[ 4096 := gmmu.mkTransaction (Some req7) zeroPage 0 ]}.

(** The low module's answer to the escalated request: message id 99. *)
Definition lowRsp : TranslationRsp :=
  mkTranslationRsp
    (mkMeta 99 (PortNamed "Low") (PortNamed "GMMU.BottomPort") 0 0 0 0)
    55 localPage.

(** What the L1-TLB builder builds in the samples: one set of four empty
    ways, an empty MSHR, ports accepting four messages, 4 KiB pages. *)
Definition sampleTLB (i : nat) : tlb.TLB :=
  tlb.mkTLB (mkPort "L1VTLB.TopPort" [] [] 4)
    (mkPort "L1VTLB.BottomPort" [] [] 4) (PortNamed "L2TLB.TopPort")
    [tlb.mkSet (replicate 4 None) [0; 1; 2; 3]%nat] ∅ 4096 1.

(** A fresh ring for shader engine 0. *)
Definition ring0 : tlb.RingNoC := tlb.NewRingNoC 0 1 0 sampleTLB.

(** The ring after a client request missed in TLB 0: the MSHR holds the
    request under (PID 0, VAddr 0x1000), nothing is escalated yet. *)
Definition ringMiss : tlb.RingNoC :=
  tlb.with_TLBs ring0
    (<[0%nat :=
         tlb.mkL1TLB
           (tlb.with_mshr (sampleTLB 0)
              {[ (0, 4096) := tlb.mkEntry [req7] None ]})
           0 (replicate 24 zeroPage) []]> (tlb.TLBs ring0)).

(** [n] misses in a row at the same L1-TLB, each starting a probe. *)
Fixpoint initiateMany (n : nat) (ring : tlb.RingNoC) (self : nat)
    (vAddr : Z) : result tlb.RingNoC :=
  match n with
  | O => Ok ring
  | S n' =>
      ring' ← tlb.InitiateProbing ring self vAddr;
      initiateMany n' ring' self (vAddr + 4096)
  end.

(** A probe from TLB 3 that has reached TLB 5 clockwise. *)
Definition probeCW (ttl : Z) : ProbeRequest :=
  mkProbeRequest (mkMeta 11 (TLBNode 0 4) (TLBNode 0 5) 1 1 0 64)
    0 4096 ttl "clockwise" 3 0.

(** TLB 0 after its miss was escalated once: the MSHR entry has its
    [reqToBottom] set and the bottom port has sent one request. *)
Definition fetch7 : TranslationReq :=
  mkTranslationReq
    (mkMeta 0 (PortNamed "L1VTLB.BottomPort") (PortNamed "L2TLB.TopPort")
       1 0 0 0)
    0 4096 1.

Definition tlbEscalated : tlb.L1TLB :=
  tlb.mkL1TLB
    (tlb.with_bottomPort
       (tlb.with_mshr (sampleTLB 0)
          {[ (0, 4096) := tlb.mkEntry [req7] (Some fetch7) ]})
       (mkPort "L1VTLB.BottomPort" [] [MTranslationReq fetch7] 4))
    0 (replicate 24 zeroPage) [].

(** A message of a type no component of the design handles. *)
Definition strayMsg : Msg :=
  MOther "*sim.GeneralRsp" (mkMeta 12 NoEndpoint NoEndpoint 0 0 0 0).

(** A GMMU whose only walking transaction has three cycles left. *)
Definition gmmuCounting : gmmu.Comp (gmap (Z * Z) Page) boundedFilter :=
  gmmu.with_walkingTranslations gmmu0
    [gmmu.mkTransaction (Some req7) zeroPage 3].

(** A GMMU whose only walking transaction has finished its latency, for a
    page that device 2 owns. *)
Definition gmmuEscalating : gmmu.Comp (gmap (Z * Z) Page) boundedFilter :=
  gmmu.with_walkingTranslations
    (gmmu.with_pageTable gmmu0 (tableOf remotePage))
    [gmmu.mkTransaction (Some req7) zeroPage 0].

(** [gmmuRemote] after the low module's answer, and then with the same
    client request arriving again. *)
Definition gmmuAnswered : gmmu.Comp (gmap (Z * Z) Page) boundedFilter :=
  match gmmu.handleTranslationRsp 5 gmmuRemote lowRsp with
  | Ok (g, _) => g
  | Panic _ => gmmuRemote
  end.

Definition gmmuAgain : gmmu.Comp (gmap (Z * Z) Page) boundedFilter :=
  gmmu.with_topPort gmmuAnswered
    (mkPort "GMMU.ToTop" [MTranslationReq req7] [] 4096).

(** The ring after a request of process 3 missed in TLB 0: the MSHR holds
    it under (PID 3, VAddr 0x1000). *)
Definition req8 : TranslationReq :=
  mkTranslationReq (mkMeta 8 client (PortNamed "L1VTLB.TopPort") 0 0 0 0)
    3 4096 1.

Definition ringMissPID3 : tlb.RingNoC :=
  tlb.with_TLBs ring0
    (<[0%nat :=
         tlb.mkL1TLB
           (tlb.with_mshr (sampleTLB 0)
              {[ (3, 4096) := tlb.mkEntry [req8] None ]})
           0 (replicate 24 zeroPage) []]> (tlb.TLBs ring0)).

(** A probe whose direction is neither of the two ring directions. *)
Definition probeAstray : ProbeRequest :=
  mkProbeRequest (mkMeta 13 (TLBNode 0 4) (TLBNode 0 5) 1 1 0 64)
    0 4096 9 "anticlockwise" 3 0.

(** A ring connection that delivers nothing. *)
Definition idleConn (ring : tlb.RingNoC) (now : VTimeInSec)
    : result tlb.RingNoC := Ok ring.

(** [ring0] after TLB 2 started probing for 0x1000. *)
Definition ringProbing : tlb.RingNoC :=
  match tlb.InitiateProbing ring0 2 4096 with
  | Ok ring => ring
  | Panic _ => ring0
  end.

(** A probe naming a slot the ring does not have as its originator. *)
Definition probeLost : ProbeRequest :=
  mkProbeRequest (mkMeta 14 (TLBNode 0 4) (TLBNode 0 5) 1 1 0 64)
    0 4096 9 "clockwise" 16 0.

(** The probe response a neighbour sends to TLB 0 for the miss of
    [ringMiss]. *)
Definition probeHit : ProbeResponse :=
  mkProbeResponse (mkMeta 15 (TLBNode 0 1) (TLBNode 0 0) 2 0 0 128)
    4096 (Some (mkPage 0 4096 8192 1 true)) 0 0.

End Sample.

(** * Notions the properties are stated with *)

Module GmmuProps.
Import gmmu.

Section Pipeline.

Context {PT F : Type} `{PageTableOps PT} `{FilterOps F}.

Implicit Types (g : Comp PT F) (now : VTimeInSec).

(** The response a path of the pipeline queues for request [r]. *)
Definition rspFor now g (dst : Endpoint) (rspTo : N) (pg : Page) : Msg :=
  MTranslationRsp
    (mkTranslationRsp
       (mkMeta (idGenerator g) (endpointOf (topPort g)) dst now 0 0 0)
       rspTo pg).

(** The filter after the insert of [handleTranslationRsp]: on a failed
    insert the filter is reset and the insert is tried once more. *)
Definition insertWithRetry (f : F) (key : list Byte.byte) : F :=
  let '(f1, inserted) := Filter_Insert f key in
  if inserted then f1 else fst (Filter_Insert (Filter_Reset f1) key).

(** What a run of the loop over the indices [idxs] leaves alone. *)
Record loopFrame (idxs : list nat) g g' : Prop := {
  frame_length :
    length (walkingTranslations g') = length (walkingTranslations g);
  frame_other : forall k,
    k ∉ idxs -> walkingTranslations g' !! k = walkingTranslations g !! k;
  frame_req : forall k t,
    walkingTranslations g !! k = Some t ->
    exists t', walkingTranslations g' !! k = Some t' /\ req t' = req t;
  frame_pageTable : pageTable g' = pageTable g;
  frame_deviceID : deviceID g' = deviceID g;
  frame_max : maxRequestsInFlight g' = maxRequestsInFlight g;
  frame_latency : latency g' = latency g;
  frame_topPort : topPort g' = topPort g;
  frame_scap : scap (topSender g') = scap (topSender g);
  frame_sbuf : exists extra,
    sbuf (topSender g') = sbuf (topSender g) ++ extra;
  frame_toRemove : forall k,
    k ∉ idxs ->
    toRemove (toRemoveFromPTW g') k = toRemove (toRemoveFromPTW g) k;
  frame_remote : forall k t,
    remoteMemReqs g' !! k = Some t ->
    remoteMemReqs g !! k = Some t \/ req t <> None
}.

(** Every walking transaction holds its request (they are all made by
    [startWalking]). *)
Definition reqsPresent g : Prop :=
  forall k t, walkingTranslations g !! k = Some t -> req t <> None.

(** Every transaction recorded for the low module holds its request. *)
Definition remotePresent g : Prop :=
  forall k t, remoteMemReqs g !! k = Some t -> req t <> None.

(** Between two ticks the removal list is empty and every transaction, in
    the walking list or recorded for the low module, holds its request. *)
Definition betweenTicks g : Prop :=
  toRemoveFromPTW g = [] /\ reqsPresent g /\ remotePresent g.

(** The bound of the design: the walking list is within the budget. *)
Definition withinBudget g : Prop :=
  Z.of_nat (length (walkingTranslations g)) <= maxRequestsInFlight g.

(** What the rest of the simulation may do to a GMMU between two ticks:
    deliver to and drain its ports, use the shared page table and filter,
    draw message ids.  The fields below are the component's own. *)
Record envStep g g' : Prop := {
  env_deviceID : deviceID g' = deviceID g;
  env_topSender : topSender g' = topSender g;
  env_latency : latency g' = latency g;
  env_max : maxRequestsInFlight g' = maxRequestsInFlight g;
  env_walking : walkingTranslations g' = walkingTranslations g;
  env_remote : remoteMemReqs g' = remoteMemReqs g;
  env_toRemove : toRemoveFromPTW g' = toRemoveFromPTW g
}.

(** The states of a GMMU built by [Build name idgen b]. *)
Inductive reachable (name : string) (idgen : N) (b : Builder PT)
    : Comp PT F -> Prop :=
| reach_Build : reachable name idgen b (Build name idgen b)
| reach_Tick g now g' progress :
    reachable name idgen b g ->
    Tick now g = Ok (g', progress) ->
    reachable name idgen b g'
| reach_env g g' :
    reachable name idgen b g -> envStep g g' -> reachable name idgen b g'.

End Pipeline.

End GmmuProps.

Module RingProps.
Import tlb.

Implicit Types (ring : RingNoC) (t : L1TLB) (r : ProbeRequest).

(** A message is a request for [vAddr] addressed to [low]. *)
Definition escalationFor (low : Endpoint) (vAddr : Z) (m : Msg) : Prop :=
  exists f, m = MTranslationReq f /\ Req_VAddr f = vAddr
            /\ Dst (Req_Meta f) = low.

(** The ring as [NewRingNoC] builds it: sixteen slots, each L1-TLB carrying
    the number of its slot as its id. *)
Record ringWellFormed ring : Prop := {
  wf_NumTLBs : NumTLBs ring = 16;
  wf_length : length (TLBs ring) = 16%nat;
  wf_ID : forall k t, TLBs ring !! k = Some t -> L1_ID t = Z.of_nat k
}.

(** The neighbour the design names: (id+1) mod 16 clockwise, (id-1+16) mod 16
    counterclockwise. *)
Definition nextHop (id : Z) (direction : string) : Z :=
  if String.eqb direction "clockwise" then (id + 1) mod 16
  else (id - 1 + 16) mod 16.

(** A response to the client request [q] carrying [pg]. *)
Definition answers (reqs : list TranslationReq) (pg : Page) (m : Msg) : Prop :=
  exists rsp q,
    m = MTranslationRsp rsp /\ q ∈ reqs
    /\ RspTo rsp = ID (Req_Meta q)
    /\ Dst (Rsp_Meta rsp) = Src (Req_Meta q)
    /\ Rsp_Page rsp = pg.

End RingProps.

(** ** Notions for the further properties *)

Module MoreProps.
Import gmmu.

(** Reading a little-endian byte string back. *)
Fixpoint getLittleEndian (bs : list Byte.byte) : Z :=
  match bs with
  | [] => 0
  | b :: rest => Z.of_N (Byte.to_N b) + 256 * getLittleEndian rest
  end.

(** The inverse of [encodeVAddrPID]: the first eight bytes are the virtual
    address, the rest the PID. *)
Definition decodeVAddrPID (key : list Byte.byte) : Z * Z :=
  (getLittleEndian (take 8 key), getLittleEndian (drop 8 key)).

(** One cycle less to wait. *)
Definition countDown (t : transaction) : transaction :=
  mkTransaction (req t) (page t) (cycleLeft t - 1).

Section Pipeline.

Context {PT F : Type} `{PageTableOps PT} `{FilterOps F}.

Implicit Types (g : Comp PT F) (now : VTimeInSec).

(** What the vm package promises of a page table: a page just written is
    found under its own (PID, VAddr). *)
Definition findsUpdated : Prop :=
  forall (pt pt' : PT) (p : Page),
    PT_Update pt p = Ok pt' ->
    PT_Find pt' (Page_PID p) (Page_VAddr p) = (p, true).

(** What the filter promises: a key whose insert succeeded is reported. *)
Definition reportsInserted : Prop :=
  forall (f f' : F) (key : list Byte.byte),
    Filter_Insert f key = (f', true) -> Filter_Lookup f' key = true.

(** The request [processRemoteMemReq] sends to the low module for the
    client request [r]. *)
Definition remoteReqFor now g (r : TranslationReq) : Msg :=
  MTranslationReq
    (mkTranslationReq
       (mkMeta (idGenerator g) (endpointOf (bottomPort g)) (LowModule g)
          now 0 0 0)
       (Req_PID r) (Req_VAddr r) (Req_DeviceID r)).

(** The top sender's buffer holds no more than its capacity. *)
Definition senderFits g : Prop :=
  (length (sbuf (topSender g)) <= scap (topSender g))%nat.

(** What a run of the walk loop does to the bottom side: it only adds to
    what the bottom port has sent and to the keys recorded for the low
    module. *)
Record bottomFrame g g' : Prop := {
  bottom_LowModule : LowModule g' = LowModule g;
  bottom_name : portName (bottomPort g') = portName (bottomPort g);
  bottom_outCap : outCap (bottomPort g') = outCap (bottomPort g);
  bottom_outgoing : exists extra,
    outgoing (bottomPort g') = outgoing (bottomPort g) ++ extra;
  bottom_recorded : forall k,
    is_Some (remoteMemReqs g !! k) -> is_Some (remoteMemReqs g' !! k)
}.

(** A GMMU with nothing to do: nothing queued, nothing waiting on either
    port, nothing in the walk. *)
Record idle g : Prop := {
  idle_sender : sbuf (topSender g) = [];
  idle_top : incoming (topPort g) = [];
  idle_bottom : incoming (bottomPort g) = [];
  idle_walking : walkingTranslations g = [];
  idle_toRemove : toRemoveFromPTW g = []
}.

End Pipeline.

(** A queue with something in it. *)
Definition nonEmpty {A : Type} (q : list A) : bool :=
  match q with
  | [] => false
  | _ :: _ => true
  end.

(** A response carrying the page [pg], sent up through the top port. *)
Definition carries (pg : Page) (m : Msg) : Prop :=
  exists rsp, m = MTranslationRsp rsp /\ Rsp_Page rsp = pg.

(** The probe queues of a ring, slot by slot. *)
Definition probeQueues (ring : tlb.RingNoC) : list (list ProbeRequest) :=
  map tlb.ProbeQueue (tlb.TLBs ring).

(** The geometry [vAddrToSetID] needs: a page size, and as many sets as the
    set count says. *)
Record geometryOk (b : tlb.TLB) : Prop := {
  geo_pageSize : 0 < tlb.pageSize b;
  geo_numSets : 0 < tlb.numSets b;
  geo_Sets : Z.of_nat (length (tlb.Sets b)) = tlb.numSets b
}.

End MoreProps.

(** * Properties of the GMMU pipeline *)

Module GmmuSpec.
Import gmmu GmmuProps.

Section Pipeline.

Context {PT F : Type} `{PageTableOps PT} `{FilterOps F}.

Implicit Types (g : Comp PT F) (now : VTimeInSec).

(** ** The fast path of [parseFromTop] *)

(** C6: a request retrieved from the top port whose key the filter reports,
    whose page the page table holds and whose page is owned by this device is
    answered at once when the top sender has a free slot (the response
    carries the page and answers the request's id; the walking list is
    untouched), and otherwise starts a page walk with [cycleLeft = latency]
    (the request is kept, nothing is queued). *)
Theorem parseFromTop_fast_path now g r rest pg :
  Z.of_nat (length (walkingTranslations g)) < maxRequestsInFlight g ->
  incoming (topPort g) = MTranslationReq r :: rest ->
  Filter_Lookup (cuckooFilter g)
    (encodeVAddrPID (Req_VAddr r) (Req_PID r)) = true ->
  PT_Find (pageTable g) (Req_PID r) (Req_VAddr r) = (pg, true) ->
  Page_DeviceID pg = deviceID g ->
  exists g',
    parseFromTop now g = Ok (g', true)
    /\ incoming (topPort g') = rest
    /\ (CanSend (topSender g) 1 = true ->
          sbuf (topSender g')
          = sbuf (topSender g)
              ++ [rspFor now g (Src (Req_Meta r)) (ID (Req_Meta r)) pg]
          /\ walkingTranslations g' = walkingTranslations g)
    /\ (CanSend (topSender g) 1 = false ->
          walkingTranslations g'
          = walkingTranslations g ++ [mkTransaction (Some r) zeroPage (latency g)]
          /\ topSender g' = topSender g).
Proof.
  intros Hlen Hin Hflt Hfind Hdev.
  unfold parseFromTop.
  destruct (Z.leb_spec (maxRequestsInFlight g)
              (Z.of_nat (length (walkingTranslations g)))) as [Hge|_];
    [lia|].
  unfold Port_Retrieve. rewrite Hin. cbn [topPort with_topPort cuckooFilter pageTable deviceID topSender].
  rewrite Hflt, Hfind, Hdev, Z.eqb_refl. cbn [andb].
  destruct (CanSend (topSender g) 1) eqn:Hcan.
  - eexists. split; [reflexivity|]. split; [reflexivity|].
    split; [|discriminate]. intros _. split; reflexivity.
  - eexists. split; [reflexivity|]. split; [reflexivity|].
    split; [discriminate|]. intros _. split; reflexivity.
Qed.

(** ** Unsupported messages at the GMMU *)

Lemma parseFromTop_unsupported now g m rest :
  Z.of_nat (length (walkingTranslations g)) < maxRequestsInFlight g ->
  incoming (topPort g) = m :: rest ->
  (forall r, m <> MTranslationReq r) ->
  parseFromTop now g
  = Panic ("gmmu cannot handle request of type " +:+ typeOf m).
Proof.
  intros Hlen Hin Hm. unfold parseFromTop.
  destruct (Z.leb_spec (maxRequestsInFlight g)
              (Z.of_nat (length (walkingTranslations g)))) as [Hge|_];
    [lia|].
  unfold Port_Retrieve. rewrite Hin.
  destruct m; try reflexivity. exfalso. eapply Hm. reflexivity.
Qed.

Lemma fetchFromBottom_unsupported now g m rest :
  CanSend (topSender g) 1 = true ->
  incoming (bottomPort g) = m :: rest ->
  (forall r, m <> MTranslationRsp r) ->
  fetchFromBottom now g
  = Panic ("gmmu canot handle request of type " +:+ typeOf m).
Proof.
  intros Hcan Hin Hm. unfold fetchFromBottom. rewrite Hcan. cbn [negb].
  unfold Port_Retrieve. rewrite Hin.
  destruct m; try reflexivity. exfalso. eapply Hm. reflexivity.
Qed.

(** ** [handleTranslationRsp] *)


(** ** The loop of [walkPageTable] *)

Lemma toRemove_app l j k :
  toRemove (l ++ [j]) k = toRemove l k || (j =? k)%nat.
Proof.
  induction l as [|a l IH]; cbn [toRemove app].
  - destruct (j =? k)%nat; reflexivity.
  - destruct (a =? k)%nat; [reflexivity | exact IH].
Qed.

Lemma compact_length rm i l : (length (compact rm i l) <= length l)%nat.
Proof.
  revert i. induction l as [|t l IH]; intros i; cbn [compact length].
  - lia.
  - destruct (toRemove rm i); cbn [length]; specialize (IH (S i)); lia.
Qed.

Lemma compact_keeps rm (l : list transaction) i0 k x :
  l !! k = Some x -> toRemove rm (i0 + k) = false -> x ∈ compact rm i0 l.
Proof.
  revert i0 k. induction l as [|t l IH]; intros i0 k Hk Hrm.
  - discriminate.
  - cbn [compact]. destruct k as [|k].
    + injection Hk as ->. rewrite Nat.add_0_r in Hrm. rewrite Hrm.
      apply list_elem_of_here.
    + cbn in Hk. assert (x ∈ compact rm (S i0) l) as Hin.
      { apply (IH (S i0) k Hk). rewrite <- Hrm. f_equal. lia. }
      destruct (toRemove rm i0); [exact Hin | apply list_elem_of_further, Hin].
Qed.

Lemma walkLoop_app now a b g mp :
  walkLoop now (a ++ b) g mp
  = '(g1, mp1) ← walkLoop now a g mp; walkLoop now b g1 mp1.
Proof.
  revert g mp. induction a as [|i a IH]; intros g mp; cbn [walkLoop app].
  - reflexivity.
  - destruct (walkOne now i g mp) as [[g1 mp1]|msg]; cbn; [apply IH | reflexivity].
Qed.

Lemma loopFrame_refl idxs g : loopFrame idxs g g.
Proof.
  constructor; try reflexivity; eauto.
  exists []. symmetry. apply app_nil_r.
Qed.

Lemma loopFrame_trans a b g g1 g2 :
  loopFrame a g g1 -> loopFrame b g1 g2 -> loopFrame (a ++ b) g g2.
Proof.
  intros [L1 O1 R1 P1 D1 M1 T1 TP1 C1 [e1 S1] X1 Y1]
         [L2 O2 R2 P2 D2 M2 T2 TP2 C2 [e2 S2] X2 Y2].
  constructor; try congruence.
  - intros k Hk. rewrite O2, O1; [reflexivity| |];
      intros Hin; apply Hk, elem_of_app; auto.
  - intros k t Hk. destruct (R1 k t Hk) as (t1 & Hk1 & Hr1).
    destruct (R2 k t1 Hk1) as (t2 & Hk2 & Hr2).
    exists t2. split; [exact Hk2 | congruence].
  - exists (e1 ++ e2). rewrite S2, S1. symmetry. apply app_assoc.
  - intros k Hk. rewrite X2, X1; [reflexivity| |];
      intros Hin; apply Hk, elem_of_app; auto.
  - intros k t Hk. destruct (Y2 k t Hk) as [Hk1|Hreq]; [|right; exact Hreq].
    apply (Y1 k t Hk1).
Qed.

(** Updating slot [j] of the walking list, keeping the request. *)
Lemma loopFrame_update j g t t' :
  walkingTranslations g !! j = Some t -> req t' = req t ->
  loopFrame [j] g
    (with_walkingTranslations g (<[j := t']> (walkingTranslations g))).
Proof.
  intros Hj Hreq. constructor; cbn; try reflexivity.
  - apply length_insert.
  - intros k Hk. apply list_lookup_insert_ne. intros ->. apply Hk.
    apply list_elem_of_here.
  - intros k t0 Hk. destruct (decide (k = j)) as [->|Hne].
    + exists t'. split; [|congruence].
      apply list_lookup_insert_eq. eapply lookup_lt_Some; eauto.
    + exists t0. split; [|reflexivity].
      rewrite list_lookup_insert_ne by congruence. exact Hk.
  - exists []. symmetry. apply app_nil_r.
  - auto.
Qed.

Lemma loopFrame_sendRsp j now g dst rspTo pg :
  loopFrame [j] g
    (with_toRemoveFromPTW (sendRspToTop now g dst rspTo pg)
       (toRemoveFromPTW g ++ [j])).
Proof.
  constructor; cbn; try reflexivity; eauto.
  intros k Hk. rewrite toRemove_app.
  destruct (Nat.eqb_spec j k) as [->|_]; [|apply orb_false_r].
  exfalso. apply Hk, list_elem_of_here.
Qed.

Lemma loopFrame_idem j g g1 g2 :
  loopFrame [j] g g1 -> loopFrame [j] g1 g2 -> loopFrame [j] g g2.
Proof.
  intros H1 H2. pose proof (loopFrame_trans _ _ _ _ _ H1 H2) as H3.
  destruct H3 as [L O R P D M T TP C S X Y].
  constructor; try assumption.
  - intros k Hk. apply O. intros Hin. apply Hk.
    apply elem_of_app in Hin as [Hin|Hin]; exact Hin.
  - intros k Hk. apply X. intros Hin. apply Hk.
    apply elem_of_app in Hin as [Hin|Hin]; exact Hin.
Qed.

Lemma doPageWalkHit_frame now j g g' b :
  doPageWalkHit now j g = Ok (g', b) -> loopFrame [j] g g'.
Proof.
  unfold doPageWalkHit. intros Hrun.
  destruct (CanSend (topSender g) 1); cbn [negb] in Hrun.
  - destruct (walkingTranslations g !! j) as [walking|]; [|discriminate].
    destruct (req walking) as [r|]; [|discriminate].
    injection Hrun as <- _. apply loopFrame_sendRsp.
  - injection Hrun as <- _. apply loopFrame_refl.
Qed.

Lemma finalizePageWalk_frame now j g g' b :
  finalizePageWalk now j g = Ok (g', b) -> loopFrame [j] g g'.
Proof.
  unfold finalizePageWalk. intros Hrun.
  destruct (walkingTranslations g !! j) as [walking|] eqn:Hj; [|discriminate].
  destruct (req walking) as [r|] eqn:Hr; [|discriminate].
  destruct (PT_Find (pageTable g) (Req_PID r) (Req_VAddr r)) as [pg fnd].
  eapply loopFrame_idem; [|eapply doPageWalkHit_frame; exact Hrun].
  eapply loopFrame_update; [exact Hj|]. cbn. congruence.
Qed.

Lemma processRemoteMemReq_frame now j g g' b :
  processRemoteMemReq now j g = Ok (g', b) -> loopFrame [j] g g'.
Proof.
  unfold processRemoteMemReq. intros Hrun.
  destruct (walkingTranslations g !! j) as [t|]; [|discriminate].
  destruct (req t) as [walking|] eqn:Hreq; [|discriminate].
  cbn in Hrun.
  assert (forall k t0,
            <[Req_VAddr walking := t]> (remoteMemReqs g) !! k = Some t0 ->
            remoteMemReqs g !! k = Some t0 \/ req t0 <> None) as Hrec.
  { intros k t0 Hk. destruct (decide (Req_VAddr walking = k)) as [Heq|Hne].
    - subst k. rewrite lookup_insert_eq in Hk. injection Hk as <-.
      right. congruence.
    - rewrite lookup_insert_ne in Hk by exact Hne. left. exact Hk. }
  destruct (Port_Send _ _) as [port'|]; injection Hrun as <- _.
  - constructor; cbn; try reflexivity; eauto.
    + exists []. symmetry. apply app_nil_r.
    + intros k Hk. rewrite toRemove_app.
      destruct (Nat.eqb_spec j k) as [->|_]; [|apply orb_false_r].
      exfalso. apply Hk, list_elem_of_here.
  - constructor; cbn; try reflexivity; eauto.
    exists []. symmetry. apply app_nil_r.
Qed.

Lemma walkOne_frame now j g mp g' mp' :
  walkOne now j g mp = Ok (g', mp') -> loopFrame [j] g g'.
Proof.
  unfold walkOne. intros Hrun.
  destruct (walkingTranslations g !! j) as [t|] eqn:Hj; [|discriminate].
  destruct (0 <? cycleLeft t).
  - injection Hrun as <- _. eapply loopFrame_update; [exact Hj | reflexivity].
  - destruct (req t) as [r|]; [|discriminate].
    destruct (PT_Find (pageTable g) (Req_PID r) (Req_VAddr r)) as [pg fnd].
    destruct (Page_DeviceID pg =? deviceID g).
    + destruct (finalizePageWalk now j g) as [[g1 b]|msg] eqn:Hfin;
        [|discriminate].
      injection Hrun as <- _. eapply finalizePageWalk_frame, Hfin.
    + destruct (processRemoteMemReq now j g) as [[g1 b]|msg] eqn:Hrem;
        [|discriminate].
      injection Hrun as <- _. eapply processRemoteMemReq_frame, Hrem.
Qed.

Lemma walkLoop_frame now idxs g mp g' mp' :
  walkLoop now idxs g mp = Ok (g', mp') -> loopFrame idxs g g'.
Proof.
  revert g mp. induction idxs as [|i idxs IH]; intros g mp Hrun;
    cbn [walkLoop] in Hrun.
  - injection Hrun as <- _. apply loopFrame_refl.
  - destruct (walkOne now i g mp) as [[g1 mp1]|msg] eqn:Hone; [|discriminate].
    cbn in Hrun. change (i :: idxs) with ([i] ++ idxs).
    eapply loopFrame_trans; [eapply walkOne_frame, Hone | eapply IH, Hrun].
Qed.

Lemma loopFrame_reqsPresent idxs g g' :
  loopFrame idxs g g' -> reqsPresent g -> reqsPresent g'.
Proof.
  intros Hf Hp k t' Hk.
  assert (k < length (walkingTranslations g))%nat as Hlt.
  { rewrite <- (frame_length _ _ _ Hf). eapply lookup_lt_Some, Hk. }
  destruct (lookup_lt_is_Some_2 _ _ Hlt) as [t Ht].
  destruct (frame_req _ _ _ Hf k t Ht) as (t'' & Hk' & Hreq).
  rewrite Hk in Hk'. injection Hk' as <-. rewrite Hreq. eapply Hp, Ht.
Qed.

(** The loop body does not panic on a slot in range that holds its
    request. *)
Lemma walkOne_total now j g mp t :
  walkingTranslations g !! j = Some t -> req t <> None ->
  exists g' mp', walkOne now j g mp = Ok (g', mp').
Proof.
  intros Hj Hreq. unfold walkOne. rewrite Hj.
  destruct (0 <? cycleLeft t); [eauto|].
  destruct (req t) as [r|] eqn:Hr; [|congruence].
  destruct (PT_Find (pageTable g) (Req_PID r) (Req_VAddr r)) as [pg fnd] eqn:Hfind.
  destruct (Page_DeviceID pg =? deviceID g).
  - unfold finalizePageWalk. rewrite Hj, Hr, Hfind.
    unfold doPageWalkHit. cbn [topSender with_walkingTranslations walkingTranslations].
    destruct (CanSend (topSender g) 1); cbn [negb]; [|cbn; eauto].
    rewrite list_lookup_insert_eq by (eapply lookup_lt_Some, Hj).
    cbn. eauto.
  - unfold processRemoteMemReq. rewrite Hj, Hr. cbn.
    destruct (Port_Send _ _); cbn; eauto.
Qed.

Lemma walkLoop_total now idxs g mp :
  reqsPresent g ->
  (forall j, j ∈ idxs -> (j < length (walkingTranslations g))%nat) ->
  exists g' mp', walkLoop now idxs g mp = Ok (g', mp').
Proof.
  revert g mp. induction idxs as [|i idxs IH]; intros g mp Hp Hin;
    cbn [walkLoop].
  - eauto.
  - destruct (lookup_lt_is_Some_2 (walkingTranslations g) i) as [t Ht].
    { apply Hin, list_elem_of_here. }
    destruct (walkOne_total now i g mp t Ht (Hp i t Ht)) as (g1 & mp1 & Hone).
    rewrite Hone. cbn.
    pose proof (walkOne_frame _ _ _ _ _ _ Hone) as Hf.
    apply IH.
    + eapply loopFrame_reqsPresent; eauto.
    + intros j Hj. rewrite (frame_length _ _ _ Hf).
      apply Hin, list_elem_of_further, Hj.
Qed.

(** ** A finished walk of a local page *)

Lemma walkOne_local now i g mp t r pg fnd :
  walkingTranslations g !! i = Some t ->
  cycleLeft t = 0 ->
  req t = Some r ->
  PT_Find (pageTable g) (Req_PID r) (Req_VAddr r) = (pg, fnd) ->
  Page_DeviceID pg = deviceID g ->
  exists g1 mp1,
    walkOne now i g mp = Ok (g1, mp1)
    /\ walkingTranslations g1 !! i = Some (mkTransaction (Some r) pg 0)
    /\ toRemove (toRemoveFromPTW g1) i
       = toRemove (toRemoveFromPTW g) i || CanSend (topSender g) 1
    /\ (CanSend (topSender g) 1 = true ->
        sbuf (topSender g1)
        = sbuf (topSender g)
            ++ [rspFor now g (Src (Req_Meta r)) (ID (Req_Meta r)) pg])
    /\ (CanSend (topSender g) 1 = false -> topSender g1 = topSender g).
Proof.
  intros Hi Hc Hr Hfind Hdev.
  assert (i < length (walkingTranslations g))%nat as Hlt
    by (eapply lookup_lt_Some, Hi).
  unfold walkOne. rewrite Hi, Hc. cbn [Z.ltb Z.compare].
  rewrite Hr, Hfind, Hdev, Z.eqb_refl.
  unfold finalizePageWalk. rewrite Hi, Hr, Hfind, Hc.
  unfold doPageWalkHit.
  cbn [topSender with_walkingTranslations walkingTranslations].
  destruct (CanSend (topSender g) 1) eqn:Hcan; cbn [negb].
  - rewrite list_lookup_insert_eq by exact Hlt. cbn.
    eexists _, _. split; [reflexivity|]. cbn.
    split; [apply list_lookup_insert_eq, Hlt|].
    split; [rewrite toRemove_app, Nat.eqb_refl; reflexivity|].
    split; [reflexivity | discriminate].
  - cbn. eexists _, _. split; [reflexivity|]. cbn.
    split; [apply list_lookup_insert_eq, Hlt|].
    split; [symmetry; apply orb_false_r|].
    split; [discriminate | reflexivity].
Qed.

Lemma loopFrame_stays_full idxs g g' :
  loopFrame idxs g g' ->
  CanSend (topSender g) 1 = false -> CanSend (topSender g') 1 = false.
Proof.
  intros Hf. unfold CanSend.
  destruct (frame_sbuf _ _ _ Hf) as [extra Hs].
  rewrite Hs, (frame_scap _ _ _ Hf), length_app.
  intros Hfull. apply Nat.leb_gt. apply Nat.leb_gt in Hfull. lia.
Qed.

(** C7, as the code has it: a walking transaction whose [cycleLeft] is 0 and
    whose page is owned by this device is looked up again, and the page found
    is stored in its [page] field, before the send is attempted.  If the top
    sender cannot accept a message when the transaction is reached, its index
    is not put on the removal list and the transaction stays in the walking
    list with its request and [cycleLeft] as they were (only [page] now holds
    the looked-up page), to be retried at the next tick.  Its index is put on
    the removal list, and so dropped by the compaction, exactly when the top
    sender accepted, in which case its response, answering the request's id,
    is on the top sender in that same tick.  A top sender that is full when
    the walk starts is still full when the transaction is reached. *)
Theorem walkPageTable_local_retry now g i t r pg fnd :
  toRemoveFromPTW g = [] ->
  reqsPresent g ->
  walkingTranslations g !! i = Some t ->
  cycleLeft t = 0 ->
  req t = Some r ->
  PT_Find (pageTable g) (Req_PID r) (Req_VAddr r) = (pg, fnd) ->
  Page_DeviceID pg = deviceID g ->
  exists gi mpi gl g' mp,
    walkLoop now (seq 0 i) g false = Ok (gi, mpi)
    /\ walkLoop now (seq 0 (length (walkingTranslations g))) g false
       = Ok (gl, mp)
    /\ walkPageTable now g = Ok (g', mp)
    /\ walkingTranslations g'
       = compact (toRemoveFromPTW gl) 0 (walkingTranslations gl)
    /\ walkingTranslations gl !! i = Some (mkTransaction (Some r) pg 0)
    /\ toRemove (toRemoveFromPTW gl) i = CanSend (topSender gi) 1
    /\ (CanSend (topSender gi) 1 = false ->
        mkTransaction (Some r) pg 0 ∈ walkingTranslations g')
    /\ (CanSend (topSender gi) 1 = true ->
        rspFor now gi (Src (Req_Meta r)) (ID (Req_Meta r)) pg
          ∈ sbuf (topSender g'))
    /\ (CanSend (topSender g) 1 = false ->
        CanSend (topSender gi) 1 = false).
Proof.
  intros Hnil Hp Hi Hc Hr Hfind Hdev.
  assert (i < length (walkingTranslations g))%nat as Hlt
    by (eapply lookup_lt_Some, Hi).
  set (n := length (walkingTranslations g)) in *.
  assert (seq 0 n = seq 0 i ++ i :: seq (S i) (n - S i)) as Hsplit.
  { replace n with (i + S (n - S i))%nat at 1 by lia.
    rewrite seq_app. reflexivity. }
  (* the slots before [i] *)
  destruct (walkLoop_total now (seq 0 i) g false Hp) as (gi & mpi & Hpre).
  { intros j Hj. apply elem_of_seq in Hj. fold n. lia. }
  pose proof (walkLoop_frame _ _ _ _ _ _ Hpre) as Fpre.
  assert (i ∉ seq 0 i) as Hnotin by (rewrite elem_of_seq; lia).
  assert (walkingTranslations gi !! i = Some t) as Hi'
    by (rewrite (frame_other _ _ _ Fpre i Hnotin); exact Hi).
  (* slot [i] itself *)
  destruct (walkOne_local now i gi mpi t r pg fnd Hi' Hc Hr) as
    (g1 & mp1 & Hone & Hslot & Hrm & Hsent & Hkept).
  { rewrite (frame_pageTable _ _ _ Fpre). exact Hfind. }
  { rewrite (frame_deviceID _ _ _ Fpre). exact Hdev. }
  pose proof (walkOne_frame _ _ _ _ _ _ Hone) as Fone.
  (* the slots after [i] *)
  destruct (walkLoop_total now (seq (S i) (n - S i)) g1 mp1) as
    (gl & mp & Hpost).
  { eapply loopFrame_reqsPresent; [exact Fone|].
    eapply loopFrame_reqsPresent; [exact Fpre | exact Hp]. }
  { intros j Hj. apply elem_of_seq in Hj.
    rewrite (frame_length _ _ _ Fone), (frame_length _ _ _ Fpre).
    fold n. lia. }
  pose proof (walkLoop_frame _ _ _ _ _ _ Hpost) as Fpost.
  assert (i ∉ seq (S i) (n - S i)) as Hnotin' by (rewrite elem_of_seq; lia).
  assert (walkLoop now (seq 0 n) g false = Ok (gl, mp)) as Hloop.
  { rewrite Hsplit, walkLoop_app, Hpre. cbn. rewrite Hone. cbn. exact Hpost. }
  assert (toRemove (toRemoveFromPTW gl) i = CanSend (topSender gi) 1) as Hdrop.
  { rewrite (frame_toRemove _ _ _ Fpost i Hnotin'), Hrm.
    rewrite (frame_toRemove _ _ _ Fpre i Hnotin), Hnil. reflexivity. }
  assert (walkingTranslations gl !! i = Some (mkTransaction (Some r) pg 0))
    as Hfinal
    by (rewrite (frame_other _ _ _ Fpost i Hnotin'); exact Hslot).
  exists gi, mpi, gl,
    (with_toRemoveFromPTW
       (with_walkingTranslations gl
          (compact (toRemoveFromPTW gl) 0 (walkingTranslations gl))) []), mp.
  split; [exact Hpre|]. split; [exact Hloop|].
  split; [unfold walkPageTable; fold n; rewrite Hloop; reflexivity|].
  split; [reflexivity|]. split; [exact Hfinal|]. split; [exact Hdrop|].
  split; [|split].
  - intros Hfull. cbn. eapply compact_keeps; [exact Hfinal|].
    cbn. rewrite Hdrop. exact Hfull.
  - intros Hcan. cbn. destruct (frame_sbuf _ _ _ Fpost) as [extra Hs].
    rewrite Hs, (Hsent Hcan). apply elem_of_app. left.
    apply elem_of_app. right. apply list_elem_of_here.
  - apply (loopFrame_stays_full _ _ _ Fpre).
Qed.

(** ** The in-flight budget *)

Lemma parseFromTop_stalls now g :
  maxRequestsInFlight g <= Z.of_nat (length (walkingTranslations g)) ->
  parseFromTop now g = Ok (g, false).
Proof.
  intros Hge. unfold parseFromTop.
  destruct (Z.leb_spec (maxRequestsInFlight g)
              (Z.of_nat (length (walkingTranslations g)))); [reflexivity|lia].
Qed.

Lemma parseFromTop_grows_by_one now g g' b :
  parseFromTop now g = Ok (g', b) ->
  maxRequestsInFlight g' = maxRequestsInFlight g
  /\ toRemoveFromPTW g' = toRemoveFromPTW g
  /\ remoteMemReqs g' = remoteMemReqs g
  /\ (walkingTranslations g' = walkingTranslations g
      \/ Z.of_nat (length (walkingTranslations g)) < maxRequestsInFlight g
         /\ exists r,
              walkingTranslations g'
              = walkingTranslations g
                  ++ [mkTransaction (Some r) zeroPage (latency g)]).
Proof.
  unfold parseFromTop. intros Hrun.
  destruct (Z.leb_spec (maxRequestsInFlight g)
              (Z.of_nat (length (walkingTranslations g)))) as [Hge|Hlt].
  { injection Hrun as <- _. auto. }
  destruct (Port_Retrieve (topPort g)) as [[m|] port'].
  2:{ injection Hrun as <- _. auto. }
  destruct m as [r| | | |]; try discriminate.
  cbn [cuckooFilter with_topPort pageTable deviceID topSender] in Hrun.
  assert (forall g0 b0,
    Ok (startWalking (with_topPort g port') r, true) = Ok (g0, b0) ->
    maxRequestsInFlight g0 = maxRequestsInFlight g
    /\ toRemoveFromPTW g0 = toRemoveFromPTW g
    /\ remoteMemReqs g0 = remoteMemReqs g
    /\ (walkingTranslations g0 = walkingTranslations g
        \/ Z.of_nat (length (walkingTranslations g)) < maxRequestsInFlight g
           /\ exists r0,
                walkingTranslations g0
                = walkingTranslations g
                    ++ [mkTransaction (Some r0) zeroPage (latency g)]))
    as Hwalk.
  { intros g0 b0 Heq. injection Heq as <- _. cbn. eauto 8. }
  destruct (Filter_Lookup _ _); [|eapply Hwalk, Hrun].
  destruct (PT_Find _ _ _) as [pg found].
  destruct (found && (Page_DeviceID pg =? deviceID g)); [|eapply Hwalk, Hrun].
  destruct (CanSend (topSender g) 1); [|eapply Hwalk, Hrun].
  injection Hrun as <- _. cbn. auto.
Qed.

Lemma walkPageTable_shrinks now g g' b :
  walkPageTable now g = Ok (g', b) ->
  maxRequestsInFlight g' = maxRequestsInFlight g
  /\ toRemoveFromPTW g' = []
  /\ (length (walkingTranslations g') <= length (walkingTranslations g))%nat.
Proof.
  unfold walkPageTable. intros Hrun.
  destruct (walkLoop now _ g false) as [[gl mp]|msg] eqn:Hloop; [|discriminate].
  cbn in Hrun. injection Hrun as <- _. cbn.
  pose proof (walkLoop_frame _ _ _ _ _ _ Hloop) as Hf.
  split; [apply (frame_max _ _ _ Hf)|]. split; [reflexivity|].
  rewrite <- (frame_length _ _ _ Hf). apply compact_length.
Qed.

Lemma handleTranslationRsp_walking now g response g' b :
  handleTranslationRsp now g response = Ok (g', b) ->
  maxRequestsInFlight g' = maxRequestsInFlight g
  /\ toRemoveFromPTW g' = toRemoveFromPTW g
  /\ walkingTranslations g' = walkingTranslations g
  /\ exists vAddr, remoteMemReqs g' = delete vAddr (remoteMemReqs g).
Proof.
  unfold handleTranslationRsp. intros Hrun.
  destruct (PT_Update _ _) as [pt|msg]; [|discriminate].
  cbn [mbind result_bind] in Hrun.
  destruct (Filter_Insert _ _) as [f1 [|]];
    destruct (req _); try discriminate; injection Hrun as <- _; cbn; eauto.
Qed.

Lemma fetchFromBottom_walking now g g' b :
  fetchFromBottom now g = Ok (g', b) ->
  maxRequestsInFlight g' = maxRequestsInFlight g
  /\ toRemoveFromPTW g' = toRemoveFromPTW g
  /\ walkingTranslations g' = walkingTranslations g
  /\ (remoteMemReqs g' = remoteMemReqs g
      \/ exists vAddr, remoteMemReqs g' = delete vAddr (remoteMemReqs g)).
Proof.
  unfold fetchFromBottom. intros Hrun.
  destruct (negb (CanSend (topSender g) 1)).
  { injection Hrun as <- _. auto. }
  destruct (Port_Retrieve (bottomPort g)) as [[m|] port'].
  2:{ injection Hrun as <- _. auto. }
  destruct m as [|response| | |]; try discriminate.
  apply handleTranslationRsp_walking in Hrun as (M & T & W & D). auto.
Qed.

(** One tick keeps the walking list within the budget, and leaves the
    removal list empty. *)
Lemma Tick_withinBudget now g g' b :
  Tick now g = Ok (g', b) -> withinBudget g -> withinBudget g'.
Proof.
  unfold Tick, withinBudget. intros Hrun Hb.
  destruct (Sender_Tick (topSender g) (topPort g)) as [[s' p'] b0].
  set (g0 := with_topPort (with_topSender g s') p') in *.
  destruct (parseFromTop now g0) as [[g1 b1]|] eqn:Hparse; [|discriminate].
  cbn in Hrun.
  destruct (walkPageTable now g1) as [[g2 b2]|] eqn:Hwalk; [|discriminate].
  cbn in Hrun.
  destruct (fetchFromBottom now g2) as [[g3 b3]|] eqn:Hfetch; [|discriminate].
  cbn in Hrun. injection Hrun as <- _.
  apply parseFromTop_grows_by_one in Hparse as (M1 & _ & _ & W1).
  apply walkPageTable_shrinks in Hwalk as (M2 & _ & W2).
  apply fetchFromBottom_walking in Hfetch as (M3 & _ & W3 & _).
  rewrite W3, M3, M2, M1.
  change (maxRequestsInFlight g0) with (maxRequestsInFlight g) in *.
  change (walkingTranslations g0) with (walkingTranslations g) in *.
  destruct W1 as [W1|(Hlt & t & W1)]; rewrite W1 in W2.
  - lia.
  - rewrite length_app in W2. cbn [length] in W2. lia.
Qed.

Lemma Build_withinBudget name idgen (b : Builder PT) :
  0 <= maxNumReqInFlight b -> withinBudget (Build name idgen b).
Proof.
  intros Hb. unfold withinBudget, Build. cbn.
  destruct (Z.eqb_spec (maxNumReqInFlight b) 0); lia.
Qed.

Lemma compact_sub rm i (l : list transaction) x :
  x ∈ compact rm i l -> x ∈ l.
Proof.
  revert i. induction l as [|t l IH]; intros i; cbn [compact].
  - intros Hin. exact Hin.
  - destruct (toRemove rm i).
    + intros Hin. apply list_elem_of_further, (IH _ Hin).
    + intros Hin. apply elem_of_cons in Hin as [->|Hin].
      * apply list_elem_of_here.
      * apply list_elem_of_further, (IH _ Hin).
Qed.

Lemma Tick_betweenTicks now g g' b :
  Tick now g = Ok (g', b) -> betweenTicks g -> betweenTicks g'.
Proof.
  unfold Tick. intros Hrun (Hnil & Hreqs & Hrem).
  destruct (Sender_Tick (topSender g) (topPort g)) as [[s' p'] b0].
  set (g0 := with_topPort (with_topSender g s') p') in *.
  destruct (parseFromTop now g0) as [[g1 b1]|] eqn:Hparse; [|discriminate].
  cbn in Hrun.
  destruct (walkPageTable now g1) as [[g2 b2]|] eqn:Hwalk; [|discriminate].
  cbn in Hrun.
  destruct (fetchFromBottom now g2) as [[g3 b3]|] eqn:Hfetch; [|discriminate].
  cbn in Hrun. injection Hrun as <- _.
  apply parseFromTop_grows_by_one in Hparse as (_ & _ & R1 & W1).
  change (remoteMemReqs g0) with (remoteMemReqs g) in R1.
  change (walkingTranslations g0) with (walkingTranslations g) in W1.
  assert (reqsPresent g1) as Hreqs1.
  { destruct W1 as [W1|(_ & r & W1)]; intros k t Hk; rewrite W1 in Hk.
    - eapply Hreqs, Hk.
    - apply lookup_app_Some in Hk as [Hk|[_ Hk]]; [eapply Hreqs, Hk|].
      apply list_lookup_singleton_Some in Hk as [_ <-]. discriminate. }
  pose proof (walkPageTable_shrinks _ _ _ _ Hwalk) as (_ & T2 & _).
  unfold walkPageTable in Hwalk.
  destruct (walkLoop now _ g1 false) as [[gl mp]|] eqn:Hloop; [|discriminate].
  cbn in Hwalk. injection Hwalk as <- _.
  pose proof (walkLoop_frame _ _ _ _ _ _ Hloop) as Hf.
  apply fetchFromBottom_walking in Hfetch as (_ & T3 & W3 & R3).
  cbn in T3, W3, R3.
  split; [congruence|]. split.
  - intros k t Hk. rewrite W3 in Hk.
    apply list_elem_of_lookup_2, compact_sub, list_elem_of_lookup in Hk
      as [k' Hk'].
    eapply (loopFrame_reqsPresent _ _ _ Hf Hreqs1), Hk'.
  - assert (remotePresent gl) as Hreml.
    { intros k t Hk. destruct (frame_remote _ _ _ Hf k t Hk) as [Hk1|Hreq];
        [|exact Hreq].
      rewrite R1 in Hk1. eapply Hrem, Hk1. }
    intros k t Hk. destruct R3 as [R3|[vAddr R3]]; rewrite R3 in Hk.
    + eapply Hreml, Hk.
    + apply lookup_delete_Some in Hk as [_ Hk]. eapply Hreml, Hk.
Qed.

(** Every reachable state is a state between two ticks: what the retry and
    the bottom-side properties assume of the lists holds there. *)
Lemma reachable_betweenTicks name idgen (b : Builder PT) g :
  reachable name idgen b g -> betweenTicks g.
Proof.
  induction 1 as [|g now g' progress _ IH Htick|g g' _ IH Henv].
  - split; [reflexivity|]. split; intros k t Hk; cbn in Hk.
    + rewrite lookup_nil in Hk. discriminate.
    + rewrite lookup_empty in Hk. discriminate.
  - eapply Tick_betweenTicks; eauto.
  - destruct IH as (Hnil & Hreqs & Hrem). unfold betweenTicks, reqsPresent,
      remotePresent.
    rewrite (env_toRemove _ _ Henv), (env_walking _ _ Henv),
      (env_remote _ _ Henv). auto.
Qed.

(** C3: in every state a GMMU built with a non-negative budget can reach,
    the walking list holds at most [maxRequestsInFlight] transactions:
    [parseFromTop] stalls (returns false, changes nothing) whenever the list
    has reached the budget and otherwise appends at most one transaction,
    and neither the page walk nor the bottom side grows the list. *)
Theorem walking_within_budget name idgen (b : Builder PT) g :
  0 <= maxNumReqInFlight b ->
  reachable name idgen b g ->
  withinBudget g
  /\ (forall now,
        maxRequestsInFlight g <= Z.of_nat (length (walkingTranslations g)) ->
        parseFromTop now g = Ok (g, false))
  /\ (forall now g' p,
        walkPageTable now g = Ok (g', p) ->
        (length (walkingTranslations g') <= length (walkingTranslations g))%nat)
  /\ (forall now g' p,
        fetchFromBottom now g = Ok (g', p) ->
        walkingTranslations g' = walkingTranslations g).
Proof.
  intros Hb Hreach. split; [|split; [|split]].
  - induction Hreach as [|g now g' progress _ IH Htick|g g' _ IH Henv].
    + apply Build_withinBudget, Hb.
    + eapply Tick_withinBudget; eauto.
    + unfold withinBudget in *.
      rewrite (env_walking _ _ Henv), (env_max _ _ Henv). exact IH.
  - intros now. apply parseFromTop_stalls.
  - intros now g' p Hw. apply (walkPageTable_shrinks _ _ _ _ Hw).
  - intros now g' p Hf.
    apply (proj1 (proj2 (proj2 (fetchFromBottom_walking _ _ _ _ Hf)))).
Qed.

End Pipeline.

Import Sample.

Lemma walking_within_budget_witness :
  withinBudget gmmuAfterTick
  /\ length (walkingTranslations gmmuAfterTick) = 1%nat.
Proof.
  split; [|reflexivity].
  refine (proj1 (walking_within_budget "GMMU" 100
                   (mkBuilder 12 None 16 10 1 (PortNamed "Low") 64)
                   gmmuAfterTick _ _)).
  - cbn. lia.
  - eapply reach_Tick with (g := gmmuArrived) (now := 1) (progress := true).
    + eapply reach_env; [apply reach_Build|].
      constructor; reflexivity.
    + vm_compute. reflexivity.
Defined.

Lemma parseFromTop_fast_path_witness :
  exists g',
    parseFromTop 5 gmmuFast = Ok (g', true)
    /\ sbuf (topSender g')
       = [rspFor 5 gmmuFast client 7 localPage]
    /\ walkingTranslations g' = [].
Proof.
  destruct (parseFromTop_fast_path 5 gmmuFast req7 [] localPage)
    as (g' & Hrun & _ & Hsend & _).
  - cbn. lia.
  - reflexivity.
  - vm_compute. reflexivity.
  - vm_compute. reflexivity.
  - reflexivity.
  - exists g'. split; [exact Hrun|]. apply Hsend. reflexivity.
Defined.

Lemma gmmuWalked_reqsPresent : reqsPresent gmmuWalked.
Proof.
  intros k t Hk. destruct k as [|k]; cbn in Hk.
  - injection Hk as <-. discriminate.
  - discriminate.
Defined.

Lemma walkPageTable_local_retry_witness :
  exists g' mp,
    walkPageTable 5 gmmuWalked = Ok (g', mp)
    /\ mkTransaction (Some req7) localPage 0 ∈ walkingTranslations g'.
Proof.
  destruct (walkPageTable_local_retry 5 gmmuWalked 0
              (mkTransaction (Some req7) zeroPage 0) req7 localPage true)
    as (gi & mpi & gl & g' & mp & Hpre & _ & Hrun & _ & _ & _ & Hkept & _ & _).
  - reflexivity.
  - exact gmmuWalked_reqsPresent.
  - reflexivity.
  - reflexivity.
  - reflexivity.
  - vm_compute. reflexivity.
  - reflexivity.
  - exists g', mp. split; [exact Hrun|]. apply Hkept.
    cbn in Hpre. injection Hpre as <- _. reflexivity.
Defined.

(** C7 as stated fails on the [page] field: with the top sender full, the
    finished transaction for a local page is kept, but not unchanged. *)
Lemma walkPageTable_overwrites_page :
  CanSend (topSender gmmuWalked) 1 = false
  /\ walkingTranslations gmmuWalked = [mkTransaction (Some req7) zeroPage 0]
  /\ PT_Find (pageTable gmmuWalked) 0 4096 = (localPage, true)
  /\ Page_DeviceID localPage = deviceID gmmuWalked
  /\ exists g',
       walkPageTable 5 gmmuWalked = Ok (g', false)
       /\ walkingTranslations g' = [mkTransaction (Some req7) localPage 0]
       /\ walkingTranslations g' <> walkingTranslations gmmuWalked.
Proof.
  split; [reflexivity|]. split; [reflexivity|].
  split; [vm_compute; reflexivity|]. split; [reflexivity|].
  eexists. split; [vm_compute; reflexivity|].
  split; [reflexivity | discriminate].
Qed.




(** C3 as stated fails for a negative budget: [Build] replaces only a
    budget of 0, so the GMMU built from [negativeBuilder] has the budget -3,
    and its empty walking list is already longer than that. *)
Lemma negative_budget_exceeded :
  reachable "GMMU" 100 negativeBuilder gmmuNegative
  /\ maxNumReqInFlight negativeBuilder = -3
  /\ maxRequestsInFlight gmmuNegative = -3
  /\ walkingTranslations gmmuNegative = []
  /\ ~ withinBudget gmmuNegative.
Proof.
  split; [apply reach_Build|]. split; [reflexivity|]. split; [reflexivity|].
  split; [reflexivity|]. unfold withinBudget. cbn. lia.
Qed.

(** C2 at the remote path: the response queued for the client answers the
    id of the low module's response (99), not the id of the client's
    request (7). *)
Theorem handleTranslationRsp_answers_low_id :
  exists g' rsp,
    handleTranslationRsp 5 gmmuRemote lowRsp = Ok (g', true)
    /\ sbuf (topSender g') = [MTranslationRsp rsp]
    /\ Dst (Rsp_Meta rsp) = Src (Req_Meta req7)
    /\ RspTo rsp = ID (Rsp_Meta lowRsp)
    /\ RspTo rsp = 99%N
    /\ ID (Req_Meta req7) = 7%N
    /\ RspTo rsp <> ID (Req_Meta req7).
Proof.
  eexists _, _. split; [vm_compute; reflexivity|].
  split; [reflexivity|]. split; [reflexivity|]. split; [reflexivity|].
  split; [reflexivity|]. split; [reflexivity|]. discriminate.
Qed.

End GmmuSpec.

(** * Properties of the ring and the probe protocol *)

Module RingSpec.
Import tlb RingProps.

Implicit Types (ring : RingNoC) (t : L1TLB) (r : ProbeRequest).

(** ** [NotifyMiss] *)

Lemma notifyLoop_sends now low vAddr reqs port toBottom idgen :
  exists sent,
    outgoing (notifyLoop now low vAddr reqs port toBottom idgen).1.1
    = outgoing port ++ sent
    /\ length sent
       = Nat.min (length reqs) (outCap port - length (outgoing port))
    /\ Forall (escalationFor low vAddr) sent.
Proof.
  revert port toBottom idgen.
  induction reqs as [|q reqs IH]; intros port toBottom idgen;
    cbn [notifyLoop].
  - exists []. rewrite app_nil_r. repeat split. constructor.
  - unfold buildTranslationReq, Generate, Port_Send.
    destruct (Nat.ltb_spec (length (outgoing port)) (outCap port)) as [Hlt|Hge].
    + match goal with
      | |- context [notifyLoop _ _ _ _ ?p ?tb ?ig] =>
          destruct (IH p tb ig) as (sent & Hout & Hlen & Hall)
      end.
      cbn [outgoing outCap] in Hout, Hlen. rewrite length_app in Hlen.
      cbn [length] in Hlen.
      eexists (_ :: sent). split; [|split].
      * rewrite Hout, <- app_assoc. reflexivity.
      * cbn [length]. rewrite Hlen. lia.
      * constructor; [|exact Hall]. eexists. repeat split.
    + destruct (IH port toBottom (N.succ idgen)) as (sent & Hout & Hlen & Hall).
      exists sent. split; [exact Hout|]. split; [|exact Hall].
      rewrite Hlen. cbn [length]. lia.
Qed.

(** C1, as the code has it: [NotifyMiss] never reads [reqToBottom].
    Whenever the MSHR holds an entry for (PID 0, VAddr), whatever its
    [reqToBottom], an invocation attempts one request to the low module per
    waiting request, and as many of them go out of the bottom port as the
    port accepts; a repeated invocation sends nothing only when the port is
    busy or the entry is gone. *)
Theorem NotifyMiss_sends_whenever_accepted now idgen t vAddr entry :
  MSHR_Query (mshr (base t)) 0 vAddr = Some entry ->
  exists sent,
    outgoing (bottomPort (base (NotifyMiss_at now idgen t vAddr).1))
    = outgoing (bottomPort (base t)) ++ sent
    /\ length sent
       = Nat.min (length (Requests entry))
           (outCap (bottomPort (base t))
            - length (outgoing (bottomPort (base t))))
    /\ Forall (escalationFor (LowModule (base t)) vAddr) sent.
Proof.
  intros Hq. unfold NotifyMiss_at. rewrite Hq.
  destruct (notifyLoop_sends now (LowModule (base t)) vAddr (Requests entry)
              (bottomPort (base t)) (reqToBottom entry) idgen)
    as (sent & Hout & Hlen & Hall).
  destruct (notifyLoop _ _ _ _ _ _ _) as [[port' toBottom'] idgen'].
  exists sent. cbn in *. auto.
Qed.

(** ** [InitiateProbing] *)

(** C4: [InitiateProbing] appends exactly two probe requests to the
    initiating TLB's probe queue, first the clockwise one with TTL 15, then
    the counterclockwise one with TTL 4; both carry the virtual address, the
    initiating TLB's id as [SourceTLB] and the ring's SEID; no other TLB's
    queue changes. *)
Theorem InitiateProbing_enqueues_two ring self t vAddr :
  TLBs ring !! self = Some t ->
  exists ring' t' cw ccw,
    InitiateProbing ring self vAddr = Ok ring'
    /\ TLBs ring' !! self = Some t'
    /\ ProbeQueue t' = ProbeQueue t ++ [cw; ccw]
    /\ (Direction cw = "clockwise" /\ TTL cw = 15)
    /\ (Direction ccw = "counterclockwise" /\ TTL ccw = 4)
    /\ (VirtualAddr cw = vAddr /\ VirtualAddr ccw = vAddr)
    /\ (SourceTLB cw = L1_ID t /\ SourceTLB ccw = L1_ID t)
    /\ (PReq_SEID cw = SEID ring /\ PReq_SEID ccw = SEID ring)
    /\ (forall k, k <> self -> TLBs ring' !! k = TLBs ring !! k).
Proof.
  intros Ht. unfold InitiateProbing. rewrite Ht. cbn.
  eexists _, _, _, _. split; [reflexivity|]. cbn.
  split; [apply list_lookup_insert_eq; eapply lookup_lt_Some, Ht|].
  split; [reflexivity|]. cbn. repeat (split; [auto|]).
  intros k Hk. apply list_lookup_insert_ne. congruence.
Qed.

(** ** [GetNextTLB] and [SendProbeRequest] *)

Lemma NewRingNoC_wellFormed seID now idgen build :
  ringWellFormed (NewRingNoC seID now idgen build).
Proof.
  constructor; [reflexivity | reflexivity |].
  intros k t Hk. cbn in Hk.
  do 16 (destruct k as [|k]; [injection Hk as <-; reflexivity|]).
  discriminate.
Qed.

Lemma index_in_range {A : Type} (l : list A) (i : Z) :
  0 <= i < Z.of_nat (length l) ->
  exists a, index l i = Ok (Z.to_nat i, a).
Proof.
  intros Hi. unfold index.
  destruct (Z.ltb_spec i 0); [lia|].
  destruct (lookup_lt_is_Some_2 l (Z.to_nat i)) as [a Ha]; [lia|].
  rewrite Ha. eauto.
Qed.

Lemma GetNextTLB_neighbour ring id direction :
  ringWellFormed ring ->
  0 <= id < 16 ->
  direction = "clockwise" \/ direction = "counterclockwise" ->
  GetNextTLB ring id direction = Ok (Some (Z.to_nat (nextHop id direction)))
  /\ 0 <= nextHop id direction < 16.
Proof.
  intros Hwf Hid Hdir. unfold GetNextTLB, nextHop, goRem.
  rewrite (wf_NumTLBs _ Hwf).
  assert (forall a, 0 <= a -> 0 <= a mod 16 < 16 /\
            exists x, index (TLBs ring) (Z.rem a 16)
                      = Ok (Z.to_nat (a mod 16), x)) as Hidx.
  { intros a Ha. rewrite Z.rem_mod_nonneg by lia.
    pose proof (Z.mod_pos_bound a 16 ltac:(lia)) as Hb. split; [exact Hb|].
    apply index_in_range. rewrite (wf_length _ Hwf). lia. }
  destruct Hdir as [->| ->]; cbn [String.eqb Ascii.eqb Bool.eqb Z.eqb].
  - destruct (Hidx (id + 1) ltac:(lia)) as (Hb & x & Hx).
    cbn [mbind result_bind]. rewrite Hx. cbn. auto.
  - destruct (Hidx (id - 1 + 16) ltac:(lia)) as (Hb & x & Hx).
    cbn [mbind result_bind]. rewrite Hx. cbn. auto.
Qed.

(** C5: on a ring as built, for a probe travelling clockwise or
    counterclockwise, [SendProbeRequest] is decided by the TTL.  With TTL 0
    the probe ends here and the call is [NotifyMiss] of the probed address
    on the originator, slot [SourceTLB].  With a positive TTL the request
    handed to the ring connection is the same probe with its TTL one lower,
    sent by this TLB to the neighbour (id+1) mod 16 clockwise and
    (id-1+16) mod 16 counterclockwise. *)
Theorem SendProbeRequest_by_TTL ring self t r :
  ringWellFormed ring ->
  TLBs ring !! self = Some t ->
  Direction r = "clockwise" \/ Direction r = "counterclockwise" ->
  (TTL r = 0 ->
   0 <= SourceTLB r < 16 ->
   SendProbeRequest ring self r
   = NotifyMiss ring (Z.to_nat (SourceTLB r)) (VirtualAddr r))
  /\ (0 < TTL r ->
      exists r',
        SendProbeRequest ring self r = Ok (conn_Send ring (MProbeRequest r'))
        /\ TTL r' = TTL r - 1
        /\ Dst (PReq_Meta r')
           = TLBNode (SEID ring) (nextHop (L1_ID t) (Direction r))
        /\ Src (PReq_Meta r') = TLBNode (SEID ring) (L1_ID t)
        /\ VirtualAddr r' = VirtualAddr r
        /\ Direction r' = Direction r
        /\ SourceTLB r' = SourceTLB r
        /\ PReq_SEID r' = PReq_SEID r).
Proof.
  intros Hwf Ht Hdir.
  pose proof (wf_ID _ Hwf self t Ht) as Hid.
  assert (0 <= L1_ID t < 16) as Hrange.
  { apply lookup_lt_Some in Ht. rewrite (wf_length _ Hwf) in Ht. lia. }
  destruct (GetNextTLB_neighbour ring (L1_ID t) (Direction r) Hwf Hrange Hdir)
    as [Hnext Hhop].
  unfold SendProbeRequest. rewrite Ht, Hnext. cbn [mbind result_bind].
  split.
  - intros Hzero Hsrc. rewrite Hzero. cbn [Z.ltb Z.compare].
    destruct (index_in_range (TLBs ring) (SourceTLB r)) as [a Ha].
    { rewrite (wf_length _ Hwf). lia. }
    rewrite Ha. reflexivity.
  - intros Hpos. destruct (Z.ltb_spec 0 (TTL r)) as [_|]; [|lia].
    eexists. split; [reflexivity|]. cbn.
    rewrite Z2Nat.id by lia. rewrite <- Hid. repeat split.
Qed.

(** ** The ring-hit path of a translation *)

(** Every response [ReceiveProbeResponse] sends up answers the id of one of
    the waiting client requests. *)
Lemma respondLoop_answers_request_ids now pg reqs port idgen :
  exists sent,
    outgoing (respondLoop now pg reqs port idgen).1 = outgoing port ++ sent
    /\ Forall (answers reqs pg) sent.
Proof.
  revert port idgen.
  induction reqs as [|q reqs IH]; intros port idgen; cbn [respondLoop].
  - exists []. rewrite app_nil_r. split; [reflexivity | constructor].
  - unfold buildTranslationRsp, Generate, Port_Send.
    assert (forall sent, Forall (answers reqs pg) sent ->
                         Forall (answers (q :: reqs) pg) sent) as Hweak.
    { intros sent Hsent. eapply Forall_impl; [exact Hsent|].
      intros m (rsp & q0 & -> & Hin & Hrest). exists rsp, q0.
      split; [reflexivity|]. split; [apply list_elem_of_further, Hin|].
      exact Hrest. }
    destruct (length (outgoing port) <? outCap port)%nat.
    + match goal with
      | |- context [respondLoop _ _ _ ?p ?ig] =>
          destruct (IH p ig) as (sent & Hout & Hall)
      end.
      cbn [outgoing] in Hout.
      eexists (_ :: sent). split.
      * rewrite Hout, <- app_assoc. reflexivity.
      * constructor; [|apply Hweak, Hall].
        eexists _, q. split; [reflexivity|].
        split; [apply list_elem_of_here|]. repeat split.
    + destruct (IH port (N.succ idgen)) as (sent & Hout & Hall).
      exists sent. split; [exact Hout | apply Hweak, Hall].
Qed.

Import Sample.

(** ** Runs on the sample ring *)

Lemma NotifyMiss_sends_whenever_accepted_witness :
  reqToBottom (tlb.mkEntry [req7] (Some fetch7)) = Some fetch7
  /\ exists sent,
       outgoing (bottomPort (base (NotifyMiss_at 2 1 tlbEscalated 4096).1))
       = [MTranslationReq fetch7] ++ sent
       /\ length sent = 1%nat.
Proof.
  split; [reflexivity|].
  destruct (NotifyMiss_sends_whenever_accepted 2 1 tlbEscalated 4096
              (tlb.mkEntry [req7] (Some fetch7)))
    as (sent & Hout & Hlen & _).
  - vm_compute. reflexivity.
  - exists sent. split; [exact Hout | exact Hlen].
Defined.

(** C1 as stated fails: the first [NotifyMiss] sets [reqToBottom] and sends
    one request out of the bottom port; the second one, for the same
    address, sends another. *)
Lemma NotifyMiss_second_call_sends_again :
  exists ring1 t1 entry1 ring2 t2,
    NotifyMiss ringMiss 0 4096 = Ok ring1
    /\ TLBs ring1 !! 0%nat = Some t1
    /\ MSHR_Query (mshr (base t1)) 0 4096 = Some entry1
    /\ reqToBottom entry1 <> None
    /\ length (outgoing (bottomPort (base t1))) = 1%nat
    /\ NotifyMiss ring1 0 4096 = Ok ring2
    /\ TLBs ring2 !! 0%nat = Some t2
    /\ length (outgoing (bottomPort (base t2))) = 2%nat.
Proof.
  eexists _, _, _, _, _.
  split; [vm_compute; reflexivity|]. split; [reflexivity|].
  split; [vm_compute; reflexivity|]. split; [discriminate|].
  split; [reflexivity|]. split; [vm_compute; reflexivity|].
  split; reflexivity.
Qed.

Lemma InitiateProbing_enqueues_two_witness :
  exists ring' t',
    InitiateProbing ring0 3 4096 = Ok ring'
    /\ TLBs ring' !! 3%nat = Some t'
    /\ length (ProbeQueue t') = 2%nat.
Proof.
  destruct (InitiateProbing_enqueues_two ring0 3
              (mkL1TLB (sampleTLB 3) 3 (replicate 24 zeroPage) []) 4096)
    as (ring' & t' & cw & ccw & Hrun & Ht' & Hq & _).
  - reflexivity.
  - exists ring', t'. split; [exact Hrun|]. split; [exact Ht'|].
    rewrite Hq. reflexivity.
Defined.

Lemma SendProbeRequest_by_TTL_witness :
  SendProbeRequest ring0 5 (probeCW 0) = NotifyMiss ring0 3 4096
  /\ exists r',
       SendProbeRequest ring0 5 (probeCW 2)
       = Ok (conn_Send ring0 (MProbeRequest r'))
       /\ TTL r' = 1
       /\ Dst (PReq_Meta r') = TLBNode 0 6.
Proof.
  split.
  - refine (proj1 (SendProbeRequest_by_TTL ring0 5
                     (mkL1TLB (sampleTLB 5) 5 (replicate 24 zeroPage) [])
                     (probeCW 0) _ _ _) _ _).
    + apply NewRingNoC_wellFormed.
    + reflexivity.
    + left. reflexivity.
    + reflexivity.
    + cbn. lia.
  - destruct (proj2 (SendProbeRequest_by_TTL ring0 5
                       (mkL1TLB (sampleTLB 5) 5 (replicate 24 zeroPage) [])
                       (probeCW 2) (NewRingNoC_wellFormed _ _ _ _)
                       eq_refl (or_introl eq_refl)))
      as (r' & Hrun & Httl & Hdst & _).
    + cbn. lia.
    + exists r'. split; [exact Hrun|]. split; [exact Httl | exact Hdst].
Defined.

(** C9 on the code: nothing bounds the probe queue.  Nine misses in a row at
    TLB 0 of a fresh ring leave eighteen probes queued; and a TLB holding
    sixteen probes that receives a probe it cannot answer queues a
    seventeenth. *)
Theorem ProbeQueue_exceeds_sixteen :
  (exists ring' t',
      initiateMany 9 ring0 0 4096 = Ok ring'
      /\ TLBs ring' !! 0%nat = Some t'
      /\ length (ProbeQueue t') = 18%nat)
  /\ (exists ring8 t8 ring' t',
         initiateMany 8 ring0 0 4096 = Ok ring8
         /\ TLBs ring8 !! 0%nat = Some t8
         /\ length (ProbeQueue t8) = 16%nat
         /\ ReceiveProbeRequest ring8 0 (probeCW 2) 3 = Ok ring'
         /\ TLBs ring' !! 0%nat = Some t'
         /\ length (ProbeQueue t') = 17%nat).
Proof.
  split.
  - eexists _, _. split; [vm_compute; reflexivity|].
    split; reflexivity.
  - eexists _, _, _, _. split; [vm_compute; reflexivity|].
    split; [reflexivity|]. split; [reflexivity|].
    split; [vm_compute; reflexivity|]. split; reflexivity.
Qed.

End RingSpec.

(** * Messages of an unsupported type *)

Module DispatchSpec.
Import Sample.

(** C8, as the code has it: the GMMU aborts on a message of an unsupported
    type retrieved from either of its ports, with a diagnostic that names the
    type; the ring dispatcher does not abort on a message that is neither a
    probe request nor a probe response: it returns false and leaves the ring
    as it was. *)
Theorem unsupported_message_handling {PT F : Type}
    `{gmmu.PageTableOps PT} `{gmmu.FilterOps F}
    (g : gmmu.Comp PT F) (ring : tlb.RingNoC) (m : Msg) (rest : list Msg)
    (now : VTimeInSec) :
  (Z.of_nat (length (gmmu.walkingTranslations g)) < gmmu.maxRequestsInFlight g ->
   incoming (gmmu.topPort g) = m :: rest ->
   (forall r, m <> MTranslationReq r) ->
   gmmu.parseFromTop now g
   = Panic ("gmmu cannot handle request of type " +:+ typeOf m))
  /\ (CanSend (gmmu.topSender g) 1 = true ->
      incoming (gmmu.bottomPort g) = m :: rest ->
      (forall r, m <> MTranslationRsp r) ->
      gmmu.fetchFromBottom now g
      = Panic ("gmmu canot handle request of type " +:+ typeOf m))
  /\ ((forall r, m <> MProbeRequest r) ->
      (forall r, m <> MProbeResponse r) ->
      tlb.DeliverMessage ring m now = Ok (ring, false)).
Proof.
  split; [|split].
  - apply GmmuSpec.parseFromTop_unsupported.
  - apply GmmuSpec.fetchFromBottom_unsupported.
  - intros Hreq Hrsp. destruct m; try reflexivity.
    + exfalso. eapply Hreq. reflexivity.
    + exfalso. eapply Hrsp. reflexivity.
Qed.

Lemma unsupported_message_handling_witness :
  gmmu.parseFromTop 1
    (gmmu.with_topPort gmmu0 (mkPort "GMMU.ToTop" [strayMsg] [] 4096))
  = Panic "gmmu cannot handle request of type *sim.GeneralRsp"
  /\ gmmu.fetchFromBottom 1
       (gmmu.with_bottomPort gmmu0
          (mkPort "GMMU.BottomPort" [MTranslationReq req7] [] 4096))
     = Panic "gmmu canot handle request of type *vm.TranslationReq"
  /\ tlb.DeliverMessage ring0 strayMsg 1 = Ok (ring0, false).
Proof.
  split; [|split].
  - refine (proj1 (unsupported_message_handling
                     (gmmu.with_topPort gmmu0
                        (mkPort "GMMU.ToTop" [strayMsg] [] 4096))
                     ring0 strayMsg [] 1) _ _ _).
    + cbn. lia.
    + reflexivity.
    + discriminate.
  - refine (proj1 (proj2 (unsupported_message_handling
                     (gmmu.with_bottomPort gmmu0
                        (mkPort "GMMU.BottomPort" [MTranslationReq req7] []
                           4096))
                     ring0 (MTranslationReq req7) [] 1)) _ _ _).
    + reflexivity.
    + reflexivity.
    + discriminate.
  - refine (proj2 (proj2 (unsupported_message_handling gmmu0 ring0 strayMsg
                            [] 1)) _ _); discriminate.
Defined.

(** C8 as stated fails at the ring dispatcher: a message of an unsupported
    type is turned away with [false], without a panic. *)
Lemma DeliverMessage_ignores_unsupported :
  typeOf strayMsg = "*sim.GeneralRsp"
  /\ tlb.DeliverMessage ring0 strayMsg 1 = Ok (ring0, false)
  /\ forall diagnostic, tlb.DeliverMessage ring0 strayMsg 1 <> Panic diagnostic.
Proof.
  split; [reflexivity|]. split; [reflexivity|]. discriminate.
Qed.

End DispatchSpec.

(** * Further properties of the GMMU pipeline *)

Module GmmuMore.
Import gmmu GmmuProps MoreProps.

(** ** The filter key *)

Lemma byteOfZ_value z : Z.of_N (Byte.to_N (byteOfZ z)) = z mod 256.
Proof.
  unfold byteOfZ.
  pose proof (Z.mod_pos_bound z 256 ltac:(lia)) as Hb.
  destruct (Byte.of_N (Z.to_N (z mod 256))) as [b|] eqn:E; cbn.
  - apply Byte.to_of_N in E. rewrite E. lia.
  - apply Byte.of_N_None_iff in E. lia.
Qed.

Lemma putLittleEndian_length n v : length (putLittleEndian n v) = n.
Proof.
  revert v. induction n as [|n IH]; intros v; cbn; [reflexivity|].
  f_equal. apply IH.
Qed.

Lemma getLittleEndian_put n v :
  getLittleEndian (putLittleEndian n v) = v mod 2 ^ (8 * Z.of_nat n).
Proof.
  revert v. induction n as [|n IH]; intros v.
  - cbn. symmetry. apply Z.mod_1_r.
  - cbn [putLittleEndian getLittleEndian].
    rewrite byteOfZ_value, IH, Z.shiftr_div_pow2 by lia.
    replace (8 * Z.of_nat (S n)) with (8 + 8 * Z.of_nat n) by lia.
    rewrite Z.pow_add_r by lia.
    change (2 ^ 8) with 256.
    rewrite Z.rem_mul_r by lia. reflexivity.
Qed.

(** X1: The 12-byte key determines the (VAddr, PID) pair it was made from: the
    key is always 12 bytes long, decoding gives back the address as a uint64
    and the PID as a uint32, so distinct pairs of a uint64 and a uint32 get
    distinct keys. *)
Theorem encodeVAddrPID_round_trip vAddr pid :
  length (encodeVAddrPID vAddr pid) = 12%nat
  /\ decodeVAddrPID (encodeVAddrPID vAddr pid)
     = (vAddr mod 2 ^ 64, pid mod 2 ^ 32)
  /\ (0 <= vAddr < 2 ^ 64 -> 0 <= pid < 2 ^ 32 ->
      forall vAddr' pid',
        0 <= vAddr' < 2 ^ 64 -> 0 <= pid' < 2 ^ 32 ->
        encodeVAddrPID vAddr pid = encodeVAddrPID vAddr' pid' ->
        vAddr = vAddr' /\ pid = pid').
Proof.
  assert (forall v p,
            decodeVAddrPID (encodeVAddrPID v p)
            = (v mod 2 ^ 64, p mod 2 ^ 32)) as Hdec.
  { intros v p. unfold decodeVAddrPID, encodeVAddrPID.
    rewrite take_app_length' by (symmetry; apply putLittleEndian_length).
    rewrite drop_app_length' by (symmetry; apply putLittleEndian_length).
    rewrite !getLittleEndian_put.
    rewrite !Z.mod_mod by lia. reflexivity. }
  split; [|split].
  - unfold encodeVAddrPID.
    rewrite length_app, !putLittleEndian_length. reflexivity.
  - apply Hdec.
  - intros Hv Hp v' p' Hv' Hp' Heq.
    pose proof (Hdec vAddr pid) as H1. rewrite Heq, Hdec in H1.
    rewrite !Z.mod_small in H1 by lia.
    injection H1 as -> ->. auto.
Qed.

Lemma encodeVAddrPID_round_trip_witness :
  decodeVAddrPID (encodeVAddrPID 4096 7) = (4096, 7)
  /\ encodeVAddrPID 4096 7 <> encodeVAddrPID 4096 8.
Proof.
  split; [vm_compute; reflexivity|].
  intros Heq.
  destruct (proj2 (proj2 (encodeVAddrPID_round_trip 4096 7))
              ltac:(lia) ltac:(lia) 4096 8 ltac:(lia) ltac:(lia) Heq)
    as [_ Hpid].
  discriminate Hpid.
Defined.

(** ** The compaction of the walking list *)

Lemma toRemove_elem rm i : toRemove rm i = true <-> i ∈ rm.
Proof.
  induction rm as [|a rm IH]; cbn [toRemove].
  - split; [discriminate | intros Hin; inversion Hin].
  - destruct (Nat.eqb_spec a i) as [->|Hne].
    + split; [intros _; apply list_elem_of_here | reflexivity].
    + rewrite IH. split; [apply list_elem_of_further|].
      intros Hin. apply elem_of_cons in Hin as [Heq|Hin]; [congruence|exact Hin].
Qed.

(** X2: The compaction keeps, in their order, exactly the transactions whose
    index is not on the removal list; an index listed twice, or an index
    beyond the list, makes no difference. *)
Theorem compact_keeps_unlisted rm (l : list transaction) :
  compact rm 0 l
  = map snd
      (List.filter (fun p => negb (bool_decide (fst p ∈ rm)))
         (combine (seq 0 (length l)) l)).
Proof.
  generalize 0%nat as i. induction l as [|t l IH]; intros i;
    cbn [compact length seq combine List.filter map]; [reflexivity|].
  destruct (toRemove rm i) eqn:E.
  - apply toRemove_elem in E. rewrite bool_decide_eq_true_2 by exact E.
    cbn [negb]. apply IH.
  - rewrite bool_decide_eq_false_2.
    + cbn [negb map snd]. f_equal. apply IH.
    + cbn [fst]. intros Hin. apply toRemove_elem in Hin. congruence.
Qed.

Section Pipeline.

Context {PT F : Type} `{PageTableOps PT} `{FilterOps F}.

Implicit Types (g : Comp PT F) (now : VTimeInSec).

(** ** A tick with nothing to do *)

(** X3: A GMMU with an empty top sender, nothing waiting on its ports and an
    empty walking list is left exactly as it was by a tick, which reports no
    progress: the engine can let it rest. *)
Theorem Tick_idle now g : idle g -> Tick now g = Ok (g, false).
Proof.
  intros [Hs Ht Hb Hw Hr].
  destruct g as [dev tp bp low [buf cap] pt lat maxr walk rem rm flt idg].
  cbn in Hs, Ht, Hb, Hw, Hr. subst buf walk rm.
  unfold Tick, Sender_Tick, with_topPort, with_topSender. cbn.
  assert (parseFromTop now
            (mkComp dev tp bp low (mkSender [] cap) pt lat maxr [] rem [] flt idg)
          = Ok (mkComp dev tp bp low (mkSender [] cap) pt lat maxr [] rem []
                  flt idg, false)) as Hparse.
  { unfold parseFromTop, Port_Retrieve. cbn. rewrite Ht.
    destruct (maxr <=? _); reflexivity. }
  rewrite Hparse. cbn.
  unfold fetchFromBottom, Port_Retrieve. cbn. rewrite ?Hb.
  destruct cap; reflexivity.
Qed.

(** ** The slow path of [parseFromTop] *)

(** X4: A request retrieved from the top port starts a page walk, and is not
    answered at once, whenever the fast path does not apply: the filter does
    not report the key, or it does but the page table has no such page (a
    false positive), or the page belongs to another device.  The walk starts
    with [cycleLeft = latency] and an empty page. *)
Theorem parseFromTop_starts_walk now g r rest :
  Z.of_nat (length (walkingTranslations g)) < maxRequestsInFlight g ->
  incoming (topPort g) = MTranslationReq r :: rest ->
  Filter_Lookup (cuckooFilter g)
    (encodeVAddrPID (Req_VAddr r) (Req_PID r)) = false
  \/ snd (PT_Find (pageTable g) (Req_PID r) (Req_VAddr r)) = false
  \/ Page_DeviceID (fst (PT_Find (pageTable g) (Req_PID r) (Req_VAddr r)))
     <> deviceID g ->
  exists g',
    parseFromTop now g = Ok (g', true)
    /\ walkingTranslations g'
       = walkingTranslations g ++ [mkTransaction (Some r) zeroPage (latency g)]
    /\ topSender g' = topSender g
    /\ incoming (topPort g') = rest.
Proof.
  intros Hlen Hin Hslow. unfold parseFromTop.
  destruct (Z.leb_spec (maxRequestsInFlight g)
              (Z.of_nat (length (walkingTranslations g)))) as [Hge|_];
    [lia|].
  unfold Port_Retrieve. rewrite Hin.
  cbn [topPort with_topPort cuckooFilter pageTable deviceID topSender].
  destruct (PT_Find (pageTable g) (Req_PID r) (Req_VAddr r)) as [pg found].
  cbn [fst snd] in Hslow.
  assert (Filter_Lookup (cuckooFilter g)
            (encodeVAddrPID (Req_VAddr r) (Req_PID r))
          && (found && (Page_DeviceID pg =? deviceID g)) = false) as Hno.
  { destruct Hslow as [-> | [-> | Hdev]]; [reflexivity| |].
    - apply andb_false_r.
    - apply Z.eqb_neq in Hdev. rewrite Hdev, andb_false_r.
      apply andb_false_r. }
  destruct (Filter_Lookup _ _); cbn [andb] in Hno.
  - rewrite Hno. eexists. split; [reflexivity|]. repeat split.
  - eexists. split; [reflexivity|]. repeat split.
Qed.

(** ** What [Build] makes of the builder's numbers *)

(** X5: A built GMMU never has a budget of 0 or a walk latency of 0: a builder
    that asks for 0 gets 16 requests in flight and 10 cycles of latency, any
    other number, negative ones too, is taken as it is.  The GMMU starts with
    no transaction walking or recorded, and uses the builder's page table
    when one was given. *)
Theorem Build_defaults name idgen (b : Builder PT) n :
  let byBudget := Build name idgen (WithMaxNumReqInFlight b n) in
  let byLatency := Build name idgen (WithPageWalkingLatency b n) in
  maxRequestsInFlight byBudget = (if n =? 0 then 16 else n)
  /\ maxRequestsInFlight byBudget <> 0
  /\ latency byLatency = (if n =? 0 then 10 else n)
  /\ latency byLatency <> 0
  /\ latency byBudget = latency (Build name idgen b)
  /\ maxRequestsInFlight byLatency = maxRequestsInFlight (Build name idgen b)
  /\ walkingTranslations (Build name idgen b) = []
  /\ remoteMemReqs (Build name idgen b) = ∅
  /\ (forall pt, pageTable (Build name idgen (WithPageTable b (Some pt))) = pt).
Proof.
  cbn. destruct (Z.eqb_spec n 0); repeat split; congruence || lia.
Qed.

(** ** Responses from the low module *)


Lemma handleTranslationRsp_result now g response g' b :
  handleTranslationRsp now g response = Ok (g', b) ->
  remoteMemReqs g'
  = delete (Page_VAddr (Rsp_Page response)) (remoteMemReqs g)
  /\ PT_Update (pageTable g) (Rsp_Page response) = Ok (pageTable g')
  /\ cuckooFilter g'
     = insertWithRetry (cuckooFilter g)
         (encodeVAddrPID (Page_VAddr (Rsp_Page response))
            (Page_PID (Rsp_Page response)))
  /\ deviceID g' = deviceID g.
Proof.
  unfold handleTranslationRsp, insertWithRetry. intros Hrun.
  destruct (PT_Update _ _) as [pt|msg]; [|discriminate].
  cbn [mbind result_bind cuckooFilter with_pageTable] in Hrun.
  destruct (Filter_Insert _ _) as [f1 [|]];
    destruct (req _); try discriminate; injection Hrun as <- _;
    repeat split.
Qed.


(** X7: When the page table finds what was written to it and the filter reports
    what it accepted, a response from the low module opens the fast path: if
    the filter took the key at the first try or at the retry after the reset,
    and the returned page belongs to this device, the next request for that
    (PID, VAddr) is answered at once from the page table with the returned
    page, without a walk. *)
Theorem remote_response_opens_fast_path now g response g1 b now' g2 r rest :
  findsUpdated -> reportsInserted ->
  let pg := Rsp_Page response in
  let key := encodeVAddrPID (Page_VAddr pg) (Page_PID pg) in
  handleTranslationRsp now g response = Ok (g1, b) ->
  snd (Filter_Insert (cuckooFilter g) key) = true
  \/ snd (Filter_Insert
            (Filter_Reset (fst (Filter_Insert (cuckooFilter g) key))) key)
     = true ->
  Page_DeviceID pg = deviceID g ->
  cuckooFilter g2 = cuckooFilter g1 ->
  pageTable g2 = pageTable g1 ->
  deviceID g2 = deviceID g1 ->
  Z.of_nat (length (walkingTranslations g2)) < maxRequestsInFlight g2 ->
  incoming (topPort g2) = MTranslationReq r :: rest ->
  Req_PID r = Page_PID pg -> Req_VAddr r = Page_VAddr pg ->
  CanSend (topSender g2) 1 = true ->
  exists g3,
    parseFromTop now' g2 = Ok (g3, true)
    /\ sbuf (topSender g3)
       = sbuf (topSender g2)
           ++ [rspFor now' g2 (Src (Req_Meta r)) (ID (Req_Meta r)) pg]
    /\ walkingTranslations g3 = walkingTranslations g2.
Proof.
  intros Hpt Hflt pg key Hrun Hins Hdev Hf2 Hp2 Hd2 Hlen Hin Hpid Hva Hcan.
  apply handleTranslationRsp_result in Hrun as (_ & Hpt1 & Hf1 & Hd1).
  fold pg in Hpt1, Hf1. fold key in Hf1.
  assert (Filter_Lookup (cuckooFilter g1) key = true) as Hlook.
  { rewrite Hf1. unfold insertWithRetry.
    destruct (Filter_Insert (cuckooFilter g) key) as [f1 ok] eqn:E1.
    cbn [fst snd] in Hins. destruct ok.
    - eapply Hflt, E1.
    - destruct Hins as [Hins|Hins]; [discriminate|].
      destruct (Filter_Insert (Filter_Reset f1) key) as [f2 ok2] eqn:E2.
      cbn [fst snd] in *. subst ok2. eapply Hflt, E2. }
  unfold parseFromTop.
  destruct (Z.leb_spec (maxRequestsInFlight g2)
              (Z.of_nat (length (walkingTranslations g2)))) as [Hge|_];
    [lia|].
  unfold Port_Retrieve. rewrite Hin.
  cbn [topPort with_topPort cuckooFilter pageTable deviceID topSender].
  rewrite Hva, Hpid, Hf2. fold key. rewrite Hlook.
  rewrite Hp2, (Hpt _ _ _ Hpt1). rewrite Hd2, Hd1, Hdev, Z.eqb_refl, Hcan.
  cbn [andb]. eexists. split; [reflexivity|]. split; reflexivity.
Qed.

(** ** The top sender is never overfilled *)

Lemma sendRspToTop_fits now g dst rspTo pg :
  CanSend (topSender g) 1 = true ->
  senderFits (sendRspToTop now g dst rspTo pg).
Proof.
  unfold CanSend, senderFits. intros Hcan. apply Nat.leb_le in Hcan.
  cbn. rewrite length_app. cbn. lia.
Qed.

Lemma parseFromTop_fits now g g' b :
  parseFromTop now g = Ok (g', b) -> senderFits g -> senderFits g'.
Proof.
  unfold parseFromTop. intros Hrun Hfit.
  destruct (_ <=? _); [injection Hrun as <- _; exact Hfit|].
  destruct (Port_Retrieve (topPort g)) as [[m|] port'];
    [|injection Hrun as <- _; exact Hfit].
  destruct m as [r| | | |]; try discriminate.
  cbn [cuckooFilter with_topPort pageTable deviceID topSender] in Hrun.
  destruct (Filter_Lookup _ _); [|injection Hrun as <- _; exact Hfit].
  destruct (PT_Find _ _ _) as [pg found].
  destruct (found && _); [|injection Hrun as <- _; exact Hfit].
  destruct (CanSend (topSender g) 1) eqn:Hcan;
    [|injection Hrun as <- _; exact Hfit].
  injection Hrun as <- _.
  apply (sendRspToTop_fits now (with_topPort g port')). exact Hcan.
Qed.

Lemma walkOne_fits now j g mp g' mp' :
  walkOne now j g mp = Ok (g', mp') -> senderFits g -> senderFits g'.
Proof.
  unfold walkOne. intros Hrun Hfit.
  destruct (walkingTranslations g !! j) as [t|]; [|discriminate].
  destruct (0 <? cycleLeft t); [injection Hrun as <- _; exact Hfit|].
  destruct (req t) as [r|] eqn:Hr; [|discriminate].
  destruct (PT_Find (pageTable g) (Req_PID r) (Req_VAddr r)) as [pg fnd]
    eqn:Hfind.
  destruct (Page_DeviceID pg =? deviceID g).
  - unfold finalizePageWalk in Hrun.
    destruct (walkingTranslations g !! j) as [walking|]; [|discriminate].
    destruct (req walking) as [r0|]; [|discriminate].
    destruct (PT_Find (pageTable g) (Req_PID r0) (Req_VAddr r0)) as [pg0 f0].
    unfold doPageWalkHit in Hrun.
    cbn [topSender with_walkingTranslations walkingTranslations] in Hrun.
    destruct (CanSend (topSender g) 1) eqn:Hcan; cbn [negb] in Hrun.
    + destruct (_ !! j) as [w|]; [|discriminate].
      destruct (req w) as [r1|]; [|discriminate].
      cbn in Hrun. injection Hrun as <- _.
      apply (sendRspToTop_fits now
               (with_walkingTranslations g
                  (<[j := mkTransaction (req walking) pg0 (cycleLeft walking)]>
                     (walkingTranslations g)))).
      exact Hcan.
    + cbn in Hrun. injection Hrun as <- _. exact Hfit.
  - unfold processRemoteMemReq in Hrun.
    destruct (walkingTranslations g !! j) as [t0|]; [|discriminate].
    destruct (req t0) as [walking|]; [|discriminate].
    cbn in Hrun.
    destruct (Port_Send _ _); cbn in Hrun; injection Hrun as <- _;
      exact Hfit.
Qed.

Lemma walkLoop_fits now idxs g mp g' mp' :
  walkLoop now idxs g mp = Ok (g', mp') -> senderFits g -> senderFits g'.
Proof.
  revert g mp. induction idxs as [|i idxs IH]; intros g mp Hrun Hfit;
    cbn [walkLoop] in Hrun.
  - injection Hrun as <- _. exact Hfit.
  - destruct (walkOne now i g mp) as [[g1 mp1]|] eqn:Hone; [|discriminate].
    cbn in Hrun. eapply IH; [exact Hrun|]. eapply walkOne_fits; eauto.
Qed.

Lemma fetchFromBottom_fits now g g' b :
  fetchFromBottom now g = Ok (g', b) -> senderFits g -> senderFits g'.
Proof.
  unfold fetchFromBottom. intros Hrun Hfit.
  destruct (CanSend (topSender g) 1) eqn:Hcan; cbn [negb] in Hrun;
    [|injection Hrun as <- _; exact Hfit].
  destruct (Port_Retrieve (bottomPort g)) as [[m|] port'];
    [|injection Hrun as <- _; exact Hfit].
  destruct m as [|response| | |]; try discriminate.
  unfold handleTranslationRsp in Hrun.
  destruct (PT_Update _ _) as [pt|msg]; [|discriminate].
  cbn [mbind result_bind cuckooFilter with_pageTable with_bottomPort] in Hrun.
  unfold CanSend in Hcan. apply Nat.leb_le in Hcan.
  destruct (Filter_Insert _ _) as [f1 [|]];
    destruct (req _); try discriminate; injection Hrun as <- _;
    unfold senderFits; cbn; rewrite length_app; cbn; lia.
Qed.

Lemma drain_shrinks buf p :
  (length (drain buf p).1.1 <= length buf)%nat.
Proof.
  revert p. induction buf as [|m buf IH]; intros p; cbn [drain]; [cbn; lia|].
  destruct (Port_Send p m) as [p'|]; [|cbn; lia].
  specialize (IH p'). destruct (drain buf p') as [[buf' p''] b].
  cbn in *. lia.
Qed.

Lemma Tick_fits now g g' b :
  Tick now g = Ok (g', b) -> senderFits g -> senderFits g'.
Proof.
  unfold Tick, Sender_Tick. intros Hrun Hfit.
  pose proof (drain_shrinks (sbuf (topSender g)) (topPort g)) as Hdrain.
  destruct (drain (sbuf (topSender g)) (topPort g)) as [[buf' p'] b0].
  cbn [fst] in Hdrain.
  set (g0 := with_topPort (with_topSender g (mkSender buf' _)) p') in *.
  assert (senderFits g0) as Hfit0.
  { unfold senderFits in *. cbn. lia. }
  destruct (parseFromTop now g0) as [[g1 b1]|] eqn:Hparse; [|discriminate].
  cbn in Hrun.
  destruct (walkPageTable now g1) as [[g2 b2]|] eqn:Hwalk; [|discriminate].
  cbn in Hrun.
  destruct (fetchFromBottom now g2) as [[g3 b3]|] eqn:Hfetch; [|discriminate].
  cbn in Hrun. injection Hrun as <- _.
  eapply fetchFromBottom_fits; [exact Hfetch|].
  unfold walkPageTable in Hwalk.
  destruct (walkLoop now _ g1 false) as [[gl mp]|] eqn:Hloop; [|discriminate].
  cbn in Hwalk. injection Hwalk as <- _.
  change (senderFits gl).
  eapply walkLoop_fits; [exact Hloop|].
  eapply parseFromTop_fits; eauto.
Qed.

(** X8: In every state a built GMMU can reach, the top sender's buffer holds no
    more messages than its capacity: every path that queues a response first
    asks [CanSend(1)], so the pipeline never overflows its own sender. *)
Theorem top_sender_within_capacity name idgen (b : Builder PT) g :
  reachable name idgen b g -> senderFits g.
Proof.
  induction 1 as [|g now g' progress _ IH Htick|g g' _ IH Henv].
  - unfold senderFits. cbn. lia.
  - eapply Tick_fits; eauto.
  - unfold senderFits in *. rewrite (env_topSender _ _ Henv). exact IH.
Qed.

(** ** The count-down of a walk *)

Lemma walkOne_keeps_flag now j g g' mp' :
  walkOne now j g true = Ok (g', mp') -> mp' = true.
Proof.
  unfold walkOne. intros Hrun.
  destruct (walkingTranslations g !! j) as [t|]; [|discriminate].
  destruct (0 <? cycleLeft t); [injection Hrun as _ <-; reflexivity|].
  destruct (req t) as [r|]; [|discriminate].
  destruct (PT_Find _ _ _) as [pg fnd].
  destruct (Page_DeviceID pg =? deviceID g).
  - destruct (finalizePageWalk now j g) as [[g1 b]|]; [|discriminate].
    injection Hrun as _ <-. apply orb_true_r.
  - destruct (processRemoteMemReq now j g) as [[g1 b]|]; [|discriminate].
    injection Hrun as _ <-. apply orb_true_r.
Qed.

Lemma walkLoop_keeps_flag now idxs g g' mp' :
  walkLoop now idxs g true = Ok (g', mp') -> mp' = true.
Proof.
  revert g. induction idxs as [|i idxs IH]; intros g Hrun;
    cbn [walkLoop] in Hrun.
  - injection Hrun as _ <-. reflexivity.
  - destruct (walkOne now i g true) as [[g1 mp1]|] eqn:Hone; [|discriminate].
    cbn in Hrun. apply walkOne_keeps_flag in Hone. subst mp1.
    eapply IH, Hrun.
Qed.

(** X9: A walking transaction that still has cycles to wait is kept by a walk
    step with exactly one cycle less, its request and page untouched, whatever
    happens to the other transactions in that step (they may be answered,
    escalated or removed); and the step reports progress. *)
Theorem walkPageTable_counts_down now g i t :
  toRemoveFromPTW g = [] ->
  reqsPresent g ->
  walkingTranslations g !! i = Some t ->
  0 < cycleLeft t ->
  exists g',
    walkPageTable now g = Ok (g', true)
    /\ countDown t ∈ walkingTranslations g'.
Proof.
  intros Hnil Hp Hi Hpos.
  assert (i < length (walkingTranslations g))%nat as Hlt
    by (eapply lookup_lt_Some, Hi).
  set (n := length (walkingTranslations g)) in *.
  assert (seq 0 n = seq 0 i ++ i :: seq (S i) (n - S i)) as Hsplit.
  { replace n with (i + S (n - S i))%nat at 1 by lia.
    rewrite seq_app. reflexivity. }
  destruct (GmmuSpec.walkLoop_total now (seq 0 i) g false Hp) as (gi & mpi & Hpre).
  { intros j Hj. apply elem_of_seq in Hj. fold n. lia. }
  pose proof (GmmuSpec.walkLoop_frame _ _ _ _ _ _ Hpre) as Fpre.
  assert (i ∉ seq 0 i) as Hnotin by (rewrite elem_of_seq; lia).
  assert (walkingTranslations gi !! i = Some t) as Hi'
    by (rewrite (frame_other _ _ _ Fpre i Hnotin); exact Hi).
  set (g1 := with_walkingTranslations gi
               (<[i := countDown t]> (walkingTranslations gi))).
  assert (walkOne now i gi mpi = Ok (g1, true)) as Hone.
  { unfold walkOne. rewrite Hi'.
    destruct (Z.ltb_spec 0 (cycleLeft t)); [reflexivity | lia]. }
  pose proof (GmmuSpec.walkOne_frame _ _ _ _ _ _ Hone) as Fone.
  destruct (GmmuSpec.walkLoop_total now (seq (S i) (n - S i)) g1 true) as
    (gl & mp & Hpost).
  { eapply GmmuSpec.loopFrame_reqsPresent; [exact Fone|].
    eapply GmmuSpec.loopFrame_reqsPresent; [exact Fpre | exact Hp]. }
  { intros j Hj. apply elem_of_seq in Hj.
    rewrite (frame_length _ _ _ Fone), (frame_length _ _ _ Fpre).
    fold n. lia. }
  pose proof (walkLoop_keeps_flag _ _ _ _ _ Hpost). subst mp.
  pose proof (GmmuSpec.walkLoop_frame _ _ _ _ _ _ Hpost) as Fpost.
  assert (i ∉ seq (S i) (n - S i)) as Hnotin' by (rewrite elem_of_seq; lia).
  assert (walkLoop now (seq 0 n) g false = Ok (gl, true)) as Hloop.
  { rewrite Hsplit, GmmuSpec.walkLoop_app, Hpre. cbn. rewrite Hone. cbn.
    exact Hpost. }
  eexists. split.
  - unfold walkPageTable. fold n. rewrite Hloop. reflexivity.
  - cbn. eapply GmmuSpec.compact_keeps.
    + rewrite (frame_other _ _ _ Fpost i Hnotin'). unfold g1. cbn.
      apply list_lookup_insert_eq.
      rewrite (frame_length _ _ _ Fpre). exact Hlt.
    + cbn. rewrite (frame_toRemove _ _ _ Fpost i Hnotin').
      unfold g1. cbn.
      rewrite (frame_toRemove _ _ _ Fpre i Hnotin), Hnil. reflexivity.
Qed.

(** ** The escalation of a walk to the low module *)

Lemma bottomFrame_refl g : bottomFrame g g.
Proof.
  constructor; try reflexivity; [|auto].
  exists []. symmetry. apply app_nil_r.
Qed.

Lemma bottomFrame_trans g g1 g2 :
  bottomFrame g g1 -> bottomFrame g1 g2 -> bottomFrame g g2.
Proof.
  intros [L1 N1 C1 [e1 O1] R1] [L2 N2 C2 [e2 O2] R2].
  constructor; try congruence; [|auto].
  exists (e1 ++ e2). rewrite O2, O1. symmetry. apply app_assoc.
Qed.

Lemma walkOne_bottomFrame now j g mp g' mp' :
  walkOne now j g mp = Ok (g', mp') -> bottomFrame g g'.
Proof.
  unfold walkOne. intros Hrun.
  destruct (walkingTranslations g !! j) as [t|]; [|discriminate].
  destruct (0 <? cycleLeft t).
  { injection Hrun as <- _. constructor; cbn; try reflexivity; [|auto].
    exists []. symmetry. apply app_nil_r. }
  destruct (req t) as [r|]; [|discriminate].
  destruct (PT_Find (pageTable g) (Req_PID r) (Req_VAddr r)) as [pg fnd].
  destruct (Page_DeviceID pg =? deviceID g).
  - unfold finalizePageWalk in Hrun.
    destruct (walkingTranslations g !! j) as [walking|]; [|discriminate].
    destruct (req walking) as [r0|]; [|discriminate].
    destruct (PT_Find (pageTable g) (Req_PID r0) (Req_VAddr r0)) as [pg0 f0].
    unfold doPageWalkHit in Hrun.
    cbn [topSender with_walkingTranslations walkingTranslations] in Hrun.
    destruct (CanSend (topSender g) 1); cbn [negb] in Hrun.
    + destruct (_ !! j) as [w|]; [|discriminate].
      destruct (req w) as [r1|]; [|discriminate].
      cbn in Hrun. injection Hrun as <- _.
      constructor; cbn; try reflexivity; [|auto].
      exists []. symmetry. apply app_nil_r.
    + cbn in Hrun. injection Hrun as <- _.
      constructor; cbn; try reflexivity; [|auto].
      exists []. symmetry. apply app_nil_r.
  - unfold processRemoteMemReq in Hrun.
    destruct (walkingTranslations g !! j) as [t0|]; [|discriminate].
    destruct (req t0) as [walking|]; [|discriminate].
    cbn in Hrun. unfold Port_Send in Hrun.
    assert (forall k,
              is_Some (remoteMemReqs g !! k) ->
              is_Some (<[Req_VAddr walking := t0]> (remoteMemReqs g) !! k))
      as Hrec.
    { intros k Hk. destruct (decide (Req_VAddr walking = k)) as [Heq|Hne].
      - subst k. rewrite lookup_insert_eq. eauto.
      - rewrite lookup_insert_ne by exact Hne. exact Hk. }
    destruct (_ <? _)%nat; cbn in Hrun; injection Hrun as <- _;
      constructor; cbn; try reflexivity; eauto.
    exists []. symmetry. apply app_nil_r.
Qed.

Lemma walkLoop_bottomFrame now idxs g mp g' mp' :
  walkLoop now idxs g mp = Ok (g', mp') -> bottomFrame g g'.
Proof.
  revert g mp. induction idxs as [|i idxs IH]; intros g mp Hrun;
    cbn [walkLoop] in Hrun.
  - injection Hrun as <- _. apply bottomFrame_refl.
  - destruct (walkOne now i g mp) as [[g1 mp1]|] eqn:Hone; [|discriminate].
    cbn in Hrun.
    eapply bottomFrame_trans; [eapply walkOne_bottomFrame, Hone|].
    eapply IH, Hrun.
Qed.

Lemma walkOne_remote now i g mp t r pg fnd :
  walkingTranslations g !! i = Some t ->
  cycleLeft t = 0 ->
  req t = Some r ->
  PT_Find (pageTable g) (Req_PID r) (Req_VAddr r) = (pg, fnd) ->
  Page_DeviceID pg <> deviceID g ->
  let room :=
    (length (outgoing (bottomPort g)) <? outCap (bottomPort g))%nat in
  exists g1 mp1,
    walkOne now i g mp = Ok (g1, mp1)
    /\ walkingTranslations g1 = walkingTranslations g
    /\ remoteMemReqs g1 = <[Req_VAddr r := t]> (remoteMemReqs g)
    /\ toRemove (toRemoveFromPTW g1) i
       = toRemove (toRemoveFromPTW g) i || room
    /\ (room = true ->
        outgoing (bottomPort g1)
        = outgoing (bottomPort g) ++ [remoteReqFor now g r])
    /\ (room = false -> bottomPort g1 = bottomPort g).
Proof.
  intros Hi Hc Hr Hfind Hdev. cbn zeta.
  unfold walkOne. rewrite Hi, Hc. cbn [Z.ltb Z.compare].
  rewrite Hr, Hfind. apply Z.eqb_neq in Hdev. rewrite Hdev.
  unfold processRemoteMemReq. rewrite Hi, Hr.
  unfold buildTranslationReq, Generate, Port_Send.
  cbn [bottomPort with_idGenerator with_remoteMemReqs].
  destruct (length (outgoing (bottomPort g)) <? outCap (bottomPort g))%nat;
    cbn.
  - eexists _, _. split; [reflexivity|]. cbn.
    split; [reflexivity|]. split; [reflexivity|].
    split; [rewrite GmmuSpec.toRemove_app, Nat.eqb_refl; reflexivity|].
    split; [reflexivity | discriminate].
  - eexists _, _. split; [reflexivity|]. cbn.
    split; [reflexivity|]. split; [reflexivity|].
    split; [symmetry; apply orb_false_r|].
    split; [discriminate | reflexivity].
Qed.

Lemma compact_drops rm (l : list transaction) i0 k :
  (k < length l)%nat -> toRemove rm (i0 + k) = true ->
  (length (compact rm i0 l) < length l)%nat.
Proof.
  revert i0 k. induction l as [|t l IH]; intros i0 k Hk Hrm; cbn in Hk;
    [lia|].
  cbn [compact]. destruct k as [|k].
  - rewrite Nat.add_0_r in Hrm. rewrite Hrm.
    pose proof (GmmuSpec.compact_length rm (S i0) l). cbn [length]. lia.
  - assert (length (compact rm (S i0) l) < length l)%nat as Hlt.
    { apply (IH (S i0) k); [lia|]. rewrite <- Hrm. f_equal. lia. }
    destruct (toRemove rm i0); cbn [length]; lia.
Qed.

(** X10: A walking transaction whose [cycleLeft] is 0 and whose page is not owned
    by this device (or is not in the page table, the zero page being no
    device's unless the device id is 0) is escalated: the transaction is
    recorded under its virtual address, and a request with the client's PID,
    VAddr and DeviceID for the low module is sent out of the bottom port.
    When the port accepts, the transaction leaves the walking list in that
    step; when the port is busy, the transaction stays in the list as it is
    and is tried again at the next step, but it has been recorded all the
    same. *)
Theorem walkPageTable_escalates_remote now g i t r pg fnd :
  toRemoveFromPTW g = [] ->
  reqsPresent g ->
  walkingTranslations g !! i = Some t ->
  cycleLeft t = 0 ->
  req t = Some r ->
  PT_Find (pageTable g) (Req_PID r) (Req_VAddr r) = (pg, fnd) ->
  Page_DeviceID pg <> deviceID g ->
  exists gi mpi g' mp,
    walkLoop now (seq 0 i) g false = Ok (gi, mpi)
    /\ walkPageTable now g = Ok (g', mp)
    /\ is_Some (remoteMemReqs g' !! Req_VAddr r)
    /\ let room :=
         (length (outgoing (bottomPort gi)) <? outCap (bottomPort gi))%nat in
       (room = true ->
        remoteReqFor now gi r ∈ outgoing (bottomPort g')
        /\ (length (walkingTranslations g')
            < length (walkingTranslations g))%nat
        /\ mp = true)
       /\ (room = false -> t ∈ walkingTranslations g').
Proof.
  intros Hnil Hp Hi Hc Hr Hfind Hdev.
  assert (i < length (walkingTranslations g))%nat as Hlt
    by (eapply lookup_lt_Some, Hi).
  set (n := length (walkingTranslations g)) in *.
  assert (seq 0 n = seq 0 i ++ i :: seq (S i) (n - S i)) as Hsplit.
  { replace n with (i + S (n - S i))%nat at 1 by lia.
    rewrite seq_app. reflexivity. }
  destruct (GmmuSpec.walkLoop_total now (seq 0 i) g false Hp)
    as (gi & mpi & Hpre).
  { intros j Hj. apply elem_of_seq in Hj. fold n. lia. }
  pose proof (GmmuSpec.walkLoop_frame _ _ _ _ _ _ Hpre) as Fpre.
  assert (i ∉ seq 0 i) as Hnotin by (rewrite elem_of_seq; lia).
  assert (walkingTranslations gi !! i = Some t) as Hi'
    by (rewrite (frame_other _ _ _ Fpre i Hnotin); exact Hi).
  destruct (walkOne_remote now i gi mpi t r pg fnd Hi' Hc Hr) as
    (g1 & mp1 & Hone & Hsame & Hrec & Hrm & Hsent & Hbusy).
  { rewrite (frame_pageTable _ _ _ Fpre). exact Hfind. }
  { rewrite (frame_deviceID _ _ _ Fpre). exact Hdev. }
  pose proof (GmmuSpec.walkOne_frame _ _ _ _ _ _ Hone) as Fone.
  destruct (GmmuSpec.walkLoop_total now (seq (S i) (n - S i)) g1 mp1) as
    (gl & mp & Hpost).
  { eapply GmmuSpec.loopFrame_reqsPresent; [exact Fone|].
    eapply GmmuSpec.loopFrame_reqsPresent; [exact Fpre | exact Hp]. }
  { intros j Hj. apply elem_of_seq in Hj.
    rewrite (frame_length _ _ _ Fone), (frame_length _ _ _ Fpre).
    fold n. lia. }
  pose proof (GmmuSpec.walkLoop_frame _ _ _ _ _ _ Hpost) as Fpost.
  pose proof (walkLoop_bottomFrame _ _ _ _ _ _ Hpost) as Bpost.
  assert (i ∉ seq (S i) (n - S i)) as Hnotin' by (rewrite elem_of_seq; lia).
  assert (walkLoop now (seq 0 n) g false = Ok (gl, mp)) as Hloop.
  { rewrite Hsplit, GmmuSpec.walkLoop_app, Hpre. cbn. rewrite Hone. cbn.
    exact Hpost. }
  assert (toRemove (toRemoveFromPTW gl) i
          = (length (outgoing (bottomPort gi)) <? outCap (bottomPort gi))%nat)
    as Hdrop.
  { rewrite (frame_toRemove _ _ _ Fpost i Hnotin'), Hrm.
    rewrite (frame_toRemove _ _ _ Fpre i Hnotin), Hnil. reflexivity. }
  assert (walkingTranslations gl !! i = Some t) as Hfinal.
  { rewrite (frame_other _ _ _ Fpost i Hnotin'), Hsame. exact Hi'. }
  exists gi, mpi,
    (with_toRemoveFromPTW
       (with_walkingTranslations gl
          (compact (toRemoveFromPTW gl) 0 (walkingTranslations gl))) []), mp.
  split; [exact Hpre|].
  split; [unfold walkPageTable; fold n; rewrite Hloop; reflexivity|].
  split.
  { cbn. apply (bottom_recorded _ _ Bpost). rewrite Hrec.
    rewrite lookup_insert_eq. eauto. }
  cbn zeta. split.
  - intros Hroom. split; [|split].
    + cbn. destruct (bottom_outgoing _ _ Bpost) as [extra Hout].
      rewrite Hout, (Hsent Hroom). apply elem_of_app. left.
      apply elem_of_app. right. apply list_elem_of_here.
    + cbn. subst n. rewrite <- (frame_length _ _ _ Fpre).
      rewrite <- (frame_length _ _ _ Fone), <- (frame_length _ _ _ Fpost).
      eapply (compact_drops _ _ 0 i).
      * eapply lookup_lt_Some, Hfinal.
      * cbn. rewrite Hdrop. exact Hroom.
    + assert (mp1 = true) as ->.
      { unfold walkOne in Hone. rewrite Hi', Hc in Hone.
        cbn [Z.ltb Z.compare] in Hone. rewrite Hr in Hone.
        rewrite (frame_pageTable _ _ _ Fpre), Hfind in Hone.
        rewrite (frame_deviceID _ _ _ Fpre) in Hone.
        apply Z.eqb_neq in Hdev. rewrite Hdev in Hone.
        unfold processRemoteMemReq in Hone. rewrite Hi', Hr in Hone.
        cbn in Hone. unfold Port_Send in Hone. rewrite Hroom in Hone.
        cbn in Hone. injection Hone as _ <-. reflexivity. }
      eapply walkLoop_keeps_flag, Hpost.
  - intros Hbusy'. cbn. eapply GmmuSpec.compact_keeps; [exact Hfinal|].
    cbn. rewrite Hdrop. exact Hbusy'.
Qed.

End Pipeline.

(** ** Runs on the sample GMMU *)

Lemma Tick_idle_witness : Tick 3 Sample.gmmu0 = Ok (Sample.gmmu0, false).
Proof.
  apply Tick_idle. constructor; reflexivity.
Defined.

Lemma parseFromTop_starts_walk_witness :
  exists g',
    parseFromTop 5 Sample.gmmuArrived = Ok (g', true)
    /\ walkingTranslations g'
       = [mkTransaction (Some Sample.req7) zeroPage 10].
Proof.
  destruct (parseFromTop_starts_walk 5 Sample.gmmuArrived Sample.req7 [])
    as (g' & Hrun & Hwalk & _).
  - cbn. lia.
  - reflexivity.
  - left. reflexivity.
  - exists g'. split; [exact Hrun | exact Hwalk].
Defined.


Lemma gmmuAfterTick_reachable :
  reachable "GMMU" 100 (mkBuilder 12 None 16 10 1 (PortNamed "Low") 64)
    Sample.gmmuAfterTick.
Proof.
  eapply reach_Tick with (g := Sample.gmmuArrived) (now := 1)
                         (progress := true).
  - eapply reach_env; [apply reach_Build|]. constructor; reflexivity.
  - vm_compute. reflexivity.
Qed.

Lemma top_sender_within_capacity_witness : senderFits Sample.gmmuAfterTick.
Proof.
  exact (top_sender_within_capacity _ _ _ _ gmmuAfterTick_reachable).
Defined.

Lemma single_walk_reqsPresent g0 r pg c :
  reqsPresent
    (with_walkingTranslations (PT := gmap (Z * Z) Page)
       (F := Sample.boundedFilter) g0 [mkTransaction (Some r) pg c]).
Proof.
  intros k t Hk. destruct k as [|k]; cbn in Hk.
  - injection Hk as <-. discriminate.
  - discriminate.
Qed.

Lemma walkPageTable_counts_down_witness :
  exists g',
    walkPageTable 5 Sample.gmmuCounting = Ok (g', true)
    /\ mkTransaction (Some Sample.req7) zeroPage 2 ∈ walkingTranslations g'.
Proof.
  apply (walkPageTable_counts_down 5 Sample.gmmuCounting 0
           (mkTransaction (Some Sample.req7) zeroPage 3)).
  - reflexivity.
  - apply single_walk_reqsPresent.
  - reflexivity.
  - cbn. lia.
Defined.

Lemma walkPageTable_escalates_remote_witness :
  exists g' mp,
    walkPageTable 5 Sample.gmmuEscalating = Ok (g', mp)
    /\ remoteReqFor 5 Sample.gmmuEscalating Sample.req7
         ∈ outgoing (bottomPort g')
    /\ is_Some (remoteMemReqs g' !! 4096).
Proof.
  destruct (walkPageTable_escalates_remote 5 Sample.gmmuEscalating 0
              (mkTransaction (Some Sample.req7) zeroPage 0) Sample.req7
              Sample.remotePage true)
    as (gi & mpi & g' & mp & Hpre & Hrun & Hrec & Hsent & _).
  - reflexivity.
  - apply single_walk_reqsPresent.
  - reflexivity.
  - reflexivity.
  - reflexivity.
  - vm_compute. reflexivity.
  - cbn. lia.
  - cbn in Hpre. injection Hpre as <- _.
    exists g', mp. split; [exact Hrun|]. split; [|exact Hrec].
    apply Hsent. reflexivity.
Defined.

Lemma mapPageTable_findsUpdated :
  findsUpdated (PT := gmap (Z * Z) Page).
Proof.
  intros pt pt' p. cbn.
  destruct (pt !! (Page_PID p, Page_VAddr p)); [|discriminate].
  intros Hupd. injection Hupd as <-. rewrite lookup_insert_eq. reflexivity.
Qed.

Lemma key_eqb_refl k : Sample.key_eqb k k = true.
Proof.
  induction k as [|b k IH]; cbn; [reflexivity|].
  rewrite (Byte.byte_dec_lb eq_refl). exact IH.
Qed.

Lemma boundedFilter_reportsInserted :
  reportsInserted (F := Sample.boundedFilter).
Proof.
  intros f f' key. unfold Filter_Insert, Filter_Lookup. cbn -[Nat.ltb].
  destruct (length (Sample.members f) <? Sample.room f)%nat;
    [|discriminate].
  intros Heq. injection Heq as <-. cbn. rewrite key_eqb_refl. reflexivity.
Qed.

Lemma remote_response_opens_fast_path_witness :
  exists g3,
    parseFromTop 6 Sample.gmmuAgain = Ok (g3, true)
    /\ walkingTranslations g3 = [].
Proof.
  destruct (remote_response_opens_fast_path 5 Sample.gmmuRemote Sample.lowRsp
              Sample.gmmuAnswered true 6 Sample.gmmuAgain Sample.req7 []
              mapPageTable_findsUpdated boundedFilter_reportsInserted)
    as (g3 & Hrun & _ & Hwalk).
  - vm_compute. reflexivity.
  - left. vm_compute. reflexivity.
  - reflexivity.
  - reflexivity.
  - reflexivity.
  - reflexivity.
  - vm_compute. reflexivity.
  - reflexivity.
  - reflexivity.
  - reflexivity.
  - vm_compute. reflexivity.
  - exists g3. split; [exact Hrun | exact Hwalk].
Defined.

End GmmuMore.

(** * Further properties of the ring and the probe protocol *)

Module RingMore.
Import tlb RingProps MoreProps.

Implicit Types (ring : RingNoC) (t : L1TLB) (r : ProbeRequest).

(** ** Neighbours on the ring *)

(** X11: On a ring as built the two directions are inverse to each other: the
    counterclockwise neighbour of the clockwise neighbour of a TLB is that
    TLB, and the other way round; every TLB has both neighbours, and they
    differ from it.  Any other direction string gives no neighbour (nil). *)
Theorem GetNextTLB_directions_inverse ring id :
  ringWellFormed ring ->
  0 <= id < 16 ->
  (exists cw ccw,
      GetNextTLB ring id "clockwise" = Ok (Some cw)
      /\ GetNextTLB ring id "counterclockwise" = Ok (Some ccw)
      /\ GetNextTLB ring (Z.of_nat cw) "counterclockwise"
         = Ok (Some (Z.to_nat id))
      /\ GetNextTLB ring (Z.of_nat ccw) "clockwise" = Ok (Some (Z.to_nat id))
      /\ cw <> Z.to_nat id /\ ccw <> Z.to_nat id)
  /\ (forall direction,
        direction <> "clockwise" -> direction <> "counterclockwise" ->
        GetNextTLB ring id direction = Ok None).
Proof.
  intros Hwf Hid. split.
  - destruct (RingSpec.GetNextTLB_neighbour ring id "clockwise" Hwf Hid)
      as [Hcw Hcwr]; [auto|].
    destruct (RingSpec.GetNextTLB_neighbour ring id "counterclockwise" Hwf Hid)
      as [Hccw Hccwr]; [auto|].
    destruct (RingSpec.GetNextTLB_neighbour ring (nextHop id "clockwise")
                "counterclockwise" Hwf Hcwr) as [Hback _]; [auto|].
    destruct (RingSpec.GetNextTLB_neighbour ring
                (nextHop id "counterclockwise") "clockwise" Hwf Hccwr)
      as [Hforth _]; [auto|].
    unfold nextHop in *. cbn [String.eqb Ascii.eqb Bool.eqb] in *.
    assert (((id + 1) mod 16 - 1 + 16) mod 16 = id) as E1.
    { destruct (Z.eq_dec id 15) as [->|]; [reflexivity|].
      rewrite (Z.mod_small (id + 1)) by lia.
      replace (id + 1 - 1 + 16) with (id + 1 * 16) by lia.
      rewrite Z.mod_add by lia. apply Z.mod_small. lia. }
    assert (((id - 1 + 16) mod 16 + 1) mod 16 = id) as E2.
    { destruct (Z.eq_dec id 0) as [->|]; [reflexivity|].
      replace (id - 1 + 16) with (id - 1 + 1 * 16) by lia.
      rewrite Z.mod_add by lia. rewrite (Z.mod_small (id - 1)) by lia.
      replace (id - 1 + 1) with id by lia. apply Z.mod_small. lia. }
    rewrite E1 in Hback. rewrite E2 in Hforth.
    eexists _, _. split; [exact Hcw|]. split; [exact Hccw|].
    rewrite !Z2Nat.id by lia.
    split; [exact Hback|]. split; [exact Hforth|].
    split.
    + intros Heq. apply Z2Nat.inj in Heq; [|lia|lia].
      destruct (Z.eq_dec id 15) as [->|]; [discriminate Heq|].
      rewrite Z.mod_small in Heq by lia. lia.
    + intros Heq. apply Z2Nat.inj in Heq; [|lia|lia].
      destruct (Z.eq_dec id 0) as [->|]; [discriminate Heq|].
      replace (id - 1 + 16) with (id - 1 + 1 * 16) in Heq by lia.
      rewrite Z.mod_add in Heq by lia.
      rewrite Z.mod_small in Heq by lia. lia.
  - intros direction Hcw Hccw. unfold GetNextTLB.
    apply String.eqb_neq in Hcw. apply String.eqb_neq in Hccw.
    rewrite Hcw, Hccw. reflexivity.
Qed.

Lemma GetNextTLB_directions_inverse_witness :
  GetNextTLB Sample.ring0 15 "clockwise" = Ok (Some 0%nat)
  /\ GetNextTLB Sample.ring0 0 "counterclockwise" = Ok (Some 15%nat)
  /\ GetNextTLB Sample.ring0 15 "anticlockwise" = Ok None.
Proof.
  destruct (GetNextTLB_directions_inverse Sample.ring0 15
              (RingSpec.NewRingNoC_wellFormed _ _ _ _) ltac:(lia))
    as [(cw & ccw & Hcw & _ & Hback & _) Hnil].
  split; [vm_compute; reflexivity|]. split; [vm_compute; reflexivity|].
  apply Hnil; discriminate.
Defined.

(** ** [NotifyMiss] and the MSHR *)

Lemma with_same_TLB ring self t :
  TLBs ring !! self = Some t ->
  with_idGenerator (with_TLBs ring (<[self := t]> (TLBs ring)))
    (idGenerator ring) = ring.
Proof.
  intros Ht. rewrite list_insert_id by exact Ht. destruct ring. reflexivity.
Qed.

Lemma NotifyMiss_absent ring self t vAddr :
  TLBs ring !! self = Some t ->
  mshr (base t) !! (0, vAddr) = None ->
  NotifyMiss ring self vAddr = Ok ring.
Proof.
  intros Ht Hnone. unfold NotifyMiss, NotifyMiss_at, MSHR_Query.
  rewrite Ht, Hnone. f_equal. apply with_same_TLB, Ht.
Qed.

(** X12: [NotifyMiss] looks for the miss under PID 0 only: when the MSHR has no
    entry for (0, VAddr), the call changes nothing at all and sends nothing,
    also when requests of another process are waiting for that very
    address. *)
Theorem NotifyMiss_only_PID_zero ring self t vAddr :
  TLBs ring !! self = Some t ->
  mshr (base t) !! (0, vAddr) = None ->
  NotifyMiss ring self vAddr = Ok ring
  /\ forall now idgen, NotifyMiss_at now idgen t vAddr = (t, idgen).
Proof.
  intros Ht Hnone. split.
  - apply (NotifyMiss_absent ring self t); assumption.
  - intros now idgen. unfold NotifyMiss_at, MSHR_Query. rewrite Hnone.
    reflexivity.
Qed.

Lemma NotifyMiss_only_PID_zero_witness :
  mshr (base (mkL1TLB
                (with_mshr (Sample.sampleTLB 0)
                   {[ (3, 4096) := mkEntry [Sample.req8] None ]})
                0 (replicate 24 zeroPage) [])) !! (3, 4096)
  = Some (mkEntry [Sample.req8] None)
  /\ NotifyMiss Sample.ringMissPID3 0 4096 = Ok Sample.ringMissPID3.
Proof.
  split; [vm_compute; reflexivity|].
  apply (NotifyMiss_only_PID_zero Sample.ringMissPID3 0
           (mkL1TLB
              (with_mshr (Sample.sampleTLB 0)
                 {[ (3, 4096) := mkEntry [Sample.req8] None ]})
              0 (replicate 24 zeroPage) []) 4096).
  - reflexivity.
  - vm_compute. reflexivity.
Defined.

Lemma notifyLoop_outcome now low vAddr reqs port toBottom idgen :
  let '(port', toBottom', idgen') :=
    notifyLoop now low vAddr reqs port toBottom idgen in
  idgen' = (idgen + N.of_nat (length reqs))%N
  /\ portName port' = portName port
  /\ incoming port' = incoming port
  /\ outCap port' = outCap port
  /\ ((length (outgoing port) < outCap port)%nat -> reqs <> [] ->
      exists f, toBottom' = Some f
                /\ last (outgoing port') = Some (MTranslationReq f))
  /\ ((outCap port <= length (outgoing port))%nat ->
      toBottom' = toBottom /\ port' = port).
Proof.
  revert port toBottom idgen.
  induction reqs as [|q reqs IH]; intros port toBottom idgen;
    cbn [notifyLoop].
  - repeat split; try (cbn; lia). intros _ Hne. congruence.
  - unfold buildTranslationReq, Generate, Port_Send.
    destruct (Nat.ltb_spec (length (outgoing port)) (outCap port)) as [Hlt|Hge].
    + match goal with
      | |- context [notifyLoop _ _ _ _ ?p ?tb ?ig] =>
          specialize (IH p tb ig);
          destruct (notifyLoop now low vAddr reqs p tb ig)
            as [[port' toBottom'] idgen'] eqn:Hloop
      end.
      cbn [portName incoming outCap outgoing] in IH.
      destruct IH as (Hid & Hn & Hi & Hc & Hroom & Hbusy).
      split; [cbn [length]; lia|]. repeat (split; [assumption|]).
      split; [|intros; lia].
      intros _ _.
      destruct (Nat.ltb_spec (length (outgoing port ++
                  [MTranslationReq
                     (mkTranslationReq
                        (mkMeta idgen (endpointOf port) low now 0 0 0)
                        (Req_PID q) vAddr (Req_DeviceID q))]))
                  (outCap port)) as [Hlt'|Hge'].
      * destruct reqs as [|q' reqs].
        -- cbn in Hloop. injection Hloop as <- <- _.
           eexists. split; [reflexivity|]. cbn. apply last_snoc.
        -- apply Hroom; [exact Hlt' | discriminate].
      * destruct (Hbusy Hge') as [-> ->].
        eexists. split; [reflexivity|]. cbn. apply last_snoc.
    + specialize (IH port toBottom (N.succ idgen)).
      destruct (notifyLoop now low vAddr reqs port toBottom (N.succ idgen))
        as [[port' toBottom'] idgen'].
      destruct IH as (Hid & Hn & Hi & Hc & Hroom & Hbusy).
      split; [cbn [length]; lia|]. repeat (split; [assumption|]).
      split; [intros; lia | exact Hbusy].
Qed.

(** X13: [NotifyMiss] never removes or shortens an MSHR entry, and touches only
    the originator's bottom port and that entry's [reqToBottom]: the waiting
    requests stay as they are, the sets, the top port, the probe queue and
    the ring connection are untouched.  If the bottom port has room and a
    request is waiting, [reqToBottom] afterwards is the request sent last;
    if the port is busy, nothing changes but the id generator, which has
    given out one id per waiting request all the same. *)
Theorem NotifyMiss_records_escalation ring self t vAddr entry :
  TLBs ring !! self = Some t ->
  mshr (base t) !! (0, vAddr) = Some entry ->
  exists ring' t' entry',
    NotifyMiss ring self vAddr = Ok ring'
    /\ TLBs ring' !! self = Some t'
    /\ mshr (base t') !! (0, vAddr) = Some entry'
    /\ Requests entry' = Requests entry
    /\ (forall key, key <> (0, vAddr) ->
          mshr (base t') !! key = mshr (base t) !! key)
    /\ (Sets (base t') = Sets (base t)
        /\ topPort (base t') = topPort (base t)
        /\ ProbeQueue t' = ProbeQueue t
        /\ conn ring' = conn ring)
    /\ idGenerator ring'
       = (idGenerator ring + N.of_nat (length (Requests entry)))%N
    /\ ((length (outgoing (bottomPort (base t)))
         < outCap (bottomPort (base t)))%nat ->
        Requests entry <> [] ->
        exists f,
          reqToBottom entry' = Some f
          /\ last (outgoing (bottomPort (base t')))
             = Some (MTranslationReq f))
    /\ ((outCap (bottomPort (base t))
         <= length (outgoing (bottomPort (base t))))%nat ->
        reqToBottom entry' = reqToBottom entry
        /\ bottomPort (base t') = bottomPort (base t)).
Proof.
  intros Ht He. unfold NotifyMiss, NotifyMiss_at, MSHR_Query.
  rewrite Ht, He.
  pose proof (notifyLoop_outcome (currentTime ring) (LowModule (base t)) vAddr
                (Requests entry) (bottomPort (base t)) (reqToBottom entry)
                (idGenerator ring)) as Hout.
  destruct (notifyLoop _ _ _ _ _ _ _) as [[port' toBottom'] idgen'].
  destruct Hout as (Hid & _ & _ & _ & Hroom & Hbusy).
  eexists _, _, _. split; [reflexivity|]. cbn.
  split; [apply list_lookup_insert_eq; eapply lookup_lt_Some, Ht|].
  cbn. split; [apply lookup_insert_eq|]. cbn.
  split; [reflexivity|].
  split; [intros key Hkey; apply lookup_insert_ne; congruence|].
  split; [auto|]. split; [exact Hid|]. split; [exact Hroom | exact Hbusy].
Qed.

Lemma NotifyMiss_records_escalation_witness :
  exists ring' t' entry' f,
    NotifyMiss Sample.ringMiss 0 4096 = Ok ring'
    /\ TLBs ring' !! 0%nat = Some t'
    /\ mshr (base t') !! (0, 4096) = Some entry'
    /\ Requests entry' = [Sample.req7]
    /\ reqToBottom entry' = Some f.
Proof.
  destruct (NotifyMiss_records_escalation Sample.ringMiss 0
              (mkL1TLB
                 (with_mshr (Sample.sampleTLB 0)
                    {[ (0, 4096) := mkEntry [Sample.req7] None ]})
                 0 (replicate 24 zeroPage) [])
              4096 (mkEntry [Sample.req7] None))
    as (ring' & t' & entry' & Hrun & Ht' & He' & Hreqs & _ & _ & _ & Hset & _).
  - reflexivity.
  - vm_compute. reflexivity.
  - destruct Hset as (f & Hf & _); [cbn; lia | discriminate|].
    exists ring', t', entry', f. auto.
Defined.

(** ** Probes that are not forwarded *)

Lemma map_insert_same {A B : Type} (f : A -> B) (l : list A) i x y :
  l !! i = Some x -> f y = f x -> map f (<[i := y]> l) = map f l.
Proof.
  intros Hi Hf. change (f <$> <[i := y]> l = f <$> l).
  rewrite list_fmap_insert, Hf. apply list_insert_id.
  rewrite list_lookup_fmap, Hi. reflexivity.
Qed.

Lemma NotifyMiss_at_queue now idgen t vAddr :
  ProbeQueue (NotifyMiss_at now idgen t vAddr).1 = ProbeQueue t.
Proof.
  unfold NotifyMiss_at. destruct (MSHR_Query _ _ _); [|reflexivity].
  destruct (notifyLoop _ _ _ _ _ _ _) as [[port' toBottom'] idgen'].
  reflexivity.
Qed.

Lemma NotifyMiss_frame ring self vAddr ring' :
  NotifyMiss ring self vAddr = Ok ring' ->
  probeQueues ring' = probeQueues ring /\ conn ring' = conn ring.
Proof.
  unfold NotifyMiss. destruct (TLBs ring !! self) as [t|] eqn:Ht;
    [|discriminate].
  pose proof (NotifyMiss_at_queue (currentTime ring) (idGenerator ring) t
                vAddr) as Hq.
  destruct (NotifyMiss_at _ _ _ _) as [t' idgen']. cbn [fst] in Hq.
  intros Hrun. injection Hrun as <-. split; [|reflexivity].
  unfold probeQueues. cbn. eapply map_insert_same; eauto.
Qed.

Lemma SendProbeRequest_frame ring self r ring' :
  SendProbeRequest ring self r = Ok ring' ->
  probeQueues ring' = probeQueues ring.
Proof.
  unfold SendProbeRequest. destruct (TLBs ring !! self) as [t|];
    [|discriminate].
  destruct (GetNextTLB ring (L1_ID t) (Direction r)) as [nextTLB|];
    [|discriminate].
  cbn [mbind result_bind].
  assert (forall res,
            ('(source, _) ← index (TLBs ring) (SourceTLB r);
             NotifyMiss ring source (VirtualAddr r)) = Ok res ->
            probeQueues res = probeQueues ring) as Hnotify.
  { intros res Hrun.
    destruct (index (TLBs ring) (SourceTLB r)) as [[source x]|];
      [|discriminate].
    cbn in Hrun. apply NotifyMiss_frame in Hrun. apply Hrun. }
  destruct nextTLB as [next|]; [|apply Hnotify].
  destruct (0 <? TTL r); [|apply Hnotify].
  intros Hrun. injection Hrun as <-. reflexivity.
Qed.

(** X14: A probe is forwarded only with a positive TTL and one of the two ring
    directions.  On a ring as built, a probe whose TTL is zero or negative,
    or whose direction is any other string (whatever its TTL), ends at this
    TLB: the call is [NotifyMiss] on the originator, and nothing is handed
    to the ring connection. *)
Theorem SendProbeRequest_not_forwarded ring self t r :
  ringWellFormed ring ->
  TLBs ring !! self = Some t ->
  0 <= SourceTLB r < 16 ->
  TTL r <= 0
  \/ (Direction r <> "clockwise" /\ Direction r <> "counterclockwise") ->
  SendProbeRequest ring self r
  = NotifyMiss ring (Z.to_nat (SourceTLB r)) (VirtualAddr r)
  /\ exists ring',
       SendProbeRequest ring self r = Ok ring' /\ conn ring' = conn ring.
Proof.
  intros Hwf Ht Hsrc Hend.
  assert (SendProbeRequest ring self r
          = NotifyMiss ring (Z.to_nat (SourceTLB r)) (VirtualAddr r)) as Heq.
  { pose proof (wf_ID _ Hwf self t Ht) as Hid.
    assert (0 <= L1_ID t < 16) as Hrange.
    { apply lookup_lt_Some in Ht. rewrite (wf_length _ Hwf) in Ht. lia. }
    destruct (RingSpec.index_in_range (TLBs ring) (SourceTLB r)) as [a Ha].
    { rewrite (wf_length _ Hwf). lia. }
    unfold SendProbeRequest. rewrite Ht.
    destruct (String.eqb_spec (Direction r) "clockwise") as [Hcw|Hcw];
      [|destruct (String.eqb_spec (Direction r) "counterclockwise")
          as [Hccw|Hccw]].
    - destruct (RingSpec.GetNextTLB_neighbour ring (L1_ID t) (Direction r)
                  Hwf Hrange (or_introl Hcw)) as [Hnext _].
      rewrite Hnext. cbn [mbind result_bind].
      destruct Hend as [Httl|[Hne _]]; [|congruence].
      destruct (Z.ltb_spec 0 (TTL r)); [lia|]. rewrite Ha. reflexivity.
    - destruct (RingSpec.GetNextTLB_neighbour ring (L1_ID t) (Direction r)
                  Hwf Hrange (or_intror Hccw)) as [Hnext _].
      rewrite Hnext. cbn [mbind result_bind].
      destruct Hend as [Httl|[_ Hne]]; [|congruence].
      destruct (Z.ltb_spec 0 (TTL r)); [lia|]. rewrite Ha. reflexivity.
    - unfold GetNextTLB.
      apply String.eqb_neq in Hcw. apply String.eqb_neq in Hccw.
      rewrite Hcw, Hccw. cbn [mbind result_bind]. rewrite Ha. reflexivity. }
  split; [exact Heq|]. rewrite Heq.
  destruct (lookup_lt_is_Some_2 (TLBs ring) (Z.to_nat (SourceTLB r)))
    as [src Hsrc'].
  { rewrite (wf_length _ Hwf). lia. }
  unfold NotifyMiss. rewrite Hsrc'.
  destruct (NotifyMiss_at _ _ _ _) as [t' idgen'].
  eexists. split; reflexivity.
Qed.

Lemma SendProbeRequest_not_forwarded_witness :
  0 < TTL Sample.probeAstray
  /\ exists ring',
       SendProbeRequest Sample.ring0 5 Sample.probeAstray = Ok ring'
       /\ conn ring' = conn Sample.ring0.
Proof.
  split; [cbn; lia|].
  refine (proj2 (SendProbeRequest_not_forwarded Sample.ring0 5
                   (mkL1TLB (Sample.sampleTLB 5) 5 (replicate 24 zeroPage) [])
                   Sample.probeAstray
                   (RingSpec.NewRingNoC_wellFormed _ _ _ _) eq_refl _ _)).
  - cbn. lia.
  - right. split; discriminate.
Defined.

(** ** [Cycle] *)

Lemma drainProbes_queues (m : nat) :
  forall k ring mp ring' mp',
    (k + m)%nat = length (TLBs ring) ->
    drainProbes (seq k m) ring mp = Ok (ring', mp') ->
    probeQueues ring'
    = take k (probeQueues ring) ++ map (drop 1) (drop k (probeQueues ring))
    /\ mp' = mp || existsb nonEmpty (drop k (probeQueues ring)).
Proof.
  induction m as [|m IH]; intros k ring mp ring' mp' Hlen Hrun;
    cbn [seq drainProbes] in Hrun.
  - injection Hrun as <- <-.
    assert (length (probeQueues ring) = k) as Hl
      by (unfold probeQueues; rewrite length_map; lia).
    rewrite drop_ge by lia. rewrite take_ge by lia.
    cbn. rewrite app_nil_r, orb_false_r. auto.
  - destruct (lookup_lt_is_Some_2 (TLBs ring) k) as [t Ht]; [lia|].
    rewrite Ht in Hrun.
    assert (probeQueues ring !! k = Some (ProbeQueue t)) as Hqk.
    { unfold probeQueues. change (map ProbeQueue (TLBs ring))
        with (ProbeQueue <$> TLBs ring).
      rewrite list_lookup_fmap, Ht. reflexivity. }
    rewrite (drop_S _ _ _ Hqk).
    destruct (ProbeQueue t) as [|r queue] eqn:Hq.
    + apply IH in Hrun as [Hqs Hmp]; [|lia].
      rewrite (take_S_r _ _ _ Hqk) in Hqs.
      rewrite Hqs, Hmp. cbn. rewrite <- app_assoc. auto.
    + destruct (SendProbeRequest _ k r) as [ring1|] eqn:Hsend;
        [|discriminate].
      cbn [mbind result_bind] in Hrun.
      apply SendProbeRequest_frame in Hsend.
      assert (probeQueues ring1 = <[k := queue]> (probeQueues ring)) as Hq1.
      { rewrite Hsend. unfold probeQueues. cbn.
        change (ProbeQueue <$> <[k := with_ProbeQueue t queue]> (TLBs ring)
                = <[k := queue]> (ProbeQueue <$> TLBs ring)).
        rewrite list_fmap_insert. reflexivity. }
      assert (length (TLBs ring1) = length (TLBs ring)) as Hl1.
      { pose proof (f_equal length Hq1) as Hl. unfold probeQueues in Hl.
        rewrite length_insert, !length_map in Hl. exact Hl. }
      apply IH in Hrun as [Hqs Hmp]; [|lia].
      assert (k < length (probeQueues ring))%nat as Hk
        by (eapply lookup_lt_Some, Hqk).
      rewrite Hq1 in Hqs.
      rewrite take_S_r with (x := queue) in Hqs
        by (apply list_lookup_insert_eq, Hk).
      rewrite take_insert_ge in Hqs by lia.
      rewrite drop_insert_lt in Hqs by lia.
      rewrite Hqs, Hmp. cbn. rewrite <- app_assoc.
      rewrite orb_true_r. auto.
Qed.

(** X15: In one [Cycle] every L1-TLB with a non-empty probe queue gives up exactly
    the head of its queue, no TLB gives up more, and sending the probes on
    adds none to any queue; what the connection does comes after that.  The
    progress reported is true exactly when some queue was not empty: what the
    connection's own cycle did is not reported. *)
Theorem Cycle_takes_one_probe_each connCycle ring now ring' madeProgress :
  Cycle connCycle ring now = Ok (ring', madeProgress) ->
  exists drained,
    drainProbes (seq 0 (length (TLBs ring))) ring false
    = Ok (drained, madeProgress)
    /\ connCycle drained now = Ok ring'
    /\ probeQueues drained = map (drop 1) (probeQueues ring)
    /\ madeProgress = existsb nonEmpty (probeQueues ring).
Proof.
  unfold Cycle. intros Hrun.
  destruct (drainProbes _ ring false) as [[drained mp]|] eqn:Hdrain;
    [|discriminate].
  cbn [mbind result_bind] in Hrun.
  destruct (connCycle drained now) as [ring1|] eqn:Hconn; [|discriminate].
  cbn in Hrun. injection Hrun as <- <-.
  apply drainProbes_queues in Hdrain as [Hq Hmp]; [|lia].
  exists drained. rewrite take_0, drop_0 in Hq. rewrite drop_0 in Hmp.
  auto.
Qed.

Lemma Cycle_takes_one_probe_each_witness :
  exists ring',
    Cycle Sample.idleConn Sample.ringProbing 2 = Ok (ring', true)
    /\ map length (probeQueues Sample.ringProbing)
       = [0; 0; 2; 0; 0; 0; 0; 0; 0; 0; 0; 0; 0; 0; 0; 0]%nat
    /\ map length (probeQueues ring')
       = [0; 0; 1; 0; 0; 0; 0; 0; 0; 0; 0; 0; 0; 0; 0; 0]%nat.
Proof.
  eexists. split; [vm_compute; reflexivity|].
  split; [reflexivity|].
  destruct (Cycle_takes_one_probe_each Sample.idleConn Sample.ringProbing 2
              _ true ltac:(vm_compute; reflexivity))
    as (drained & _ & Hconn & Hq & _).
  injection Hconn as <-. rewrite Hq. reflexivity.
Defined.

(** ** Receiving a probe request *)

Lemma scanPrefetch_valid buf pid vAddr p :
  scanPrefetch buf pid vAddr = Some p ->
  p ∈ buf /\ Page_PID p = pid /\ Page_VAddr p = vAddr /\ Page_Valid p = true.
Proof.
  induction buf as [|q buf IH]; cbn [scanPrefetch]; [discriminate|].
  destruct ((Page_PID q =? pid) && (Page_VAddr q =? vAddr) && Page_Valid q)
    eqn:E.
  - intros Heq. injection Heq as <-.
    apply andb_true_iff in E as [E Hv]. apply andb_true_iff in E as [Hp Ha].
    apply Z.eqb_eq in Hp. apply Z.eqb_eq in Ha.
    split; [apply list_elem_of_here | auto].
  - intros Hrest. destruct (IH Hrest) as (Hin & Hrest').
    split; [apply list_elem_of_further, Hin | exact Hrest'].
Qed.

Lemma ReceiveProbeRequest_outcome ring self t r now ring' :
  TLBs ring !! self = Some t ->
  ReceiveProbeRequest ring self r now = Ok ring' ->
  (exists pg rsp,
      Page_Valid pg = true
      /\ conn ring' = conn ring ++ [MProbeResponse rsp]
      /\ PRsp_Page rsp = Some pg
      /\ PRsp_VirtualAddr rsp = VirtualAddr r
      /\ PRsp_SourceTLB rsp = SourceTLB r
      /\ Src (PRsp_Meta rsp) = TLBNode (SEID ring) (Z.of_nat self)
      /\ Dst (PRsp_Meta rsp) = TLBNode (SEID ring) (SourceTLB r)
      /\ TLBs ring' = TLBs ring)
  \/ (conn ring' = conn ring
      /\ TLBs ring'
         = <[self := with_ProbeQueue t (ProbeQueue t ++ [r])]> (TLBs ring)).
Proof.
  intros Ht. unfold ReceiveProbeRequest. rewrite Ht.
  destruct (vAddrToSetID (base t) (VirtualAddr r)) as [setID|];
    [|discriminate].
  cbn [mbind result_bind].
  destruct (index (Sets (base t)) setID) as [[slot set]|]; [|discriminate].
  cbn [mbind result_bind].
  assert (forall pg,
            Page_Valid pg = true ->
            sendProbeResponse ring self r now pg = Ok ring' ->
            exists pg0 rsp,
              Page_Valid pg0 = true
              /\ conn ring' = conn ring ++ [MProbeResponse rsp]
              /\ PRsp_Page rsp = Some pg0
              /\ PRsp_VirtualAddr rsp = VirtualAddr r
              /\ PRsp_SourceTLB rsp = SourceTLB r
              /\ Src (PRsp_Meta rsp) = TLBNode (SEID ring) (Z.of_nat self)
              /\ Dst (PRsp_Meta rsp) = TLBNode (SEID ring) (SourceTLB r)
              /\ TLBs ring' = TLBs ring) as Hsend.
  { intros pg Hvalid. unfold sendProbeResponse, Generate, index.
    destruct (Z.ltb_spec (SourceTLB r) 0) as [|Hnn]; [discriminate|].
    destruct (TLBs ring !! Z.to_nat (SourceTLB r)); [|discriminate].
    cbn. intros Hrun. injection Hrun as <-.
    eexists pg, _. split; [exact Hvalid|]. split; [reflexivity|]. cbn.
    rewrite Z2Nat.id by lia. repeat split. }
  destruct (Set_Lookup set (PReq_PID r) (VirtualAddr r)) as [[way pg] found].
  destruct (found && Page_Valid pg) eqn:Hhit.
  - apply andb_true_iff in Hhit as [_ Hvalid].
    intros Hrun. left. eapply Hsend; eauto.
  - destruct (scanPrefetch (PrefetchBuffer t) (PReq_PID r) (VirtualAddr r))
      as [p|] eqn:Hscan.
    + apply scanPrefetch_valid in Hscan as (_ & _ & _ & Hvalid).
      intros Hrun. left. eapply Hsend; eauto.
    + intros Hrun. injection Hrun as <-. right. split; reflexivity.
Qed.

(** X16: A probe request received by a TLB is either answered or forwarded, never
    both and never dropped: either one probe response leaves for the ring
    connection, carrying a valid page, the probed address and the
    originator's id, addressed from this TLB to the originator, and no probe
    queue changes; or the connection gets nothing and the request is appended
    to this TLB's own probe queue, nothing else changing. *)
Theorem ReceiveProbeRequest_answers_or_forwards ring self t r now ring' :
  TLBs ring !! self = Some t ->
  ReceiveProbeRequest ring self r now = Ok ring' ->
  (exists pg rsp,
      Page_Valid pg = true
      /\ conn ring' = conn ring ++ [MProbeResponse rsp]
      /\ PRsp_Page rsp = Some pg
      /\ PRsp_VirtualAddr rsp = VirtualAddr r
      /\ PRsp_SourceTLB rsp = SourceTLB r
      /\ Src (PRsp_Meta rsp) = TLBNode (SEID ring) (Z.of_nat self)
      /\ Dst (PRsp_Meta rsp) = TLBNode (SEID ring) (SourceTLB r)
      /\ TLBs ring' = TLBs ring)
  \/ (conn ring' = conn ring
      /\ (exists t',
            TLBs ring' !! self = Some t'
            /\ ProbeQueue t' = ProbeQueue t ++ [r]
            /\ base t' = base t
            /\ PrefetchBuffer t' = PrefetchBuffer t)
      /\ forall k, k <> self -> TLBs ring' !! k = TLBs ring !! k).
Proof.
  intros Ht Hrun.
  destruct (ReceiveProbeRequest_outcome _ _ _ _ _ _ Ht Hrun)
    as [Hanswered|[Hconn Htlbs]]; [left; exact Hanswered|].
  right. split; [exact Hconn|]. rewrite Htlbs. split.
  - eexists.
    split; [apply list_lookup_insert_eq; eapply lookup_lt_Some, Ht|].
    repeat split.
  - intros k Hk. apply list_lookup_insert_ne. congruence.
Qed.

Lemma ReceiveProbeRequest_answers_or_forwards_witness :
  exists ring',
    ReceiveProbeRequest Sample.ring0 5 (Sample.probeCW 2) 3 = Ok ring'
    /\ conn ring' = conn Sample.ring0
    /\ map length (probeQueues ring')
       = [0; 0; 0; 0; 0; 1; 0; 0; 0; 0; 0; 0; 0; 0; 0; 0]%nat.
Proof.
  eexists. split; [vm_compute; reflexivity|].
  destruct (ReceiveProbeRequest_answers_or_forwards Sample.ring0 5
              (mkL1TLB (Sample.sampleTLB 5) 5 (replicate 24 zeroPage) [])
              (Sample.probeCW 2) 3 _ eq_refl ltac:(vm_compute; reflexivity))
    as [(pg & rsp & _ & Hconn & _)|(Hconn & _ & _)].
  - exfalso. vm_compute in Hconn. discriminate Hconn.
  - split; [exact Hconn | reflexivity].
Defined.

(** ** The dispatcher *)

(** X17: [DeliverMessage] hands a probe request to the TLB named by its
    [SourceTLB], the originator, whatever its [Dst]: the request is looked up
    in the originator's own cache and prefetch buffer, and then either
    answered by the originator to itself or put on the originator's own
    probe queue; no other TLB is consulted or changed.  The call returns
    true whenever it returns, and panics with an index fault when
    [SourceTLB] is not a slot of the ring. *)
Theorem DeliverMessage_probe_goes_to_originator ring r now :
  (forall ring' b,
      DeliverMessage ring (MProbeRequest r) now = Ok (ring', b) ->
      b = true
      /\ 0 <= SourceTLB r < Z.of_nat (length (TLBs ring))
      /\ (forall k, k <> Z.to_nat (SourceTLB r) ->
            TLBs ring' !! k = TLBs ring !! k)
      /\ ((exists rsp,
              conn ring' = conn ring ++ [MProbeResponse rsp]
              /\ Src (PRsp_Meta rsp) = TLBNode (SEID ring) (SourceTLB r)
              /\ Dst (PRsp_Meta rsp) = TLBNode (SEID ring) (SourceTLB r))
          \/ (conn ring' = conn ring
              /\ exists t t',
                   TLBs ring !! Z.to_nat (SourceTLB r) = Some t
                   /\ TLBs ring' !! Z.to_nat (SourceTLB r) = Some t'
                   /\ length (ProbeQueue t') = S (length (ProbeQueue t)))))
  /\ (SourceTLB r < 0 \/ Z.of_nat (length (TLBs ring)) <= SourceTLB r ->
      DeliverMessage ring (MProbeRequest r) now = Panic index_out_of_range).
Proof.
  split.
  - intros ring' b. unfold DeliverMessage. cbn [SourceTLB]. unfold index.
    destruct (Z.ltb_spec (SourceTLB r) 0) as [|Hnn]; [discriminate|].
    destruct (TLBs ring !! Z.to_nat (SourceTLB r)) as [t|] eqn:Ht;
      [|discriminate].
    cbn [mbind result_bind].
    destruct (ReceiveProbeRequest ring _ _ now) as [ring1|] eqn:Hrecv;
      [|discriminate].
    cbn. intros Hrun. injection Hrun as <- <-.
    split; [reflexivity|].
    split; [apply lookup_lt_Some in Ht; lia|].
    destruct (ReceiveProbeRequest_outcome _ _ _ _ _ _ Ht Hrecv)
      as [(pg & rsp & _ & Hconn & _ & _ & _ & Hsrc & Hdst & Htlbs)
         |[Hconn Htlbs]].
    + split; [intros k _; rewrite Htlbs; reflexivity|].
      left. exists rsp. cbn in Hsrc, Hdst.
      rewrite Z2Nat.id in Hsrc by lia. auto.
    + split.
      * intros k Hk. rewrite Htlbs. apply list_lookup_insert_ne. congruence.
      * right. split; [exact Hconn|]. eexists t, _. split; [reflexivity|].
        split.
        -- rewrite Htlbs. apply list_lookup_insert_eq.
           eapply lookup_lt_Some, Ht.
        -- cbn. rewrite length_app. cbn. lia.
  - intros Hout. unfold DeliverMessage. cbn [SourceTLB]. unfold index.
    destruct (Z.ltb_spec (SourceTLB r) 0) as [|Hnn]; [reflexivity|].
    destruct Hout as [|Hge]; [lia|].
    rewrite lookup_ge_None_2 by lia. reflexivity.
Qed.

Lemma DeliverMessage_probe_goes_to_originator_witness :
  Dst (PReq_Meta (Sample.probeCW 2)) = TLBNode 0 5
  /\ SourceTLB (Sample.probeCW 2) = 3
  /\ (exists ring',
         DeliverMessage Sample.ring0 (MProbeRequest (Sample.probeCW 2)) 3
         = Ok (ring', true)
         /\ TLBs ring' !! 5%nat = TLBs Sample.ring0 !! 5%nat)
  /\ DeliverMessage Sample.ring0 (MProbeRequest Sample.probeLost) 3
     = Panic index_out_of_range.
Proof.
  split; [reflexivity|]. split; [reflexivity|]. split.
  - eexists. split; [vm_compute; reflexivity|].
    destruct (proj1 (DeliverMessage_probe_goes_to_originator Sample.ring0
                       (Sample.probeCW 2) 3) _ true
                ltac:(vm_compute; reflexivity))
      as (_ & _ & Hother & _).
    apply Hother. cbn. lia.
  - apply (proj2 (DeliverMessage_probe_goes_to_originator Sample.ring0
                    Sample.probeLost 3)).
    right. cbn. lia.
Defined.

(** ** Receiving a probe response *)

Lemma respondLoop_count now pg reqs port idgen :
  exists sent,
    outgoing (respondLoop now pg reqs port idgen).1 = outgoing port ++ sent
    /\ length sent
       = Nat.min (length reqs) (outCap port - length (outgoing port))
    /\ Forall (carries pg) sent.
Proof.
  revert port idgen.
  induction reqs as [|q reqs IH]; intros port idgen; cbn [respondLoop].
  - exists []. rewrite app_nil_r. repeat split. constructor.
  - unfold buildTranslationRsp, Generate, Port_Send.
    destruct (Nat.ltb_spec (length (outgoing port)) (outCap port)) as [Hlt|Hge].
    + match goal with
      | |- context [respondLoop _ _ _ ?p ?ig] =>
          destruct (IH p ig) as (sent & Hout & Hlen & Hall)
      end.
      cbn [outgoing outCap] in Hout, Hlen. rewrite length_app in Hlen.
      cbn [length] in Hlen.
      eexists (_ :: sent). split; [|split].
      * rewrite Hout, <- app_assoc. reflexivity.
      * cbn [length]. rewrite Hlen. lia.
      * constructor; [|exact Hall]. eexists. split; reflexivity.
    + destruct (IH port (N.succ idgen)) as (sent & Hout & Hlen & Hall).
      exists sent. split; [exact Hout|]. split; [|exact Hall].
      rewrite Hlen. cbn [length]. lia.
Qed.

Lemma ReceiveProbeResponse_outcome ring self t rsp pg now ring' :
  TLBs ring !! self = Some t ->
  PRsp_Page rsp = Some pg ->
  Page_Valid pg = true ->
  ReceiveProbeResponse ring self rsp now = Ok ring' ->
  let key := (Page_PID pg, PRsp_VirtualAddr rsp) in
  exists t',
    TLBs ring' !! self = Some t'
    /\ mshr (base t') = delete key (mshr (base t))
    /\ bottomPort (base t') = bottomPort (base t)
    /\ ProbeQueue t' = ProbeQueue t
    /\ conn ring' = conn ring
    /\ (forall k, k <> self -> TLBs ring' !! k = TLBs ring !! k)
    /\ exists sent,
         outgoing (topPort (base t'))
         = outgoing (topPort (base t)) ++ sent
         /\ length sent
            = match mshr (base t) !! key with
              | Some entry =>
                  Nat.min (length (Requests entry))
                    (outCap (topPort (base t))
                     - length (outgoing (topPort (base t))))
              | None => 0%nat
              end
         /\ Forall (carries pg) sent.
Proof.
  intros Ht Hpg Hvalid. unfold ReceiveProbeResponse.
  rewrite Ht, Hpg, Hvalid.
  destruct (vAddrToSetID (base t) (PRsp_VirtualAddr rsp)) as [setID|];
    [|discriminate].
  cbn [mbind result_bind].
  destruct (index (Sets (base t)) setID) as [[slot set]|]; [|discriminate].
  cbn [mbind result_bind].
  destruct (Set_Evict set) as [[wayID ok] set'].
  destruct ok; cbn [negb]; [|discriminate].
  unfold MSHR_GetEntry, MSHR_Remove. cbn [mshr with_Sets topPort].
  assert (length (TLBs ring) > self)%nat as Hlt
    by (apply lookup_lt_Some in Ht; lia).
  destruct (mshr (base t) !! (Page_PID pg, PRsp_VirtualAddr rsp))
    as [entry|] eqn:He.
  - destruct (respondLoop_count now pg (Requests entry) (topPort (base t))
                (idGenerator ring)) as (sent & Hout & Hlen & Hall).
    destruct (respondLoop _ _ _ _ _) as [port' idgen'].
    cbn [fst] in Hout.
    intros Hrun. injection Hrun as <-. cbn zeta.
    eexists. split; [cbn; apply list_lookup_insert_eq; lia|].
    cbn. split; [reflexivity|]. split; [reflexivity|].
    split; [reflexivity|]. split; [reflexivity|].
    split; [intros k Hk; apply list_lookup_insert_ne; congruence|].
    exists sent. auto.
  - intros Hrun. injection Hrun as <-. cbn zeta.
    eexists. split; [cbn; apply list_lookup_insert_eq; lia|].
    cbn. split; [symmetry; apply delete_id, He|].
    split; [reflexivity|]. split; [reflexivity|]. split; [reflexivity|].
    split; [intros k Hk; apply list_lookup_insert_ne; congruence|].
    exists []. rewrite app_nil_r. repeat split. constructor.
Qed.

(** X18: A probe response with a valid page clears the miss whatever the top port
    does: the MSHR entry for (page PID, VAddr) is removed, the other entries,
    the bottom port, the probe queue, the connection and the other TLBs stay
    as they are, and the top port has sent one response carrying the page for
    each waiting request it had room for.  When the port has less room than
    there are waiting requests, the rest are not answered, and with the entry
    gone they never will be.  A response that finds no entry sends nothing. *)
Theorem ReceiveProbeResponse_serves_and_clears ring self t rsp pg now ring' :
  TLBs ring !! self = Some t ->
  PRsp_Page rsp = Some pg ->
  Page_Valid pg = true ->
  ReceiveProbeResponse ring self rsp now = Ok ring' ->
  let key := (Page_PID pg, PRsp_VirtualAddr rsp) in
  exists t',
    TLBs ring' !! self = Some t'
    /\ mshr (base t') !! key = None
    /\ (forall other, other <> key ->
          mshr (base t') !! other = mshr (base t) !! other)
    /\ bottomPort (base t') = bottomPort (base t)
    /\ ProbeQueue t' = ProbeQueue t
    /\ conn ring' = conn ring
    /\ (forall k, k <> self -> TLBs ring' !! k = TLBs ring !! k)
    /\ exists sent,
         outgoing (topPort (base t'))
         = outgoing (topPort (base t)) ++ sent
         /\ length sent
            = match mshr (base t) !! key with
              | Some entry =>
                  Nat.min (length (Requests entry))
                    (outCap (topPort (base t))
                     - length (outgoing (topPort (base t))))
              | None => 0%nat
              end
         /\ Forall (carries pg) sent.
Proof.
  intros Ht Hpg Hvalid Hrun key.
  destruct (ReceiveProbeResponse_outcome _ _ _ _ _ _ _ Ht Hpg Hvalid Hrun)
    as (t' & Ht' & Hmshr & Hrest).
  exists t'. split; [exact Ht'|]. fold key in Hmshr. rewrite Hmshr.
  split; [apply lookup_delete_eq|].
  split; [intros other Hother; apply lookup_delete_ne; congruence|].
  exact Hrest.
Qed.

Lemma ReceiveProbeResponse_serves_and_clears_witness :
  exists ring' t',
    ReceiveProbeResponse Sample.ringMiss 0 Sample.probeHit 3 = Ok ring'
    /\ TLBs ring' !! 0%nat = Some t'
    /\ mshr (base t') !! (0, 4096) = None
    /\ length (outgoing (topPort (base t'))) = 1%nat.
Proof.
  destruct (ReceiveProbeResponse_serves_and_clears Sample.ringMiss 0
              (mkL1TLB
                 (with_mshr (Sample.sampleTLB 0)
                    {[ (0, 4096) := mkEntry [Sample.req7] None ]})
                 0 (replicate 24 zeroPage) [])
              Sample.probeHit (mkPage 0 4096 8192 1 true) 3 _
              eq_refl eq_refl eq_refl ltac:(vm_compute; reflexivity))
    as (t' & Ht' & Hmshr & _ & _ & _ & _ & _ & sent & Hout & Hlen & _).
  eexists _, t'. split; [vm_compute; reflexivity|].
  split; [exact Ht'|]. split.
  - exact Hmshr.
  - rewrite Hout, length_app, Hlen. vm_compute. reflexivity.
Defined.

(** X19: The first hit wins: once a probe response with a valid page has been
    received for a miss, a second one for the same (PID, VAddr), as when both
    directions find the page, sends nothing more to the client and leaves the
    MSHR as it is; and for a page of PID 0, a later [NotifyMiss] for the
    address, as when the other probe expires, changes nothing at all. *)
Theorem ReceiveProbeResponse_first_hit_wins ring self t rsp pg now ring1 :
  TLBs ring !! self = Some t ->
  PRsp_Page rsp = Some pg ->
  Page_Valid pg = true ->
  ReceiveProbeResponse ring self rsp now = Ok ring1 ->
  (forall rsp2 pg2 now2 ring2,
      PRsp_Page rsp2 = Some pg2 ->
      Page_Valid pg2 = true ->
      Page_PID pg2 = Page_PID pg ->
      PRsp_VirtualAddr rsp2 = PRsp_VirtualAddr rsp ->
      ReceiveProbeResponse ring1 self rsp2 now2 = Ok ring2 ->
      exists t1 t2,
        TLBs ring1 !! self = Some t1
        /\ TLBs ring2 !! self = Some t2
        /\ outgoing (topPort (base t2)) = outgoing (topPort (base t1))
        /\ mshr (base t2) = mshr (base t1))
  /\ (Page_PID pg = 0 ->
      NotifyMiss ring1 self (PRsp_VirtualAddr rsp) = Ok ring1).
Proof.
  intros Ht Hpg Hvalid Hrun.
  destruct (ReceiveProbeResponse_outcome _ _ _ _ _ _ _ Ht Hpg Hvalid Hrun)
    as (t1 & Ht1 & Hm1 & _).
  split.
  - intros rsp2 pg2 now2 ring2 Hpg2 Hvalid2 Hpid Hva Hrun2.
    destruct (ReceiveProbeResponse_outcome _ _ _ _ _ _ _ Ht1 Hpg2 Hvalid2
                Hrun2)
      as (t2 & Ht2 & Hm2 & _ & _ & _ & _ & sent & Hout & Hlen & _).
    rewrite Hpid, Hva in Hm2, Hlen.
    rewrite Hm1, lookup_delete_eq in Hlen.
    destruct sent; [|discriminate].
    exists t1, t2. split; [exact Ht1|]. split; [exact Ht2|].
    split; [rewrite Hout; apply app_nil_r|].
    rewrite Hm2, Hm1. apply delete_id, lookup_delete_eq.
  - intros Hzero. apply (NotifyMiss_absent ring1 self t1); [exact Ht1|].
    rewrite Hm1, <- Hzero. apply lookup_delete_eq.
Qed.

Lemma ReceiveProbeResponse_first_hit_wins_witness :
  exists ring1,
    ReceiveProbeResponse Sample.ringMiss 0 Sample.probeHit 3 = Ok ring1
    /\ NotifyMiss ring1 0 4096 = Ok ring1.
Proof.
  eexists. split; [vm_compute; reflexivity|].
  apply (proj2 (ReceiveProbeResponse_first_hit_wins Sample.ringMiss 0
                  (mkL1TLB
                     (with_mshr (Sample.sampleTLB 0)
                        {[ (0, 4096) := mkEntry [Sample.req7] None ]})
                     0 (replicate 24 zeroPage) [])
                  Sample.probeHit (mkPage 0 4096 8192 1 true) 3 _
                  eq_refl eq_refl eq_refl ltac:(vm_compute; reflexivity))).
  reflexivity.
Defined.

End RingMore.
